(** * KiCAD-MCP-Server: the JLCPCB parts-catalog synchronisation core

    A shallow embedding of [python/commands/jlcpcb.py] (archive download
    planner, download executor, manifest store, request signing) and of
    [python/commands/jlcpcb_parts.py] (local parts store, import, search,
    alternative ranking), with the properties the specification states
    about them.

    Conventions.  Python [str] values are modelled by [string] (their UTF-8
    bytes; the character-class helpers below are exact on ASCII).  Python
    [int] is [Z].  A [dict] used as a map is a [gmap]; a missing key and an
    explicit [None] are both [None].  Exceptions are values of a sum type. *)

From Stdlib Require Import ZArith QArith Qminmax Lqa List String Ascii Bool Lia Sorted Permutation.
From stdpp Require Import base option list gmap strings pretty.
Import ListNotations.

Local Open Scope string_scope.
Local Open Scope list_scope.
Local Open Scope Z_scope.

(** ** Python string helpers *)

Module PyStr.

(** [bool(s)] for a string. *)
Definition truthy (s : string) : bool :=
  match s with EmptyString => false | _ => true end.

(** [value or ""] for an optional string. *)
Definition or_empty (v : option string) : string :=
  match v with Some s => s | None => "" end.

(** ASCII members of the set [str.strip()] removes. *)
Definition is_space (c : ascii) : bool :=
  let n := nat_of_ascii c in
  ((9 <=? n) && (n <=? 13) || (28 <=? n) && (n <=? 32))%nat.

Definition is_dquote (c : ascii) : bool := (nat_of_ascii c =? 34)%nat.

Fixpoint lstrip_with (p : ascii -> bool) (s : string) : string :=
  match s with
  | String c s' => if p c then lstrip_with p s' else s
  | EmptyString => EmptyString
  end.

Fixpoint rstrip_with (p : ascii -> bool) (s : string) : string :=
  match s with
  | EmptyString => EmptyString
  | String c s' =>
      match rstrip_with p s' with
      | EmptyString => if p c then EmptyString else String c EmptyString
      | r => String c r
      end
  end.

Definition strip_with (p : ascii -> bool) (s : string) : string :=
  rstrip_with p (lstrip_with p s).

(** [s.strip()] *)
Definition strip (s : string) : string := strip_with is_space s.

(** [s.startswith(p)] *)
Definition startswith (p s : string) : bool := String.prefix p s.

(** [s[n:]] *)
Fixpoint drop (n : nat) (s : string) : string :=
  match n, s with
  | O, _ => s
  | S n', String _ s' => drop n' s'
  | S _, EmptyString => EmptyString
  end.

(** [os.path.join(a, b)] on POSIX, two arguments. *)
Definition path_join (a b : string) : string :=
  if startswith "/" b then b
  else if negb (truthy a) || String.prefix "/" (String.string_of_list_ascii
                                 (rev (String.list_ascii_of_string a)))
       then a +:+ b
       else a +:+ "/" +:+ b.

End PyStr.

(** ** Incremental download planner ([JLCPCBClient._plan_incremental_download]) *)

Module Planner.
Import PyStr.

(** One entry of [remote_meta], as [_get_remote_archive_metadata] builds it. *)
Record remote_file := {
  r_size : Z;
  r_etag : option string;
  r_lastModified : option string;
  r_url : option string;
}.

(** One entry of the manifest's [files] map. *)
Record manifest_file := {
  m_size : Z;
  m_etag : option string;
  m_lastModified : option string;
}.

(** [remote_meta.get(filename, {})] read through [.get] with defaults. *)
Definition empty_remote : remote_file :=
  {| r_size := 0; r_etag := None; r_lastModified := None; r_url := None |}.
Definition empty_previous : manifest_file :=
  {| m_size := 0; m_etag := None; m_lastModified := None |}.

(** The local file system is a map from path to file contents,
    [gmap string string]. *)

Definition path_exists (f : gmap string string) (p : string) : bool :=
  match f !! p with Some _ => true | None => false end.

Definition getsize (f : gmap string string) (p : string) : Z :=
  match f !! p with
  | Some data => Z.of_nat (String.length data)
  | None => 0
  end.

Definition _normalize_etag (value : option string) : string :=
  match value with
  | None => ""
  | Some v =>
      if negb (truthy v) then ""
      else
        let normalized := strip v in
        let normalized :=
          if startswith "W/" normalized then drop 2 normalized
          else normalized in
        strip_with is_dquote normalized
  end.

Record file_signals := {
  local_exists : bool;
  same_size : bool;
  prev_etag : string;
  remote_etag : string;
  same_etag : bool;
  prev_last_modified : string;
  remote_last_modified : string;
  same_last_modified : bool;
}.

(** The locals of one iteration of the planner's loop. *)
Definition signals (target_dir : string) (disk : gmap string string)
    (remote : remote_file) (previous : manifest_file) (filename : string)
  : file_signals :=
  let output_path := path_join target_dir filename in
  let remote_size := r_size remote in
  let local_exists := path_exists disk output_path in
  let local_size := if local_exists then getsize disk output_path else -1 in
  let same_size := local_exists && (local_size =? remote_size) in
  let prev_etag := _normalize_etag (m_etag previous) in
  let remote_etag := _normalize_etag (r_etag remote) in
  let same_etag :=
    truthy prev_etag && truthy remote_etag && String.eqb prev_etag remote_etag in
  let prev_last_modified := strip (or_empty (m_lastModified previous)) in
  let remote_last_modified := strip (or_empty (r_lastModified remote)) in
  let same_last_modified :=
    truthy prev_last_modified && truthy remote_last_modified
    && String.eqb prev_last_modified remote_last_modified in
  {| local_exists := local_exists; same_size := same_size;
     prev_etag := prev_etag; remote_etag := remote_etag;
     same_etag := same_etag;
     prev_last_modified := prev_last_modified;
     remote_last_modified := remote_last_modified;
     same_last_modified := same_last_modified |}.

(** The [should_redownload] decision chain, branch for branch. *)
Definition should_redownload (s : file_signals) : bool :=
  if negb (local_exists s) then true
  else if same_etag s || same_last_modified s then false
  else if negb (same_size s)
          && (truthy (remote_etag s) || truthy (remote_last_modified s))
       then true
  else if negb (same_size s) then true
  else if truthy (remote_etag s) && truthy (prev_etag s)
       then negb (same_etag s)
  else if truthy (remote_last_modified s) && truthy (prev_last_modified s)
       then negb (same_last_modified s)
  else false.

Record plan := {
  partsToDownload : list string;
  reusedParts : list string;
  totalDownloadBytes : Z;
}.

Definition lookup_remote (remote_meta : gmap string remote_file)
    (filename : string) : remote_file :=
  default empty_remote (remote_meta !! filename).

Definition lookup_previous (previous_files : gmap string manifest_file)
    (filename : string) : manifest_file :=
  default empty_previous (previous_files !! filename).

Definition decide_part (target_dir : string) (disk : gmap string string)
    (remote_meta : gmap string remote_file)
    (previous_files : gmap string manifest_file) (filename : string) : bool :=
  should_redownload
    (signals target_dir disk (lookup_remote remote_meta filename)
       (lookup_previous previous_files filename) filename).

(** The body of the [for filename in archive_parts] loop. *)
Definition plan_step (target_dir : string) (disk : gmap string string)
    (remote_meta : gmap string remote_file)
    (previous_files : gmap string manifest_file)
    (acc : plan) (filename : string) : plan :=
  let remote_size := r_size (lookup_remote remote_meta filename) in
  if decide_part target_dir disk remote_meta previous_files filename then
    {| partsToDownload := partsToDownload acc ++ [filename];
       reusedParts := reusedParts acc;
       totalDownloadBytes := totalDownloadBytes acc + remote_size |}
  else
    {| partsToDownload := partsToDownload acc;
       reusedParts := reusedParts acc ++ [filename];
       totalDownloadBytes := totalDownloadBytes acc |}.

Definition empty_plan : plan :=
  {| partsToDownload := []; reusedParts := []; totalDownloadBytes := 0 |}.

Definition _plan_incremental_download (target_dir : string)
    (disk : gmap string string) (archive_parts : list string)
    (remote_meta : gmap string remote_file)
    (previous_files : gmap string manifest_file) : plan :=
  fold_left (plan_step target_dir disk remote_meta previous_files)
    archive_parts empty_plan.

(** Sum of the remote sizes of a list of parts. *)
Definition remote_bytes (remote_meta : gmap string remote_file)
    (names : list string) : Z :=
  fold_right Z.add 0 (map (fun n => r_size (lookup_remote remote_meta n)) names).

(** The signals of one part, as the planner computes them. *)
Definition signals_of (target_dir : string) (disk : gmap string string)
    (remote_meta : gmap string remote_file)
    (previous_files : gmap string manifest_file) (f : string) : file_signals :=
  signals target_dir disk (lookup_remote remote_meta f)
    (lookup_previous previous_files f) f.

End Planner.

(** ** Download executor and manifest store ([JLCPCBClient.download_yaqwsx_cache],
       [_load_manifest], [_save_manifest]) *)

Module Download.
Import PyStr Planner.

(** The manifest object written to [cache_manifest.json]. *)
Record manifest := {
  updatedAt : Z;
  source : string;
  createdAt : option string;
  files : gmap string manifest_file;
}.

(** The fields of the dict [estimate_yaqwsx_update] returns that the download
    run reads.  The two megabyte fields are floats produced by
    [round(x, 1)]; they are kept here as an integer number of tenths of a
    megabyte. *)
Record estimate := {
  archiveParts : list string;
  downloadSizeBytes : Z;
  changedArchiveParts : option Z;
  estimatedUpdateDownloadMB : Z;
  estimatedDatabaseSizeMB : Z;
  reusedArchiveParts : option Z;
  e_createdAt : option string;
}.

(** How the exit of the [with open(output_path, "wb") as out] block leaves
    the file when an exception goes through it.  [out] is a buffered writer:
    of the bytes handed to [out.write] up to then, those of a failing call
    among them, a leading part has reached the file, [reached] bytes long
    (all of them when [reached] is not smaller than their number); and
    [out.close()], which flushes the buffer, may raise in its turn, its
    [OSError] then taking the place of the exception under way. *)
Record unwinding := {
  reached : nat;
  close_raises : bool;
}.

(** What one streamed [requests.get] yields to the chunk loop: a chunk
    whose [out.write] returns; a chunk whose [out.write] raises [OSError],
    with [ENOSPC] or with another errno; the stream itself raising; and the
    stream ending with [out.close()] raising, at the exit of the [with]
    block, for what it could not flush. *)
Inductive stream_event :=
| Chunk (data : string)
| ChunkNoSpace (data : string) (u : unwinding)
| ChunkIOError (data : string) (u : unwinding)
| StreamFails (u : unwinding)
| CloseFails (n : nat).

Record response := {
  status_ok : bool;
  body : list stream_event;
}.

(** The exceptions a run raises.  The two preflight errors carry the
    required and the available size, in tenths of a megabyte, as their
    message does. *)
Inductive exn :=
| InsufficientDownloadSpace (required_mb free_mb : Z)
| InsufficientExtractionSpace (required_mb free_mb : Z)
| RequestFailed (url : string)
| StreamFailed (path : string)
| NoSpaceWhileDownloading
| WriteFailed (path : string)
| CloseFailed (path : string)
| CacheZipMissing
| MissingArchiveParts (names : list string).

Record fetched := {
  downloadedBytes : Z;
  f_totalDownloadBytes : Z;
  remoteTotalBytes : Z;
  updatedParts : list string;
  f_reusedParts : list string;
  manifestPath : string;
  extractionDir : string;
}.

(** How a run ends: the no-update return, an exception, or every step up to
    the call of the external extractor done. *)
Inductive outcome :=
| NoUpdate (remote_total reused : Z)
| Raised (e : exn)
| ReadyToExtract (r : fetched).

(** [round(n / d, 1)] in tenths, for exact [n / d]: nearest, ties to even. *)
Definition round_half_even_div (n d : Z) : Z :=
  let q := n / d in
  let r := n mod d in
  if 2 * r <? d then q
  else if d <? 2 * r then q + 1
  else if Z.even q then q else q + 1.

Definition MiB : Z := 1024 * 1024.

(** [round(bytes / (1024 * 1024), 1)], in tenths of a megabyte. *)
Definition mb_round1 (bytes : Z) : Z := round_half_even_div (bytes * 10) MiB.

(** [int(float(mb) * 1024 * 1024)] for [mb] given in tenths. *)
Definition mb_to_bytes (tenths : Z) : Z := Z.quot (tenths * MiB) 10.

Definition YAQWSX_BASE_URL : string := "https://yaqwsx.github.io/jlcparts/data".

(** File-system steps, each atomic. *)
Inductive fs_op :=
| OpTruncate (path : string)
| OpAppend (path data : string)
| OpReplace (src dst : string).

Definition apply_op (disk : gmap string string) (op : fs_op) : gmap string string :=
  match op with
  | OpTruncate p => <[p := ""]> disk
  | OpAppend p data => <[p := default "" (disk !! p) +:+ data]> disk
  | OpReplace src dst =>
      match disk !! src with
      | Some data => <[dst := data]> (delete src disk)
      | None => disk
      end
  end.

Definition run_ops (ops : list fs_op) (disk : gmap string string)
  : gmap string string := fold_left apply_op ops disk.

(** Whether every event of a stream lets the chunk loop go on. *)
Definition events_ok (events : list stream_event) : bool :=
  forallb (fun e => match e with
                    | Chunk _ => true
                    | ChunkNoSpace d _ | ChunkIOError d _ => negb (truthy d)
                    | StreamFails _ | CloseFails _ => false
                    end) events.

(** An exception leaves the chunk loop and the [with] block around it:
    the file keeps the leading part that has reached it of what it was
    handed, [last_chunk] being the chunk of the call that raised. *)
Definition leave (output_path : string) (disk : gmap string string)
    (last_chunk : string) (u : unwinding) (e : exn)
  : gmap string string * (exn + Z) :=
  (<[output_path :=
       String.substring 0 (reached u)
         (default "" (disk !! output_path) +:+ last_chunk)]> disk,
   inl (if close_raises u then CloseFailed output_path else e)).

Section Env.
(** [json.dump(data, fh, indent=2, sort_keys=True)] and [json.load]. *)
Variable json_dump : manifest -> string.
Variable json_load : string -> option manifest.
(** The remote server: what a streamed GET of a URL does. *)
Variable network : string -> option response.
(** [shutil.disk_usage(dir).free] *)
Variable disk_free : string -> Z.
(** [int(time.time())] at the manifest write. *)
Variable now : Z.

Definition _load_manifest (disk : gmap string string) (manifest_path : string)
  : option manifest :=
  match disk !! manifest_path with
  | None => None
  | Some text => json_load text
  end.

(** [existing_manifest.get("files", {})] *)
Definition previous_files_of (m : option manifest) : gmap string manifest_file :=
  match m with Some m => files m | None => ∅ end.

(** The file-system steps of [_save_manifest], in order. *)
Definition _save_manifest_ops (manifest_path : string) (data : manifest)
  : list fs_op :=
  let tmp_path := manifest_path +:+ ".tmp" in
  [OpTruncate tmp_path; OpAppend tmp_path (json_dump data);
   OpReplace tmp_path manifest_path].

Definition _save_manifest (manifest_path : string) (data : manifest)
    (disk : gmap string string) : gmap string string :=
  run_ops (_save_manifest_ops manifest_path data) disk.

(** The inner [for chunk in response.iter_content(...)] loop, with the
    exit of the [with open(...)] block around it. *)
Fixpoint write_stream (output_path : string) (events : list stream_event)
    (disk : gmap string string) (downloaded_bytes : Z)
  : gmap string string * (exn + Z) :=
  match events with
  | [] => (disk, inr downloaded_bytes)
  | StreamFails u :: _ => leave output_path disk "" u (StreamFailed output_path)
  | CloseFails n :: _ =>
      leave output_path disk "" {| reached := n; close_raises := true |}
        (CloseFailed output_path)
  | Chunk data :: rest =>
      if negb (truthy data) then
        write_stream output_path rest disk downloaded_bytes
      else
        write_stream output_path rest
          (apply_op disk (OpAppend output_path data))
          (downloaded_bytes + Z.of_nat (String.length data))
  | ChunkNoSpace data u :: rest =>
      if negb (truthy data) then
        write_stream output_path rest disk downloaded_bytes
      else leave output_path disk data u NoSpaceWhileDownloading
  | ChunkIOError data u :: rest =>
      if negb (truthy data) then
        write_stream output_path rest disk downloaded_bytes
      else leave output_path disk data u (WriteFailed output_path)
  end.

(** [str(file_meta.get("url") or f"{self.YAQWSX_BASE_URL}/{filename}")] *)
Definition part_url (remote_meta : gmap string remote_file) (filename : string)
  : string :=
  let file_meta := lookup_remote remote_meta filename in
  match r_url file_meta with
  | Some u => if truthy u then u else YAQWSX_BASE_URL +:+ "/" +:+ filename
  | None => YAQWSX_BASE_URL +:+ "/" +:+ filename
  end.

(** One iteration of [for index, filename in enumerate(parts_to_download)]. *)
Definition fetch_part (target_dir : string)
    (remote_meta : gmap string remote_file) (filename : string)
    (disk : gmap string string) (downloaded_bytes : Z)
  : gmap string string * (exn + Z) :=
  let url := part_url remote_meta filename in
  let output_path := path_join target_dir filename in
  match network url with
  | None => (disk, inl (RequestFailed url))
  | Some resp =>
      if negb (status_ok resp) then (disk, inl (RequestFailed url))
      else
        write_stream output_path (body resp)
          (apply_op disk (OpTruncate output_path)) downloaded_bytes
  end.

Fixpoint fetch_parts (target_dir : string)
    (remote_meta : gmap string remote_file) (parts_to_download : list string)
    (disk : gmap string string) (downloaded_bytes : Z)
  : gmap string string * (exn + Z) :=
  match parts_to_download with
  | [] => (disk, inr downloaded_bytes)
  | filename :: rest =>
      match fetch_part target_dir remote_meta filename disk downloaded_bytes with
      | (disk', inr n) => fetch_parts target_dir remote_meta rest disk' n
      | failed => failed
      end
  end.

(** The [files] comprehension of [final_manifest]. *)
Definition final_files (remote_meta : gmap string remote_file)
    (archive_parts : list string) : gmap string manifest_file :=
  list_to_map
    (map (fun name =>
            let r := lookup_remote remote_meta name in
            (name, {| m_size := r_size r; m_etag := r_etag r;
                      m_lastModified := r_lastModified r |}))
       (rev archive_parts)).

Definition final_manifest (est : estimate)
    (remote_meta : gmap string remote_file) : manifest :=
  {| updatedAt := now; source := "public"; createdAt := e_createdAt est;
     files := final_files remote_meta (archiveParts est) |}.

(** [extract_dir or target_dir] *)
Definition extraction_target (target_dir : string) (extract_dir : option string)
  : string :=
  match extract_dir with
  | Some d => if truthy d then d else target_dir
  | None => target_dir
  end.

(** [f"cache.z{idx:02d}"] *)
Definition part_name (idx : Z) : string :=
  "cache.z" +:+ (if idx <? 10 then "0" else "") +:+ pretty idx.

Definition YAQWSX_MAX_PARTS : Z := 60.

(** The loop of [_discover_yaqwsx_archive_parts]; [probe] tells whether the
    [HEAD] request of a URL answers with status 200 (an exception counts as a
    miss). *)
Fixpoint discover_loop (probe : string -> bool) (indices : list Z)
    (parts : list string) (misses : Z) : list string :=
  match indices with
  | [] => parts
  | idx :: rest =>
      let name := part_name idx in
      let url := YAQWSX_BASE_URL +:+ "/" +:+ name in
      let parts' := if probe url then parts ++ [name] else parts in
      let misses' := if probe url then 0 else misses + 1 in
      if (3 <=? misses') && (8 <? idx) then parts'
      else discover_loop probe rest parts' misses'
  end.

Definition _discover_yaqwsx_archive_parts (probe : string -> bool) : list string :=
  discover_loop probe (seqZ 1 YAQWSX_MAX_PARTS) [] 0 ++ ["cache.zip"].

(** The names the discovery gives archive parts all start like this. *)
Definition is_part_name (f : string) : bool := String.prefix "cache.z" f.

(** The guard of the early [noUpdate] return. *)
Definition no_update (est : estimate) : bool :=
  (default 0 (changedArchiveParts est) =? 0)
  && (estimatedUpdateDownloadMB est =? 0).

(** The states of the disk an interruption of [_save_manifest] can leave
    behind: the state after any number of its steps, and the states in
    which only a part of the text has reached the temporary file. *)
Inductive interrupted_save (manifest_path : string) (data : manifest)
    (disk : gmap string string) : gmap string string -> Prop :=
| interrupted_after (n : nat) :
    interrupted_save manifest_path data disk
      (run_ops (take n (_save_manifest_ops manifest_path data)) disk)
| interrupted_in_write (written : string) :
    String.prefix written (json_dump data) = true ->
    interrupted_save manifest_path data disk
      (run_ops [OpTruncate (manifest_path +:+ ".tmp");
                OpAppend (manifest_path +:+ ".tmp") written] disk).

(** The steps of [download_yaqwsx_cache] from the no-update guard to the
    call of the external extractor, given the estimate [est] and the
    metadata [remote_meta] that the two probes before them have returned.
    The whole function, with the probes and the extraction, is
    [Run.download_yaqwsx_cache] below.  Directories and the progress callback
    are not part of the state. *)
Definition download_yaqwsx_cache (target_dir : string)
    (extract_dir : option string) (est : estimate)
    (remote_meta : gmap string remote_file) (disk : gmap string string)
  : gmap string string * outcome :=
  let archive_parts := archiveParts est in
  let total_bytes := downloadSizeBytes est in
  if no_update est then
    (disk, NoUpdate total_bytes
             (default (Z.of_nat (length archive_parts)) (reusedArchiveParts est)))
  else
    let manifest_path := path_join target_dir "cache_manifest.json" in
    let existing_manifest := _load_manifest disk manifest_path in
    let previous_files := previous_files_of existing_manifest in
    let plan :=
      _plan_incremental_download target_dir disk archive_parts
        remote_meta previous_files in
    let parts_to_download := partsToDownload plan in
    let reused_parts := reusedParts plan in
    let total_download_bytes := totalDownloadBytes plan in
    let estimated_db_bytes := mb_to_bytes (estimatedDatabaseSizeMB est) in
    let download_required_bytes := total_download_bytes in
    let download_free_bytes := disk_free target_dir in
    if download_free_bytes <? download_required_bytes then
      (disk, Raised (InsufficientDownloadSpace
                       (mb_round1 download_required_bytes)
                       (mb_round1 download_free_bytes)))
    else
      let extraction_target_dir := extraction_target target_dir extract_dir in
      let extraction_free_bytes := disk_free extraction_target_dir in
      if extraction_free_bytes <? estimated_db_bytes then
        (disk, Raised (InsufficientExtractionSpace
                         (mb_round1 estimated_db_bytes)
                         (mb_round1 extraction_free_bytes)))
      else
        match fetch_parts target_dir remote_meta parts_to_download disk 0 with
        | (disk1, inl e) => (disk1, Raised e)
        | (disk1, inr downloaded_bytes) =>
            let disk2 :=
              _save_manifest manifest_path (final_manifest est remote_meta)
                disk1 in
            let archive_path := path_join target_dir "cache.zip" in
            if negb (path_exists disk2 archive_path) then
              (disk2, Raised CacheZipMissing)
            else
              let missing_parts :=
                List.filter (fun part =>
                          negb (path_exists disk2 (path_join target_dir part)))
                  archive_parts in
              match missing_parts with
              | _ :: _ => (disk2, Raised (MissingArchiveParts (take 5 missing_parts)))
              | [] =>
                  (disk2,
                   ReadyToExtract
                     {| downloadedBytes := downloaded_bytes;
                        f_totalDownloadBytes := total_download_bytes;
                        remoteTotalBytes := total_bytes;
                        updatedParts := parts_to_download;
                        f_reusedParts := reused_parts;
                        manifestPath := manifest_path;
                        extractionDir := extraction_target_dir |})
              end
        end.

(** Whether the transfer of one part succeeds. *)
Definition part_ok (remote_meta : gmap string remote_file) (filename : string)
  : bool :=
  match network (part_url remote_meta filename) with
  | Some resp => status_ok resp && events_ok (body resp)
  | None => false
  end.

End Env.

End Download.

(** ** Request signing ([JLCPCBClient._build_signature_string], [_sign],
       [_get_auth_header]) *)

Module Signing.
Import PyStr.

Definition LF : string := String (ascii_of_nat 10) EmptyString.
Definition DQ : string := String (ascii_of_nat 34) EmptyString.

(** [s.encode("utf-8")]: the bytes of the string. *)
Definition encode (s : string) : list Z :=
  map (fun c => Z.of_nat (nat_of_ascii c)) (list_ascii_of_string s).

(** [bytes.decode("utf-8")] for ASCII bytes. *)
Definition decode (bs : list Z) : string :=
  string_of_list_ascii (map (fun b => ascii_of_nat (Z.to_nat b)) bs).

(** *** SHA-256 (FIPS 180-4), on 32-bit words kept in [Z] *)

Definition w32 (x : Z) : Z := x mod 2 ^ 32.
Definition add32 (x y : Z) : Z := w32 (x + y).
Definition rotr (n x : Z) : Z :=
  Z.lor (Z.shiftr x n) (w32 (Z.shiftl x (32 - n))).
Definition not32 (x : Z) : Z := Z.lxor x (2 ^ 32 - 1).
Definition Ch (x y z : Z) : Z := Z.lxor (Z.land x y) (Z.land (not32 x) z).
Definition Maj (x y z : Z) : Z :=
  Z.lxor (Z.lxor (Z.land x y) (Z.land x z)) (Z.land y z).
Definition Sigma0 (x : Z) : Z := Z.lxor (Z.lxor (rotr 2 x) (rotr 13 x)) (rotr 22 x).
Definition Sigma1 (x : Z) : Z := Z.lxor (Z.lxor (rotr 6 x) (rotr 11 x)) (rotr 25 x).
Definition sigma0 (x : Z) : Z := Z.lxor (Z.lxor (rotr 7 x) (rotr 18 x)) (Z.shiftr x 3).
Definition sigma1 (x : Z) : Z := Z.lxor (Z.lxor (rotr 17 x) (rotr 19 x)) (Z.shiftr x 10).

(** The constants are defined as the standard defines them: the round
    constants are the first 32 bits of the fractional parts of the cube roots
    of the first 64 primes, the initial hash value those of the square roots
    of the first 8 primes. *)
Definition is_prime (n : Z) : bool :=
  (1 <? n) && forallb (fun d => negb (n mod d =? 0)) (seqZ 2 (n - 2)).

Definition first_primes (k : nat) : list Z :=
  take k (List.filter is_prime (seqZ 2 310)).

(** Integer cube root, one bit at a time from bit 35 down. *)
Definition icbrt (n : Z) : Z :=
  fold_left (fun r k => let c := r + 2 ^ k in if c * c * c <=? n then c else r)
    (rev (seqZ 0 36)) 0.

Definition K256 : list Z :=
  map (fun p => w32 (icbrt (p * 2 ^ 96))) (first_primes 64).

Definition H256 : list Z :=
  map (fun p => w32 (Z.sqrt (p * 2 ^ 64))) (first_primes 8).

(** Big-endian bytes of an [n]-byte number. *)
Fixpoint be_bytes (n : nat) (x : Z) : list Z :=
  match n with
  | O => []
  | S n' => (Z.shiftr x (8 * Z.of_nat n')) mod 256 :: be_bytes n' x
  end.

Definition be_word (bs : list Z) : Z :=
  fold_left (fun acc b => acc * 256 + b) bs 0.

Definition sha_pad (msg : list Z) : list Z :=
  let len := Z.of_nat (length msg) in
  let zeros := Z.to_nat ((55 - len) mod 64) in
  msg ++ [0x80] ++ repeat 0 zeros ++ be_bytes 8 (8 * len).

(** Split into groups of [n] items. *)
Fixpoint chunks_of {A} (fuel n : nat) (l : list A) : list (list A) :=
  match fuel, l with
  | _, [] => []
  | O, _ => []
  | S fuel', _ => firstn n l :: chunks_of fuel' n (skipn n l)
  end.

(** The message schedule, newest word first. *)
Fixpoint extend_schedule (n : nat) (w : list Z) : list Z :=
  match n with
  | O => w
  | S n' =>
      let x :=
        add32 (add32 (sigma1 (nth 1 w 0)) (nth 6 w 0))
              (add32 (sigma0 (nth 14 w 0)) (nth 15 w 0)) in
      extend_schedule n' (x :: w)
  end.

Definition schedule (block : list Z) : list Z :=
  let w16 := map be_word (chunks_of 16 4 block) in
  rev (extend_schedule 48 (rev w16)).

Definition sha_round (st : list Z) (kw : Z * Z) : list Z :=
  match st with
  | [a; b; c; d; e; f; g; h] =>
      let t1 :=
        add32 (add32 (add32 h (Sigma1 e)) (add32 (Ch e f g) (fst kw))) (snd kw) in
      let t2 := add32 (Sigma0 a) (Maj a b c) in
      [add32 t1 t2; a; b; c; add32 d t1; e; f; g]
  | _ => st
  end.

Definition compress (h : list Z) (block : list Z) : list Z :=
  let st := fold_left sha_round (combine K256 (schedule block)) h in
  map (fun p => add32 (fst p) (snd p)) (combine h st).

Definition sha256 (msg : list Z) : list Z :=
  let padded := sha_pad msg in
  let blocks := chunks_of (length padded) 64 padded in
  flat_map (be_bytes 4) (fold_left compress blocks H256).

(** *** HMAC (RFC 2104) with SHA-256: [hmac.new(key, msg, hashlib.sha256).digest()] *)

Definition hmac_sha256 (key msg : list Z) : list Z :=
  let key0 := if (64 <? Z.of_nat (length key)) then sha256 key else key in
  let key1 := key0 ++ repeat 0 (64 - length key0)%nat in
  let ipad := map (fun b => Z.lxor b 0x36) key1 in
  let opad := map (fun b => Z.lxor b 0x5c) key1 in
  sha256 (opad ++ sha256 (ipad ++ msg)).

(** *** Base64 (RFC 4648), standard alphabet: [base64.b64encode] *)

Definition b64_alphabet : string :=
  "ABCDEFGHIJKLMNOPQRSTUVWXYZabcdefghijklmnopqrstuvwxyz0123456789+/".

Definition b64_char (i : Z) : Z :=
  match String.get (Z.to_nat i) b64_alphabet with
  | Some c => Z.of_nat (nat_of_ascii c)
  | None => 61
  end.

Definition b64_group (g : list Z) : list Z :=
  match g with
  | [a; b; c] =>
      [b64_char (Z.shiftr a 2);
       b64_char (Z.lor (Z.shiftl (Z.land a 3) 4) (Z.shiftr b 4));
       b64_char (Z.lor (Z.shiftl (Z.land b 15) 2) (Z.shiftr c 6));
       b64_char (Z.land c 63)]
  | [a; b] =>
      [b64_char (Z.shiftr a 2);
       b64_char (Z.lor (Z.shiftl (Z.land a 3) 4) (Z.shiftr b 4));
       b64_char (Z.shiftl (Z.land b 15) 2);
       61]
  | [a] =>
      [b64_char (Z.shiftr a 2); b64_char (Z.shiftl (Z.land a 3) 4); 61; 61]
  | _ => []
  end.

Definition b64encode (bs : list Z) : list Z :=
  flat_map b64_group (chunks_of (length bs) 3 bs).

(** *** The client *)

Record client := {
  app_id : option string;
  access_key : option string;
  secret_key : option string;
}.

(** [str(x)] for an optional string. *)
Definition str_opt (v : option string) : string :=
  match v with Some s => s | None => "None" end.

(** [not x] for an optional string. *)
Definition missing (v : option string) : bool :=
  match v with Some s => negb (truthy s) | None => true end.

Definition _build_signature_string (method path : string) (timestamp : Z)
    (nonce body : string) : string :=
  method +:+ LF +:+ path +:+ LF +:+ pretty timestamp +:+ LF
    +:+ nonce +:+ LF +:+ body +:+ LF.

Definition _sign (self : client) (signature_string : string) : string :=
  let signature_bytes :=
    hmac_sha256 (encode (str_opt (secret_key self))) (encode signature_string) in
  decode (b64encode signature_bytes).

Inductive auth_error := CredentialsNotConfigured.

(** [_get_auth_header]; the nonce from [_generate_nonce] and the timestamp
    from [time.time] are arguments. *)
Definition _get_auth_header (self : client) (nonce : string) (timestamp : Z)
    (method path body : string) : auth_error + string :=
  if missing (app_id self) || missing (access_key self)
     || missing (secret_key self)
  then inl CredentialsNotConfigured
  else
    let signature_string :=
      _build_signature_string method path timestamp nonce body in
    let signature := _sign self signature_string in
    inr ("JOP appid=" +:+ DQ +:+ str_opt (app_id self) +:+ DQ
         +:+ ",accesskey=" +:+ DQ +:+ str_opt (access_key self) +:+ DQ
         +:+ ",nonce=" +:+ DQ +:+ nonce +:+ DQ
         +:+ ",timestamp=" +:+ DQ +:+ pretty timestamp +:+ DQ
         +:+ ",signature=" +:+ DQ +:+ signature +:+ DQ).

End Signing.


(** ** Local parts store ([JLCPCBPartsManager])

    What is assumed of SQLite.  A table is the list of its rows in rowid
    order, which is the order a scan without [ORDER BY] returns them in;
    [INSERT OR REPLACE] deletes the row with the same primary key and appends
    the new one under a fresh rowid; columns hold values of their declared
    type and no [NULL]; data definition statements take part in the
    transaction, so that [ROLLBACK] undoes [DROP INDEX] and [CREATE INDEX];
    and the statements of the exception handler themselves succeed. *)

Module Parts.
Import PyStr.

(** A row of the [components] table, with the column names of the schema. *)
Record part := {
  lcsc : string;
  category : string;
  subcategory : string;
  mfr_part : string;
  package : string;
  solder_joints : Z;
  manufacturer : string;
  library_type : string;
  description : string;
  datasheet : string;
  stock : Z;
  price_json : string;
  last_updated : Z;
}.

(** What the full-text index holds for one indexed row. *)
Record fts_entry := {
  fts_rowid : Z;
  fts_lcsc : string;
  fts_description : string;
  fts_mfr_part : string;
  fts_manufacturer : string;
}.

(** The contents of the database file as one transaction sees them: the
    [components] rows with their rowids, in rowid order (the order of a
    table scan); the names of the secondary indexes that exist; the rows
    the full-text index has indexed; the [metadata] table; and the
    temporary table [updated_lcsc] when it exists. *)
Record snapshot := {
  components : list (Z * part);
  indexes : gset string;
  fts : list fts_entry;
  metadata : gmap string string;
  updated_lcsc : option (list string);
}.

(** A connection: the committed state, and the state of the open
    transaction if there is one. *)
Record conn := {
  committed : snapshot;
  in_tx : option snapshot;
}.

(** What statements executed on the connection see. *)
Definition visible (c : conn) : snapshot := default (committed c) (in_tx c).

Definition component_index_names : list string :=
  ["idx_category"; "idx_package"; "idx_manufacturer"; "idx_library_type";
   "idx_mfr_part"].

Definition set_components (s : snapshot) (rows : list (Z * part)) : snapshot :=
  {| components := rows; indexes := indexes s; fts := fts s;
     metadata := metadata s; updated_lcsc := updated_lcsc s |}.
Definition set_indexes (s : snapshot) (ix : gset string) : snapshot :=
  {| components := components s; indexes := ix; fts := fts s;
     metadata := metadata s; updated_lcsc := updated_lcsc s |}.
Definition set_fts (s : snapshot) (f : list fts_entry) : snapshot :=
  {| components := components s; indexes := indexes s; fts := f;
     metadata := metadata s; updated_lcsc := updated_lcsc s |}.
Definition set_updated (s : snapshot) (u : option (list string)) : snapshot :=
  {| components := components s; indexes := indexes s; fts := fts s;
     metadata := metadata s; updated_lcsc := u |}.

(** [CREATE INDEX IF NOT EXISTS ...] for the five indexes. *)
Definition _create_component_indexes (s : snapshot) : snapshot :=
  set_indexes s (indexes s ∪ list_to_set component_index_names).

(** [DROP INDEX IF EXISTS ...] for the five indexes. *)
Definition _drop_component_indexes (s : snapshot) : snapshot :=
  set_indexes s (indexes s ∖ list_to_set component_index_names).

(** The rowid SQLite gives a new row: one more than the largest in use. *)
Definition next_rowid (rows : list (Z * part)) : Z :=
  fold_left Z.max (map fst rows) 0 + 1.

(** [INSERT OR REPLACE INTO components ...] of one row: the row with the
    same primary key is deleted, the new row is appended. *)
Definition upsert (rows : list (Z * part)) (p : part) : list (Z * part) :=
  let kept := List.filter (fun r => negb (String.eqb (lcsc (snd r)) (lcsc p))) rows in
  kept ++ [(next_rowid rows, p)].

(** *** SQL [LIKE] with SQLite's defaults: [%] and [_] wildcards, ASCII
    letters compared without case, no escape character *)

Definition upper (c : ascii) : ascii :=
  let n := nat_of_ascii c in
  if ((97 <=? n) && (n <=? 122))%nat then ascii_of_nat (n - 32) else c.

Definition eq_nocase (a b : ascii) : bool := Ascii.eqb (upper a) (upper b).

Fixpoint like (pattern : string) (s : string) : bool :=
  match pattern with
  | EmptyString => match s with EmptyString => true | _ => false end
  | String c pattern' =>
      if Ascii.eqb c "%"%char then
        (fix from (s : string) : bool :=
           like pattern' s
           || match s with
              | EmptyString => false
              | String _ s' => from s'
              end) s
      else
        match s with
        | EmptyString => false
        | String d s' =>
            (Ascii.eqb c "_"%char || eq_nocase c d) && like pattern' s'
        end
  end.

(** *** The queries [search_parts] assembles *)

Inductive column := ColCategory | ColPackage | ColManufacturer | ColLibraryType.

Definition column_value (c : column) (p : part) : string :=
  match c with
  | ColCategory => category p
  | ColPackage => package p
  | ColManufacturer => manufacturer p
  | ColLibraryType => library_type p
  end.

(** One [AND ...] clause of the statement, with its bound parameter. *)
Inductive condition :=
| FtsMatch (query : string)
| Like (c : column) (pattern : string)
| Equals (c : column) (value : string)
| StockPositive.

(** [SELECT * FROM components WHERE 1=1 <conditions> LIMIT <limit>] *)
Record select := {
  conditions : list condition;
  limit : Z;
}.

Inductive sql_error := FtsSyntaxError (query : string).

(** [LIMIT n]: a negative [n] is no limit. *)
Definition sql_limit {A} (n : Z) (l : list A) : list A :=
  if n <? 0 then l else take (Z.to_nat n) l.

(** [alternatives[:limit]] *)
Definition py_slice_to {A} (n : Z) (l : list A) : list A :=
  if n <? 0 then take (Z.to_nat (Z.of_nat (length l) + n)) l
  else take (Z.to_nat n) l.

(** A Python [float]: a finite value, one of the two infinities, or a
    NaN. *)
Inductive pyfloat :=
| Finite (q : Q)
| PosInf
| NegInf
| NaN.

#[local] Unset Elimination Schemes.
(** A parsed JSON document, as [json.loads] returns it: a number without
    fraction or exponent is an [int], any other a [float], and [json.loads]
    also reads the constants [NaN], [Infinity] and [-Infinity]. *)
Inductive json :=
| JNull
| JBool (b : bool)
| JInt (n : Z)
| JFloat (x : pyfloat)
| JStr (s : string)
| JArr (items : list json)
| JObj (members : list (string * json)).
#[local] Set Elimination Schemes.

(** [float(n)] for an [int]: the nearest double, ties to the even
    mantissa; [None] when it raises [OverflowError]. *)
Definition float_of_int (n : Z) : option pyfloat :=
  let a := Z.abs n in
  let shift := Z.log2 a + 1 - 53 in
  let rounded :=
    if shift <=? 0 then a
    else
      let q := Z.shiftr a shift in
      let r := Z.land a (Z.ones shift) in
      let half := 2 ^ (shift - 1) in
      let q' := if (half <? r) || ((r =? half) && Z.odd q) then q + 1 else q in
      Z.shiftl q' shift in
  if 2 ^ 1024 <=? rounded then None
  else Some (Finite (inject_Z (Z.sgn n * rounded))).

(** [a < b] and [a == b] on floats; both are false when [a] or [b] is a
    NaN. *)
Definition float_lt (a b : pyfloat) : bool :=
  match a, b with
  | NaN, _ | _, NaN => false
  | _, NegInf => false
  | NegInf, _ => true
  | PosInf, _ => false
  | _, PosInf => true
  | Finite x, Finite y =>
      match Qcompare x y with Lt => true | _ => false end
  end.

Definition float_eq (a b : pyfloat) : bool :=
  match a, b with
  | Finite x, Finite y => Qeq_bool x y
  | PosInf, PosInf | NegInf, NegInf => true
  | _, _ => false
  end.

Definition is_nan (x : pyfloat) : bool :=
  match x with NaN => true | _ => false end.

Section Engine.
(** The full-text engine: a query string either parses or is rejected,
    and a parsed query matches an indexed row or not. *)
Variable fts_query : Type.
Variable fts_parse : string -> option fts_query.
Variable fts_eval : fts_query -> fts_entry -> bool.

(** [SELECT lcsc FROM components_fts WHERE components_fts MATCH ?]: the
    index is an external-content table, so the [lcsc] of a matching
    entry is read from the [components] row with the entry's rowid. *)
Definition fts_matching_keys (s : snapshot) (q : fts_query) : list string :=
  flat_map
    (fun e =>
       if fts_eval q e then
         map (fun r => lcsc (snd r))
           (List.filter (fun r => fst r =? fts_rowid e) (components s))
       else [])
    (fts s).

(** A condition prepared against the database: a row filter, or the error
    preparing it raises. *)
Definition prepare (s : snapshot) (c : condition)
  : sql_error + (part -> bool) :=
  match c with
  | FtsMatch q =>
      match fts_parse q with
      | None => inl (FtsSyntaxError q)
      | Some parsed =>
          let keys := fts_matching_keys s parsed in
          inr (fun p => existsb (String.eqb (lcsc p)) keys)
      end
  | Like col pattern => inr (fun p => like pattern (column_value col p))
  | Equals col v => inr (fun p => String.eqb (column_value col p) v)
  | StockPositive => inr (fun p => 0 <? stock p)
  end.

Fixpoint prepare_all (s : snapshot) (cs : list condition)
  : sql_error + (part -> bool) :=
  match cs with
  | [] => inr (fun _ => true)
  | c :: cs' =>
      match prepare s c, prepare_all s cs' with
      | inl e, _ => inl e
      | _, inl e => inl e
      | inr f, inr g => inr (fun p => f p && g p)
      end
  end.

(** What SQLite does with the statement once its parameters are bound: a
    scan of the table in rowid order, since the statement has no
    [ORDER BY]. *)
Definition execute (s : snapshot) (q : select) : sql_error + list part :=
  match prepare_all s (conditions q) with
  | inl e => inl e
  | inr keep =>
      inr (sql_limit (limit q) (List.filter keep (map snd (components s))))
  end.

(** The integers SQLite stores: signed, of 64 bits. *)
Definition sqlite_int (n : Z) : bool := (- 2 ^ 63 <=? n) && (n <? 2 ^ 63).

(** What [cursor.execute] raises: [OverflowError] of the [sqlite3] module,
    or an error of SQLite. *)
Inductive execute_error :=
| IntTooLarge (n : Z)
| SqlError (e : sql_error).

(** [cursor.execute(sql, params); cursor.fetchall()].  The parameters are
    bound before the statement runs, and binding a Python [int] that SQLite
    cannot store raises; the only [int] among the parameters is the
    limit. *)
Definition cursor_execute (s : snapshot) (q : select)
  : execute_error + list part :=
  if negb (sqlite_int (limit q)) then inl (IntTooLarge (limit q))
  else
    match execute s q with
    | inl e => inl (SqlError e)
    | inr rows => inr rows
    end.

(** [if x:] for an optional string argument. *)
Definition given (v : option string) : option string :=
  match v with
  | Some s => if truthy s then Some s else None
  | None => None
  end.

(** The statement [search_parts] builds from its arguments. *)
Definition build_search (query category package library_type manufacturer
                           : option string) (in_stock : bool) (limit : Z)
  : select :=
  {| conditions :=
       match given query with Some q => [FtsMatch q] | None => [] end
       ++ match given category with
          | Some c => [Like ColCategory ("%" +:+ c +:+ "%")] | None => [] end
       ++ match given package with
          | Some c => [Like ColPackage ("%" +:+ c +:+ "%")] | None => [] end
       ++ match given library_type with
          | Some t => [Equals ColLibraryType t] | None => [] end
       ++ match given manufacturer with
          | Some m => [Like ColManufacturer ("%" +:+ m +:+ "%")] | None => [] end
       ++ (if in_stock then [StockPositive] else []);
     limit := limit |}.

(** [search_parts]: the connection is returned as it was found; whatever
    [cursor.execute] raises is logged and answered with the empty list. *)
Definition search_parts (c : conn)
    (query category package library_type manufacturer : option string)
    (in_stock : bool) (limit : Z) : conn * list part :=
  let sql :=
    build_search query category package library_type manufacturer
      in_stock limit in
  match cursor_execute (visible c) sql with
  | inr rows => (c, rows)
  | inl _ => (c, [])
  end.

(** [get_part_info]: the row with the given key. *)
Definition get_part_info (c : conn) (lcsc_number : string) : option part :=
  head (List.filter (fun p => String.eqb (lcsc p) lcsc_number)
          (map snd (components (visible c)))).

(** *** Alternative ranking ([suggest_alternatives]) *)

(** [json.loads] and [float] of a string; [None] when they raise. *)
Variable json_loads : string -> option json.
Variable float_of_string : string -> option pyfloat.
(** What [list.sort] makes of rows among whose keys there is a NaN.  The
    comparisons of such keys are not those of an order, and where the rows
    end up depends on the merge strategy of the sort. *)
Variable nan_sort : list part -> list part.

(** [bool(x)] for a parsed document. *)
Definition json_truthy (j : json) : bool :=
  match j with
  | JNull => false
  | JBool b => b
  | JInt n => negb (n =? 0)
  | JFloat (Finite q) => negb (Qeq_bool q (inject_Z 0))
  | JFloat _ => true
  | JStr s => truthy s
  | JArr items => match items with [] => false | _ => true end
  | JObj members => match members with [] => false | _ => true end
  end.

(** [d.get(key)] for a parsed object; the last duplicate wins. *)
Definition dict_get (members : list (string * json)) (key : string)
  : option json :=
  snd <$> head (List.filter (fun kv => String.eqb (fst kv) key) (rev members)).

(** [float(x)]; [None] when it raises. *)
Definition py_float (j : json) : option pyfloat :=
  match j with
  | JInt n => float_of_int n
  | JFloat x => Some x
  | JBool b => Some (Finite (inject_Z (if b then 1 else 0)))
  | JStr s => float_of_string s
  | _ => None
  end.

Definition default_price : pyfloat := Finite (inject_Z 999).

(** The [price] local of [sort_key]: the price of the first price break,
    999 when there is none or anything raises. *)
Definition first_price (p : part) : pyfloat :=
  match json_loads (price_json p) with
  | None => default_price
  | Some prices =>
      if json_truthy prices then
        match prices with
        | JArr (JObj members :: _) =>
            default default_price
              (py_float (default (JInt 999) (dict_get members "price")))
        | _ => default_price
        end
      else default_price
  end.

Definition is_basic (p : part) : Z :=
  if String.eqb (library_type p) "Basic" then 1 else 0.

Definition sort_key (p : part) : Z * pyfloat * Z :=
  (- is_basic p, first_price p, - stock p).

(** [a < b] on key tuples: the comparison of the items at the first
    position where they are not equal.  (Two references to one float are
    taken to be equal there even if it is a NaN; this comparison is used
    below for keys without NaN only.) *)
Definition key_lt (a b : Z * pyfloat * Z) : bool :=
  let '(a1, a2, a3) := a in
  let '(b1, b2, b3) := b in
  if negb (a1 =? b1) then a1 <? b1
  else if negb (float_eq a2 b2) then float_lt a2 b2
  else a3 <? b3.

(** The stable sort on keys that an order compares: an element is placed
    in front of the first later element that is not smaller than it. *)
Fixpoint sort_insert (x : part) (l : list part) : list part :=
  match l with
  | [] => [x]
  | y :: l' =>
      if key_lt (sort_key y) (sort_key x) then y :: sort_insert x l'
      else x :: l
  end.

Definition stable_sort (l : list part) : list part :=
  fold_right sort_insert [] l.

(** [list.sort(key=sort_key)]: the stable sort, when no price among the
    keys is a NaN. *)
Definition sort_by_key (l : list part) : list part :=
  if existsb (fun p => is_nan (first_price p)) l then nan_sort l
  else stable_sort l.

(** [min(a, b)] on floats. *)
Definition float_min (a b : pyfloat) : pyfloat :=
  if float_lt b a then b else a.

(** Every price the row lists, and the lowest of them. *)
Definition listed_prices (p : part) : list pyfloat :=
  match json_loads (price_json p) with
  | Some (JArr items) =>
      flat_map
        (fun item =>
           match item with
           | JObj members =>
               match dict_get members "price" with
               | Some v => match py_float v with Some q => [q] | None => [] end
               | None => []
               end
           | _ => []
           end) items
  | _ => []
  end.

Definition lowest_listed_price (p : part) : option pyfloat :=
  match listed_prices p with
  | [] => None
  | q :: rest => Some (fold_left float_min rest q)
  end.

(** The ranking as a relation on rows: a Basic row before a row that is
    not; at equal tier class the lower first price first; at equal price the
    larger stock first. *)
Definition ranked_before (p q : part) : Prop :=
  is_basic q < is_basic p
  \/ (is_basic p = is_basic q
      /\ (float_lt (first_price p) (first_price q) = true
          \/ (float_eq (first_price p) (first_price q) = true
              /\ stock q <= stock p))).

Definition suggest_alternatives (c : conn) (lcsc_number : string) (limit : Z)
  : conn * list part :=
  match get_part_info c lcsc_number with
  | None => (c, [])
  | Some part =>
      let '(c1, alternatives) :=
        search_parts c None (Some (subcategory part)) (Some (package part))
          None None true (limit * 3) in
      let alternatives :=
        List.filter (fun p => negb (String.eqb (lcsc p) lcsc_number))
          alternatives in
      (c1, py_slice_to limit (sort_by_key alternatives))
  end.

End Engine.

(** *** Import of the public snapshot ([import_yaqwsx_cache]) *)

(** A value read from the source database. *)
Inductive sqlval := SNull | SInt (z : Z) | SText (s : string).

(** A row of the source relation, as the [SELECT] of the import names its
    columns (after the column-synonym resolution). *)
Record source_row := {
  src_lcsc : sqlval;
  src_category : option string;
  src_subcategory : option string;
  src_mfr : option string;
  src_package : option string;
  src_joints : sqlval;
  src_manufacturer : option string;
  src_basic : sqlval;
  src_preferred : sqlval;
  src_description : option string;
  src_datasheet : option string;
  src_stock : sqlval;
  src_price : option string;
  src_last_update : option Z;
}.

(** The source database: whether its relation has a last-update column
    ([last_col]), and its rows. *)
Record source_db := {
  has_last_col : bool;
  source_rows : list source_row;
}.

Definition digit_val (c : ascii) : option Z :=
  let n := nat_of_ascii c in
  if ((48 <=? n) && (n <=? 57))%nat then Some (Z.of_nat (n - 48)) else None.

(** Decimal digits with single underscores between them. *)
Fixpoint parse_digits (s : string) (acc : Z) (after_digit : bool) : option Z :=
  match s with
  | EmptyString => if after_digit then Some acc else None
  | String c s' =>
      match digit_val c with
      | Some d => parse_digits s' (acc * 10 + d) true
      | None =>
          if Ascii.eqb c "_"%char && after_digit then parse_digits s' acc false
          else None
      end
  end.

(** [int(s)] for a string; [None] is [ValueError]. *)
Definition py_int (s : string) : option Z :=
  match strip s with
  | String c rest =>
      if Ascii.eqb c "+"%char then parse_digits rest 0 false
      else if Ascii.eqb c "-"%char then Z.opp <$> parse_digits rest 0 false
      else parse_digits (String c rest) 0 false
  | EmptyString => None
  end.

(** [s.isdigit()] *)
Fixpoint all_digits (s : string) : bool :=
  match s with
  | EmptyString => true
  | String c s' => match digit_val c with Some _ => all_digits s' | None => false end
  end.
Definition isdigit (s : string) : bool := truthy s && all_digits s.

(** [int(v or 0)] *)
Definition int_or_zero (v : sqlval) : option Z :=
  match v with
  | SNull => Some 0
  | SInt z => Some z
  | SText s => if truthy s then py_int s else Some 0
  end.

(** The [lcsc] local of the import loop. *)
Definition convert_lcsc (v : sqlval) : string :=
  match v with
  | SInt z => "C" +:+ pretty z
  | SText s =>
      if isdigit s then "C" +:+ pretty (default 0 (parse_digits s 0 false))
      else s
  | SNull => "None"
  end.

(** The tuple the loop appends to [batch]; [None] when a conversion raises. *)
Definition convert_row (now_ts : Z) (last_col : bool) (r : source_row)
  : option part :=
  basic ← int_or_zero (src_basic r);
  preferred ← int_or_zero (src_preferred r);
  joints ← int_or_zero (src_joints r);
  stock ← int_or_zero (src_stock r);
  let last :=
    match (if last_col then src_last_update r else None) with
    | Some z => if z =? 0 then now_ts else z
    | None => now_ts
    end in
  Some {| lcsc := convert_lcsc (src_lcsc r);
          category := or_empty (src_category r);
          subcategory := or_empty (src_subcategory r);
          mfr_part := or_empty (src_mfr r);
          package := or_empty (src_package r);
          solder_joints := joints;
          manufacturer := or_empty (src_manufacturer r);
          library_type :=
            if negb (preferred =? 0) then "Preferred"
            else if negb (basic =? 0) then "Basic" else "Extended";
          description := or_empty (src_description r);
          datasheet := or_empty (src_datasheet r);
          stock := stock;
          price_json := default "[]" (src_price r);
          last_updated := last |}.

(** [stock > 0] evaluated by the source database: [NULL] is not, text
    sorts after every number. *)
Definition sql_positive (v : sqlval) : bool :=
  match v with
  | SNull => false
  | SInt z => 0 <? z
  | SText _ => true
  end.

(** The [WHERE] clause of [count_sql] and [select_sql]. *)
Definition row_selected (last_col in_stock_only : bool)
    (incremental_since : option Z) (r : source_row) : bool :=
  (if in_stock_only then sql_positive (src_stock r) else true)
  && match incremental_since with
     | Some since =>
         if last_col then
           match src_last_update r with
           | Some z => since <? z
           | None => false
           end
         else true
     | None => true
     end.

(** [SELECT MAX(last_col) FROM <relation>]: no [WHERE] clause. *)
Definition max_opt (acc : option Z) (v : option Z) : option Z :=
  match acc, v with
  | Some a, Some b => Some (Z.max a b)
  | Some a, None => Some a
  | None, v => v
  end.

Definition source_max_last_update (src : source_db) : option Z :=
  if has_last_col src then
    fold_left max_opt (map src_last_update (source_rows src)) None
  else None.

(** The conversion of a list of source rows, when none of them raises. *)
Fixpoint convert_all (now_ts : Z) (last_col : bool) (rows : list source_row)
  : option (list part) :=
  match rows with
  | [] => Some []
  | r :: rest =>
      match convert_row now_ts last_col r, convert_all now_ts last_col rest with
      | Some p, Some ps => Some (p :: ps)
      | _, _ => None
      end
  end.

(** The largest last-update value among some rows. *)
Definition max_last_update_of (rows : list source_row) : option Z :=
  fold_left max_opt (map src_last_update rows) None.

Record import_result := {
  imported : Z;
  total : Z;
  max_last_update : option Z;
}.

Inductive import_exn :=
| TransactionAlreadyOpen
| ConversionError (row : source_row)
| WriteError (imported_before : Z).

(** A statement run on the connection: inside the open transaction, or in
    autocommit mode when there is none. *)
Definition exec (f : snapshot -> snapshot) (c : conn) : conn :=
  match in_tx c with
  | Some s => {| committed := committed c; in_tx := Some (f s) |}
  | None => {| committed := f (committed c); in_tx := None |}
  end.

(** [BEGIN IMMEDIATE]; [None] when a transaction is already open. *)
Definition begin_immediate (c : conn) : option conn :=
  match in_tx c with
  | Some _ => None
  | None => Some {| committed := committed c; in_tx := Some (committed c) |}
  end.

Definition commit (c : conn) : conn :=
  {| committed := visible c; in_tx := None |}.

Definition rollback (c : conn) : conn :=
  {| committed := committed c; in_tx := None |}.

(** [INSERT INTO components_fts(components_fts) VALUES('rebuild')] *)
Definition entry_of (r : Z * part) : fts_entry :=
  {| fts_rowid := fst r; fts_lcsc := lcsc (snd r);
     fts_description := description (snd r);
     fts_mfr_part := mfr_part (snd r);
     fts_manufacturer := manufacturer (snd r) |}.

Definition fts_rebuild (s : snapshot) : snapshot :=
  set_fts s (map entry_of (components s)).

Definition key_in (keys : list string) (k : string) : bool :=
  existsb (String.eqb k) keys.

(** The two full-text statements that end an incremental import, then
    [DROP TABLE IF EXISTS updated_lcsc]. *)
Definition fts_refresh_updated (s : snapshot) : snapshot :=
  let keys := default [] (updated_lcsc s) in
  let content_key (e : fts_entry) : option string :=
    lcsc <$> (snd <$> head (List.filter (fun r => fst r =? fts_rowid e)
                              (components s))) in
  let kept :=
    List.filter
      (fun e => match content_key e with
                | Some k => negb (key_in keys k)
                | None => true
                end) (fts s) in
  let added :=
    map entry_of
      (List.filter (fun r => key_in keys (lcsc (snd r))) (components s)) in
  set_updated (set_fts s (kept ++ added)) None.

(** [INSERT OR IGNORE INTO updated_lcsc(lcsc) VALUES (?)] for each key. *)
Definition record_keys (u : list string) (batch : list part) : list string :=
  fold_left (fun acc p => if key_in acc (lcsc p) then acc else acc ++ [lcsc p])
    batch u.

Section Importer.
(** [int(datetime.now().timestamp())] *)
Variable now_ts : Z.
(** [tuning["batchSize"]], from the hardware tier or the environment. *)
Variable batch_size : nat.
(** The storage engine under the writes: given how many rows were
    imported before an [executemany], whether that call raises, and after
    how many rows of its batch. *)
Variable write_fault : Z -> option nat.

(** The two [executemany] calls on a full batch. *)
Definition write_batch (incremental : bool) (s : snapshot)
    (batch : list part) (imported : Z) : snapshot * option import_exn :=
  match write_fault imported with
  | Some k =>
      (set_components s (fold_left upsert (take k batch) (components s)),
       Some (WriteError imported))
  | None =>
      let s1 := set_components s (fold_left upsert batch (components s)) in
      let s2 :=
        if incremental then
          set_updated s1 (Some (record_keys (default [] (updated_lcsc s1)) batch))
        else s1 in
      (s2, None)
  end.

(** The [for row in source_cursor.execute(select_sql)] loop; its state is
    the transaction, [batch] and [imported]. *)
Fixpoint ingest (last_col incremental : bool) (rows : list source_row)
    (s : snapshot) (batch : list part) (imported : Z)
  : snapshot * (import_exn + (list part * Z)) :=
  match rows with
  | [] => (s, inr (batch, imported))
  | row :: rest =>
      match convert_row now_ts last_col row with
      | None => (s, inl (ConversionError row))
      | Some p =>
          let batch := batch ++ [p] in
          if (batch_size <=? length batch)%nat then
            match write_batch incremental s batch imported with
            | (s', Some e) => (s', inl e)
            | (s', None) =>
                ingest last_col incremental rest s' []
                  (imported + Z.of_nat (length batch))
            end
          else ingest last_col incremental rest s batch imported
      end
  end.

(** The [try] body from [BEGIN IMMEDIATE] to the [return]. *)
Definition import_body (c : conn) (src : source_db)
    (selected : list source_row) (incremental_since : option Z)
  : conn * (import_exn + import_result) :=
  let incremental :=
    match incremental_since with Some _ => true | None => false end in
  match begin_immediate c with
  | None => (c, inl TransactionAlreadyOpen)
  | Some c0 =>
      let in_flight (s : snapshot) : conn :=
        {| committed := committed c0; in_tx := Some s |} in
      let s0 := visible c0 in
      let s1 :=
        if incremental then
          set_updated s0 (Some (default [] (updated_lcsc s0)))
        else set_components (_drop_component_indexes s0) [] in
      match ingest (has_last_col src) incremental selected s1 [] 0 with
      | (s2, inl e) => (in_flight s2, inl e)
      | (s2, inr (batch, imported)) =>
          match
            (match batch with
             | [] => (s2, None, imported)
             | _ :: _ =>
                 let '(s3, err) := write_batch incremental s2 batch imported in
                 (s3, err, imported + Z.of_nat (length batch))
             end)
          with
          | (s3, Some e, _) => (in_flight s3, inl e)
          | (s3, None, imported) =>
              let s4 :=
                if incremental then fts_refresh_updated s3
                else _create_component_indexes (fts_rebuild s3) in
              (commit (in_flight s4),
               inr {| imported := imported;
                      total := Z.of_nat (length selected);
                      max_last_update := source_max_last_update src |})
          end
      end
  end.

(** [x or y] for an optional integer [x]. *)
Definition or_int (x : option Z) (y : Z) : Z :=
  match x with
  | Some z => if z =? 0 then y else z
  | None => y
  end.

Definition import_yaqwsx_cache (c : conn) (src : source_db)
    (in_stock_only : bool) (incremental_since : option Z)
  : conn * (import_exn + import_result) :=
  let selected :=
    List.filter (row_selected (has_last_col src) in_stock_only incremental_since)
      (source_rows src) in
  let total := Z.of_nat (length selected) in
  match incremental_since with
  | Some since =>
      if total =? 0 then
        (c, inr {| imported := 0; total := 0;
                   max_last_update :=
                     Some (or_int (source_max_last_update src) since) |})
      else
        match import_body c src selected incremental_since with
        | (c', inl e) => (rollback (exec _create_component_indexes c'), inl e)
        | done => done
        end
  | None =>
      match import_body c src selected incremental_since with
      | (c', inl e) => (rollback (exec _create_component_indexes c'), inl e)
      | done => done
      end
  end.

End Importer.

End Parts.

(** ** Concrete inputs used by the examples below *)

Module Scenarios.
Import Planner.

(** A cache with one part, present on disk with 5 bytes, 10 bytes on the
    server, and no tag or timestamp anywhere. *)
Definition weak_disk : gmap string string := {[ "/cache/cache.z01" := "12345" ]}.
Definition weak_remote : gmap string remote_file :=
  {[ "cache.z01" := {| r_size := 10; r_etag := None; r_lastModified := None;
                       r_url := None |} ]}.

(** An entity tag made of two double quotes: a quoted, empty opaque tag. *)
Definition empty_quoted_tag : string :=
  String (ascii_of_nat 34) (String (ascii_of_nat 34) EmptyString).

Definition quoted_remote : gmap string remote_file :=
  {[ "cache.z01" := {| r_size := 10; r_etag := Some empty_quoted_tag;
                       r_lastModified := None; r_url := None |} ]}.
Definition quoted_previous : gmap string manifest_file :=
  {[ "cache.z01" := {| m_size := 5; m_etag := Some empty_quoted_tag;
                       m_lastModified := None |} ]}.

Definition tagged_remote : gmap string remote_file :=
  {[ "cache.z01" := {| r_size := 10; r_etag := Some "W/abc";
                       r_lastModified := None; r_url := None |} ]}.
Definition tagged_previous : gmap string manifest_file :=
  {[ "cache.z01" := {| m_size := 5; m_etag := Some "abc";
                       m_lastModified := None |} ]}.

(** A toy serialiser, a server that has [cache.z01] and [cache.zip] and
    fails on anything else, and two estimates. *)
Definition toy_dump (m : Download.manifest) : string :=
  "updatedAt=" +:+ pretty (Download.updatedAt m).
Definition toy_load (text : string) : option Download.manifest := None.

Definition toy_network (url : string) : option Download.response :=
  if String.eqb url "https://yaqwsx.github.io/jlcparts/data/cache.z01" then
    Some {| Download.status_ok := true;
            Download.body := [Download.Chunk "abc"; Download.Chunk "de"] |}
  else if String.eqb url "https://yaqwsx.github.io/jlcparts/data/cache.zip" then
    Some {| Download.status_ok := true; Download.body := [Download.Chunk "zip"] |}
  else None.

Definition two_parts_remote : gmap string remote_file :=
  {[ "cache.z01" := {| r_size := 5; r_etag := Some "v2"; r_lastModified := None;
                       r_url := None |};
     "cache.zip" := {| r_size := 3; r_etag := Some "v2"; r_lastModified := None;
                       r_url := None |} ]}.

Definition unchanged_estimate : Download.estimate :=
  {| Download.archiveParts := ["cache.z01"; "cache.zip"];
     Download.downloadSizeBytes := 1038090240;
     Download.changedArchiveParts := Some 0;
     Download.estimatedUpdateDownloadMB := 0;
     Download.estimatedDatabaseSizeMB := 17820;
     Download.reusedArchiveParts := Some 2;
     Download.e_createdAt := Some "2024-01-01" |}.

Definition changed_estimate : Download.estimate :=
  {| Download.archiveParts := ["cache.z01"; "cache.zip"];
     Download.downloadSizeBytes := 8;
     Download.changedArchiveParts := Some 2;
     Download.estimatedUpdateDownloadMB := 1;
     Download.estimatedDatabaseSizeMB := 17000;
     Download.reusedArchiveParts := Some 0;
     Download.e_createdAt := Some "2024-01-01" |}.

Definition old_manifest_disk : gmap string string :=
  {[ "/cache/cache_manifest.json" := "old manifest" ]}.

(** A cache directory that already holds both parts and the manifest. *)
Definition synced_disk : gmap string string :=
  {[ "/cache/cache_manifest.json" := "old manifest";
     "/cache/cache.z01" := "abcde"; "/cache/cache.zip" := "zip" ]}.

(** The catalog of the repository's test [test_jlcpcb_basic_first.py]: a
    fresh database into which three rows are inserted, in this order. *)
Definition test_row (key tier mfr text : string) : Parts.part :=
  {| Parts.lcsc := key; Parts.category := "Resistors";
     Parts.subcategory := "Chip Resistor"; Parts.mfr_part := mfr;
     Parts.package := "0603"; Parts.solder_joints := 2;
     Parts.manufacturer := "X"; Parts.library_type := tier;
     Parts.description := text; Parts.datasheet := ""; Parts.stock := 100;
     Parts.price_json := "[]"; Parts.last_updated := 1 |}.

Definition C_EXT : Parts.part := test_row "C_EXT" "Extended" "R-EXT" "ext".
Definition C_BAS : Parts.part := test_row "C_BAS" "Basic" "R-BASIC" "basic".
Definition C_PREF : Parts.part := test_row "C_PREF" "Preferred" "R-PREF" "pref".

(** The database [_init_database] leaves: no rows, the five indexes. *)
Definition fresh_snapshot : Parts.snapshot :=
  {| Parts.components := [];
     Parts.indexes := list_to_set Parts.component_index_names;
     Parts.fts := []; Parts.metadata := ∅; Parts.updated_lcsc := None |}.

Definition test_conn : Parts.conn :=
  {| Parts.committed :=
       Parts.set_components fresh_snapshot
         (fold_left Parts.upsert [C_EXT; C_BAS; C_PREF] []);
     Parts.in_tx := None |}.


(** A toy full-text engine: it rejects a query that opens a parenthesis and
    otherwise matches the descriptions that contain the query. *)
Definition toy_fts_parse (q : string) : option string :=
  if String.prefix "(" q then None else Some q.
Definition toy_fts_eval (q : string) (e : Parts.fts_entry) : bool :=
  Parts.like ("%" +:+ q +:+ "%") (Parts.fts_description e).

(** A catalog for the alternative ranking: a reference row and two rows the
    candidate query returns, with the price lists written as JSON text. *)
Definition quoted (s : string) : string :=
  String (ascii_of_nat 34) s +:+ String (ascii_of_nat 34) EmptyString.

Definition break_text (qty price : string) : string :=
  "{" +:+ quoted "qty" +:+ ": " +:+ qty +:+ ", " +:+ quoted "price" +:+ ": "
  +:+ price +:+ "}".

Definition two_breaks_text : string :=
  "[" +:+ break_text "1" "5" +:+ ", " +:+ break_text "100" "1" +:+ "]".
Definition one_break_text : string := "[" +:+ break_text "1" "2" +:+ "]".

Definition price_break (qty price : Z) : Parts.json :=
  Parts.JObj [("qty", Parts.JInt qty); ("price", Parts.JInt price)].

Definition toy_json_loads (text : string) : option Parts.json :=
  if String.eqb text two_breaks_text then
    Some (Parts.JArr [price_break 1 5; price_break 100 1])
  else if String.eqb text one_break_text then
    Some (Parts.JArr [price_break 1 2])
  else if String.eqb text "[]" then Some (Parts.JArr [])
  else None.

Definition toy_float (text : string) : option Parts.pyfloat := None.

(** A sort that leaves the rows where they are. *)
Definition toy_nan_sort (l : list Parts.part) : list Parts.part := l.

Definition alt_row (key cat sub pkg prices : string) : Parts.part :=
  {| Parts.lcsc := key; Parts.category := cat; Parts.subcategory := sub;
     Parts.mfr_part := "R"; Parts.package := pkg; Parts.solder_joints := 2;
     Parts.manufacturer := "X"; Parts.library_type := "Extended";
     Parts.description := ""; Parts.datasheet := ""; Parts.stock := 100;
     Parts.price_json := prices; Parts.last_updated := 1 |}.

Definition alt_ref : Parts.part :=
  alt_row "C1" "Chip Resistors" "Resistors" "0603" "[]".
Definition alt_array : Parts.part :=
  alt_row "C2" "Chip Resistors" "Arrays" "0603x4" two_breaks_text.
Definition alt_single : Parts.part :=
  alt_row "C3" "Chip Resistors" "Resistors" "0603" one_break_text.

Definition alt_conn : Parts.conn :=
  {| Parts.committed :=
       Parts.set_components fresh_snapshot
         (fold_left Parts.upsert [alt_ref; alt_array; alt_single] []);
     Parts.in_tx := None |}.

(** Source rows for the import examples. *)
Definition source_resistor (key : Z) (joints : Parts.sqlval) (last : Z)
  : Parts.source_row :=
  {| Parts.src_lcsc := Parts.SInt key;
     Parts.src_category := Some "Resistors";
     Parts.src_subcategory := Some "Chip Resistor";
     Parts.src_mfr := Some "R-NEW"; Parts.src_package := Some "0603";
     Parts.src_joints := joints; Parts.src_manufacturer := Some "X";
     Parts.src_basic := Parts.SInt 1; Parts.src_preferred := Parts.SInt 0;
     Parts.src_description := None; Parts.src_datasheet := None;
     Parts.src_stock := Parts.SInt 10; Parts.src_price := None;
     Parts.src_last_update := Some last |}.

(** A source whose only row was last updated at 50. *)
Definition stale_source : Parts.source_db :=
  {| Parts.has_last_col := true;
     Parts.source_rows := [source_resistor 7 (Parts.SInt 2) 50] |}.

(** A source with one row updated at 150 and one at 50. *)
Definition fresh_source : Parts.source_db :=
  {| Parts.has_last_col := true;
     Parts.source_rows := [source_resistor 7 (Parts.SInt 2) 150;
                           source_resistor 8 (Parts.SInt 2) 50] |}.


Definition no_fault (imported : Z) : option nat := None.

End Scenarios.

(** ** More of the parts store: metadata, statistics, footprints, tuning *)

Module Store.
Import PyStr Parts.

(** [get_metadata]: the value stored under a key, if any. *)
Definition get_metadata (c : conn) (key : string) : option string :=
  metadata (visible c) !! key.

(** [INSERT OR REPLACE INTO metadata(key, value) VALUES(?, ?)] *)
Definition put_metadata (key value : string) (s : snapshot) : snapshot :=
  {| components := components s; indexes := indexes s; fts := fts s;
     metadata := <[key := value]> (metadata s);
     updated_lcsc := updated_lcsc s |}.

(** [set_metadata]: the statement, then [self.conn.commit()]. *)
Definition set_metadata (c : conn) (key value : string) : conn :=
  commit (exec (put_metadata key value) c).

(** The counts of [get_database_stats] (its [db_path] entry is left out). *)
Record database_stats := {
  total_parts : Z;
  basic_parts : Z;
  extended_parts : Z;
  in_stock : Z;
}.

(** [SELECT COUNT] of the rows that satisfy a condition *)
Definition count_where (keep : part -> bool) (c : conn) : Z :=
  Z.of_nat (length (List.filter keep (map snd (components (visible c))))).

Definition get_database_stats (c : conn) : database_stats :=
  {| total_parts := count_where (fun _ => true) c;
     basic_parts := count_where (fun p => String.eqb (library_type p) "Basic") c;
     extended_parts :=
       count_where (fun p => String.eqb (library_type p) "Extended") c;
     in_stock := count_where (fun p => 0 <? stock p) c |}.

(** [has_parts]: [SELECT 1 FROM components LIMIT 1] finds a row. *)
Definition has_parts (c : conn) : bool :=
  match components (visible c) with [] => false | _ :: _ => true end.

(** [s.upper()], on ASCII letters. *)
Fixpoint py_upper (s : string) : string :=
  match s with
  | EmptyString => EmptyString
  | String c s' => String (upper c) (py_upper s')
  end.

(** [needle in haystack] for strings. *)
Fixpoint contains (needle haystack : string) : bool :=
  String.prefix needle haystack
  || match haystack with
     | EmptyString => false
     | String _ rest => contains needle rest
     end.

(** The [mappings] dict of [map_package_to_footprint], in its order. *)
Definition mappings : list (string * list string) :=
  [("0402", ["Resistor_SMD:R_0402_1005Metric";
             "Capacitor_SMD:C_0402_1005Metric";
             "LED_SMD:LED_0402_1005Metric"]);
   ("0603", ["Resistor_SMD:R_0603_1608Metric";
             "Capacitor_SMD:C_0603_1608Metric";
             "LED_SMD:LED_0603_1608Metric"]);
   ("0805", ["Resistor_SMD:R_0805_2012Metric";
             "Capacitor_SMD:C_0805_2012Metric"]);
   ("1206", ["Resistor_SMD:R_1206_3216Metric";
             "Capacitor_SMD:C_1206_3216Metric"]);
   ("SOT-23", ["Package_TO_SOT_SMD:SOT-23"; "Package_TO_SOT_SMD:SOT-23-3"]);
   ("SOT-23-5", ["Package_TO_SOT_SMD:SOT-23-5"]);
   ("SOT-23-6", ["Package_TO_SOT_SMD:SOT-23-6"]);
   ("SOIC-8", ["Package_SO:SOIC-8_3.9x4.9mm_P1.27mm"]);
   ("SOIC-16", ["Package_SO:SOIC-16_3.9x9.9mm_P1.27mm"]);
   ("QFN-20", ["Package_DFN_QFN:QFN-20-1EP_4x4mm_P0.5mm_EP2.5x2.5mm"]);
   ("QFN-32", ["Package_DFN_QFN:QFN-32-1EP_5x5mm_P0.5mm_EP3.45x3.45mm"])].

(** The [for key, footprints in mappings.items()] loop. *)
Fixpoint first_mapping (table : list (string * list string))
    (package_normalized : string) : list string :=
  match table with
  | [] => []
  | (key, footprints) :: rest =>
      if contains (py_upper key) package_normalized then footprints
      else first_mapping rest package_normalized
  end.

Definition map_package_to_footprint (package : string) : list string :=
  let package_normalized := py_upper (strip package) in
  first_mapping mappings package_normalized.

(** *** Hardware-adaptive tuning ([_detect_cpu_count], [_auto_import_tuning]) *)

Record tuning := {
  batchSize : Z;
  threads : Z;
  cacheSizeKb : Z;
  mmapSizeBytes : Z;
}.

Definition GiB : Z := 1024 * 1024 * 1024.

(** [max(1, int(os.cpu_count() or 1))] *)
Definition _detect_cpu_count (os_cpu_count : option Z) : Z :=
  Z.max 1 (or_int os_cpu_count 1).

Record tier := {
  full_batch : Z;
  inc_batch : Z;
  cache_kb : Z;
  mmap_bytes : Z;
  thread_cap : Z;
}.

(** The [if total_gb >= 32: ... elif ...] ladder.  [total_gb] is the byte
    count divided by 2^30 as a float, and the thresholds are whole numbers,
    so the comparisons are those of the byte count with the threshold
    times 2^30. *)
Definition memory_tier (total_memory : Z) : tier :=
  if 32 * GiB <=? total_memory then
    {| full_batch := 250000; inc_batch := 100000; cache_kb := -262144;
       mmap_bytes := 1024 * 1024 * 1024; thread_cap := 16 |}
  else if 16 * GiB <=? total_memory then
    {| full_batch := 150000; inc_batch := 75000; cache_kb := -131072;
       mmap_bytes := 512 * 1024 * 1024; thread_cap := 12 |}
  else if 8 * GiB <=? total_memory then
    {| full_batch := 100000; inc_batch := 50000; cache_kb := -65536;
       mmap_bytes := 256 * 1024 * 1024; thread_cap := 8 |}
  else
    {| full_batch := 50000; inc_batch := 25000; cache_kb := -32768;
       mmap_bytes := 128 * 1024 * 1024; thread_cap := 4 |}.

(** [int(os.getenv(name, str(auto)))]; [None] is [ValueError]. *)
Definition env_int (env : gmap string string) (name : string) (auto : Z)
  : option Z :=
  py_int (default (pretty auto) (env !! name)).

(** [_auto_import_tuning]; the detected CPU count and memory size and the
    process environment are arguments. *)
Definition _auto_import_tuning (os_cpu_count : option Z) (total_memory : Z)
    (env : gmap string string) (incremental_since : option Z) : option tuning :=
  let cpu_count := _detect_cpu_count os_cpu_count in
  let t := memory_tier total_memory in
  let auto_batch :=
    match incremental_since with Some _ => inc_batch t | None => full_batch t end in
  let auto_threads := Z.max 1 (Z.min cpu_count (thread_cap t)) in
  batch ← env_int env "JLCPCB_IMPORT_BATCH_SIZE" auto_batch;
  cpu ← env_int env "JLCPCB_IMPORT_THREADS" auto_threads;
  cache_size_kb ← env_int env "JLCPCB_IMPORT_CACHE_KB" (cache_kb t);
  mmap_size_bytes ← env_int env "JLCPCB_IMPORT_MMAP_BYTES" (mmap_bytes t);
  Some {| batchSize := Z.max 1000 batch; threads := Z.max 1 cpu;
          cacheSizeKb := cache_size_kb; mmapSizeBytes := mmap_size_bytes |}.

(** *** The import step of the public-snapshot sync
    ([KiCADInterface._handle_download_jlcpcb_database]) *)

Inductive step_exn :=
| BadWatermark (text : string)
| ImportFailed (e : import_exn).

Definition WATERMARK_KEY : string := "yaqwsx_last_update".

(** [int(last_imported) if last_imported else None]; the outer [None] is
    [ValueError]. *)
Definition read_watermark (c : conn) : option (option Z) :=
  match get_metadata c WATERMARK_KEY with
  | Some text => if truthy text then Some <$> py_int text else Some None
  | None => Some None
  end.

(** From [last_imported = get_metadata(...)] to the [set_metadata] that
    stores the new watermark. *)
Definition import_snapshot_step (now_ts : Z) (batch_size : nat)
    (write_fault : Z -> option nat) (c : conn) (src : source_db)
  : conn * (step_exn + import_result) :=
  match read_watermark c with
  | None =>
      (c, inl (BadWatermark (default "" (get_metadata c WATERMARK_KEY))))
  | Some incremental_since =>
      match import_yaqwsx_cache now_ts batch_size write_fault c src false
              incremental_since with
      | (c', inl e) => (c', inl (ImportFailed e))
      | (c', inr import_result) =>
          match max_last_update import_result with
          | Some max_last_update =>
              (set_metadata c' WATERMARK_KEY (pretty max_last_update),
               inr import_result)
          | None => (c', inr import_result)
          end
      end
  end.

End Store.

(** ** Opening the database ([JLCPCBPartsManager._init_database]) *)

Module Opening.
Import Parts.

(** [_init_database] on a database file: a new connection (temporary
    tables belong to the connection that made them), the
    [CREATE ... IF NOT EXISTS] statements, of which only those of the
    indexes can add something, the tables being part of every snapshot, and
    [commit]. *)
Definition _init_database (file : snapshot) : conn :=
  commit (exec _create_component_indexes
            {| committed := set_updated file None; in_tx := None |}).

(** A database file that was never written to. *)
Definition empty_file : snapshot :=
  {| components := []; indexes := ∅; fts := []; metadata := ∅;
     updated_lcsc := None |}.

End Opening.

(** ** Views of the state in which the properties below are stated *)

Module Views.
Import PyStr Planner Download Parts Store.

(** A row has the given key; the key of a stored row. *)
Definition has_key (k : string) (p : part) : bool := String.eqb (lcsc p) k.
Definition row_key (r : Z * part) : string := lcsc (snd r).

(** The three tiers the snapshot import writes. *)
Definition known_tier (p : part) : Prop :=
  library_type p = "Basic" \/ library_type p = "Extended"
  \/ library_type p = "Preferred".




(** The bytes the chunk loop has handed to [out.write] when it ends: the
    chunks up to the first event that raises, the chunk of a failing call
    among them. *)
Fixpoint handed_text (events : list stream_event) : string :=
  match events with
  | [] => ""
  | StreamFails _ :: _ | CloseFails _ :: _ => ""
  | Chunk data :: rest => data +:+ handed_text rest
  | ChunkNoSpace data _ :: rest | ChunkIOError data _ :: rest =>
      if truthy data then data else handed_text rest
  end.

(** A parser that reads back the text the toy serialiser makes of one
    manifest. *)
Definition echo_load (m : manifest) (text : string) : option manifest :=
  if String.eqb text (Scenarios.toy_dump m) then Some m else None.

(** A transfer of [cache.z01] in which the disk is full at the second
    chunk, two bytes of which reach the file. *)
Definition cut_body : list stream_event :=
  [Chunk "abc";
   ChunkNoSpace "defg" {| reached := 5; close_raises := false |}].
Definition cut_network (url : string) : option response :=
  if String.eqb url "https://yaqwsx.github.io/jlcparts/data/cache.z01" then
    Some {| status_ok := true; body := cut_body |}
  else None.

End Views.


(** ** Remote metadata and the update estimate
       ([JLCPCBClient._get_remote_archive_metadata], the end of
       [estimate_yaqwsx_update]) *)

Module Remote.
Import PyStr Planner Download Parts.

(** What [requests.head] gives for a URL: whether [raise_for_status]
    passes, and the three headers that are read. *)
Record head_response := {
  head_ok : bool;
  content_length : option string;
  etag : option string;
  last_modified : option string;
}.

Inductive head_exn :=
| HeadFailed (url : string)
| BadContentLength (text : string).

(** [int(response.headers.get("Content-Length", 0) or 0)]; [None] is
    [ValueError]. *)
Definition header_size (v : option string) : option Z :=
  match v with
  | Some text => if truthy text then py_int text else Some 0
  | None => Some 0
  end.

Section Server.
(** The server under [requests.head]; [None] when the call raises. *)
Variable head : string -> option head_response.

(** The [for filename in archive_parts] loop of
    [_get_remote_archive_metadata]. *)
Fixpoint metadata_loop (archive_parts : list string)
    (remote : gmap string remote_file) : head_exn + gmap string remote_file :=
  match archive_parts with
  | [] => inr remote
  | filename :: rest =>
      let url := YAQWSX_BASE_URL +:+ "/" +:+ filename in
      match head url with
      | None => inl (HeadFailed url)
      | Some response =>
          if negb (head_ok response) then inl (HeadFailed url)
          else
            match header_size (content_length response) with
            | None =>
                inl (BadContentLength (or_empty (content_length response)))
            | Some size =>
                metadata_loop rest
                  (<[filename := {| r_size := size; r_etag := etag response;
                                    r_lastModified := last_modified response;
                                    r_url := Some url |}]> remote)
            end
      end
  end.

Definition _get_remote_archive_metadata (archive_parts : list string)
  : head_exn + gmap string remote_file :=
  metadata_loop archive_parts ∅.

End Server.

(** The end of [estimate_yaqwsx_update] on the path that probes the
    server: the fields it sets on [base_estimate] from the plan. *)
Definition estimate_update_fields (base_estimate : estimate) (plan : plan)
  : estimate :=
  let update_bytes := totalDownloadBytes plan in
  let update_mb := mb_round1 update_bytes in
  {| archiveParts := archiveParts base_estimate;
     downloadSizeBytes := downloadSizeBytes base_estimate;
     changedArchiveParts := Some (Z.of_nat (length (partsToDownload plan)));
     estimatedUpdateDownloadMB := update_mb;
     estimatedDatabaseSizeMB := estimatedDatabaseSizeMB base_estimate;
     reusedArchiveParts := Some (Z.of_nat (length (reusedParts plan)));
     e_createdAt := e_createdAt base_estimate |}.

(** A server that answers every probe with a length of 5 and a tag. *)
Definition sized_head (url : string) : option head_response :=
  Some {| head_ok := true; content_length := Some "5"; etag := Some "v2";
          last_modified := None |}.

End Remote.

(** ** The whole download run ([JLCPCBClient.download_yaqwsx_cache]) *)

Module Run.
Import PyStr Planner Download Parts Store Remote.

(** What [subprocess.run] reports of the extractor: the files it has left,
    its return code, and its output, [stderr] included. *)
Record extraction := {
  files_after : gmap string string;
  returncode : Z;
  stdout : string;
}.

(** The exceptions of a run: those of the steps up to the call of the
    extractor, and those of the calls around them. *)
Inductive run_exn :=
| EstimateFailed
| ProbeFailed (e : head_exn)
| StepFailed (e : exn)
| SevenZipMissing
| BadThreadCount (text : string)
| ExtractorNotStarted
| NoSpaceWhileExtracting
| ExtractionFailed (output_tail : string)
| CacheDbMissing
| CountFailed.

(** The dict a run returns. *)
Record result := {
  cacheDbPath : string;
  fetched_parts : fetched;
  expectedTotalParts : option Z;
}.

Inductive run_outcome :=
| RunNoUpdate (remote_total reused : Z)
| RunRaised (e : run_exn)
| Done (r : result).

Definition lower (c : ascii) : ascii :=
  let n := nat_of_ascii c in
  if ((65 <=? n) && (n <=? 90))%nat then ascii_of_nat (n + 32) else c.

(** [s.lower()], on ASCII. *)
Fixpoint py_lower (s : string) : string :=
  match s with
  | EmptyString => EmptyString
  | String c s' => String (lower c) (py_lower s')
  end.

(** [s[-n:]] for a positive [n]. *)
Definition py_slice_last (n : nat) (s : string) : string :=
  drop (String.length s - n) s.

(** [max(1, int(os.cpu_count() or 1))] *)
Definition cpu_threads (cpu_count : option Z) : Z :=
  Z.max 1 (match cpu_count with
           | Some n => if n =? 0 then 1 else n
           | None => 1
           end).

(** [max(1, int(os.getenv("JLCPCB_EXTRACT_THREADS", str(cpu_count))))];
    [None] when [int] raises [ValueError]. *)
Definition extract_threads (env_threads : option string) (cpu_count : option Z)
  : option Z :=
  Z.max 1 <$> py_int (default (pretty (cpu_threads cpu_count)) env_threads).

Section Env.
(** The environment of the steps up to the call of the extractor. *)
Variable json_dump : manifest -> string.
Variable json_load : string -> option manifest.
Variable network : string -> option response.
Variable disk_free : string -> Z.
Variable now : Z.
(** The server under [requests.head]. *)
Variable head : string -> option head_response.
(** [self.estimate_yaqwsx_update(target_dir, include_remote_check=True)],
    which reads the cache directory and probes the server; [None] when it
    raises. *)
Variable estimate_yaqwsx_update :
  string -> gmap string string -> option estimate.
(** [shutil.which("7z")], [os.cpu_count()] and the environment variable
    [JLCPCB_EXTRACT_THREADS]. *)
Variable seven_zip : option string.
Variable cpu_count : option Z.
Variable env_threads : option string.
(** [subprocess.run([seven_zip, "x", "-y", f"-mmt={threads}", archive_path],
    cwd=directory, ...)], from the program, the thread count, the archive
    path, the directory and the files; [None] when the process cannot be
    started. *)
Variable run_7z :
  string -> Z -> string -> string -> gmap string string -> option extraction.
(** The row count SQLite reads from a database file: [None] when a
    statement raises, [Some None] when there is no count. *)
Variable count_rows : string -> option (option Z).

(** [_get_cache_total_parts] *)
Definition _get_cache_total_parts (disk : gmap string string)
    (cache_db_path : string) : option (option Z) :=
  match disk !! cache_db_path with
  | None => Some None
  | Some content => count_rows content
  end.

(** The end of the run, from the call of the extractor on. *)
Definition extract_and_count (target_dir : string) (r : fetched)
    (disk : gmap string string) : gmap string string * run_outcome :=
  let archive_path := path_join target_dir "cache.zip" in
  let extraction_target_dir := extractionDir r in
  match seven_zip with
  | None => (disk, RunRaised SevenZipMissing)
  | Some program =>
      if negb (truthy program) then (disk, RunRaised SevenZipMissing)
      else
        match extract_threads env_threads cpu_count with
        | None =>
            (disk,
             RunRaised (BadThreadCount
                          (default (pretty (cpu_threads cpu_count)) env_threads)))
        | Some threads =>
            match run_7z program threads archive_path extraction_target_dir
                    disk with
            | None => (disk, RunRaised ExtractorNotStarted)
            | Some extract =>
                let disk' := files_after extract in
                if negb (returncode extract =? 0) then
                  let output_lower := py_lower (stdout extract) in
                  if contains "no space left" output_lower
                     || contains "disk full" output_lower
                  then (disk', RunRaised NoSpaceWhileExtracting)
                  else
                    (disk',
                     RunRaised (ExtractionFailed
                                  (py_slice_last 800 (stdout extract))))
                else
                  let cache_db_path :=
                    path_join extraction_target_dir "cache.sqlite3" in
                  if negb (path_exists disk' cache_db_path) then
                    (disk', RunRaised CacheDbMissing)
                  else
                    match _get_cache_total_parts disk' cache_db_path with
                    | None => (disk', RunRaised CountFailed)
                    | Some expected_total_parts =>
                        (disk',
                         Done {| cacheDbPath := cache_db_path;
                                 fetched_parts := r;
                                 expectedTotalParts := expected_total_parts |})
                    end
            end
        end
  end.

(** [download_yaqwsx_cache], whole: the estimate; the no-update guard;
    the probe of the remote metadata; the steps of
    [Download.download_yaqwsx_cache], which start again from the guard, with
    the estimate and the probed metadata; and the extraction. *)
Definition download_yaqwsx_cache (target_dir : string)
    (extract_dir : option string) (disk : gmap string string)
  : gmap string string * run_outcome :=
  match estimate_yaqwsx_update target_dir disk with
  | None => (disk, RunRaised EstimateFailed)
  | Some estimate =>
      let archive_parts := archiveParts estimate in
      if no_update estimate then
        (disk,
         RunNoUpdate (downloadSizeBytes estimate)
           (default (Z.of_nat (length archive_parts))
              (reusedArchiveParts estimate)))
      else
        match _get_remote_archive_metadata head archive_parts with
        | inl e => (disk, RunRaised (ProbeFailed e))
        | inr remote_meta =>
            match Download.download_yaqwsx_cache json_dump json_load network
                    disk_free now target_dir extract_dir estimate remote_meta
                    disk with
            | (disk1, NoUpdate remote_total reused) =>
                (disk1, RunNoUpdate remote_total reused)
            | (disk1, Raised e) => (disk1, RunRaised (StepFailed e))
            | (disk1, ReadyToExtract r) => extract_and_count target_dir r disk1
            end
        end
  end.

End Env.

(** An estimate that reports two changed parts whatever the directory
    holds, one that reports none, and a server that answers no probe. *)
Definition changed_update (target_dir : string) (disk : gmap string string)
  : option estimate := Some Scenarios.changed_estimate.
Definition unchanged_update (target_dir : string) (disk : gmap string string)
  : option estimate := Some Scenarios.unchanged_estimate.
Definition silent_head (url : string) : option head_response := None.

(** An extractor that writes [cache.sqlite3] into the directory, and a
    database reader that counts its bytes. *)
Definition toy_7z (program : string) (threads : Z) (archive_path cwd : string)
    (disk : gmap string string) : option extraction :=
  Some {| files_after := <[path_join cwd "cache.sqlite3" := "rows"]> disk;
          returncode := 0; stdout := "Everything is Ok" |}.
Definition toy_count (content : string) : option (option Z) :=
  Some (Some (Z.of_nat (String.length content))).

End Run.

(** ** The official API: paging through the parts library
       ([JLCPCBClient.fetch_parts_page], [download_full_database]) and the
       tier of a part of its responses
       ([JLCPCBPartsManager._determine_library_type]) *)

Module Api.
Import PyStr Signing Parts Store.

(** [_determine_library_type], from the [assemblyType] text (the empty
    text when the key is missing) and the [libraryType] entry. *)
Definition _determine_library_type (assembly_type : string)
    (library_type : option string) : string :=
  if contains "Basic" assembly_type
     || match library_type with
        | Some t => String.eqb t "base"
        | None => false
        end
  then "Basic"
  else if contains "Extended" assembly_type then "Extended"
  else if contains "Prefer" assembly_type then "Preferred"
  else "Extended".

Section Client.
(** A part of a response, as the dict the server sent. *)
Variable component : Type.

(** The [data] object of a response: its [componentInfos], when the key
    is there (it is then taken to be a list), and its [lastKey], when the
    key is there and not null (it is then taken to be a string). *)
Record page := {
  componentInfos : option (list component);
  lastKey : option string;
}.

Inductive reply_data := DataAbsent | DataNull | DataPage (p : page).

(** What a POST gives: the call or [raise_for_status] raises, the body is
    not JSON, or the body is an object with these entries. *)
Inductive api_reply :=
| TransportFailure
| BodyNotJson
| Reply (code : option Z) (data : reply_data).

Record request := {
  authorization : string;
  payload_lastKey : option string;
}.

Inductive api_exn :=
| CredentialsMissing
| RequestError
| BadBody
| ApiError (code : option Z)
| NoData
| BadPage.

(** The server (it may answer differently each time: its first argument
    is the number of requests made before), the nonce and the clock at each
    call, and [json.dumps(payload, separators=(",", ":"))]. *)
Variable server : nat -> request -> api_reply.
Variable nonce_at : nat -> string.
Variable time_at : nat -> Z.
Variable dumps : option string -> string.

(** [fetch_parts_page]; [calls] counts the requests made.  The result is
    the [data] entry of the response, which may be [None]. *)
Definition fetch_parts_page (self : client) (calls : nat)
    (last_key : option string) : nat * (api_exn + option page) :=
  let path := "/component/getComponentInfos" in
  let payload := given last_key in
  let body_str := dumps payload in
  match _get_auth_header self (nonce_at calls) (time_at calls) "POST" path
          body_str with
  | inl _ => (calls, inl CredentialsMissing)
  | inr auth_header =>
      let calls' := S calls in
      match server calls {| authorization := auth_header;
                            payload_lastKey := payload |} with
      | TransportFailure => (calls', inl RequestError)
      | BodyNotJson => (calls', inl BadBody)
      | Reply code data =>
          if negb (bool_decide (code = Some 200)) then
            (calls', inl (ApiError code))
          else
            match data with
            | DataAbsent => (calls', inl NoData)
            | DataNull => (calls', inr None)
            | DataPage p => (calls', inr (Some p))
            end
      end
  end.

(** The [except Exception] handler of the loop. *)
Definition on_error (calls : nat) (e : api_exn) (all_parts : list component)
  : nat * (api_exn + list component) :=
  if (0 <? length all_parts)%nat then (calls, inr all_parts)
  else (calls, inl e).

(** The [while True] loop of [download_full_database], with the progress
    callback left out; [None] when [fuel] iterations do not end it. *)
Fixpoint download_loop (self : client) (fuel : nat) (calls : nat)
    (all_parts : list component) (last_key : option string)
  : option (nat * (api_exn + list component)) :=
  match fuel with
  | O => None
  | S fuel' =>
      match fetch_parts_page self calls last_key with
      | (calls', inl e) => Some (on_error calls' e all_parts)
      | (calls', inr None) => Some (on_error calls' BadPage all_parts)
      | (calls', inr (Some data)) =>
          let parts := default [] (componentInfos data) in
          let all_parts := all_parts ++ parts in
          let last_key := lastKey data in
          if negb (match given last_key with Some _ => true | None => false end)
             || (length parts =? 0)%nat
          then Some (calls', inr all_parts)
          else download_loop self fuel' calls' all_parts last_key
      end
  end.

Definition download_full_database (self : client) (fuel : nat)
  : option (nat * (api_exn + list component)) :=
  download_loop self fuel 0%nat [] None.

End Client.

Arguments componentInfos {component} _.
Arguments lastKey {component} _.
Arguments Build_page {component} _ _.
Arguments DataAbsent {component}.
Arguments DataNull {component}.
Arguments DataPage {component} _.
Arguments TransportFailure {component}.
Arguments BodyNotJson {component}.
Arguments Reply {component} _ _.

(** A client with its three credentials, and a server that always has one
    more page. *)
Definition keyed_client : client :=
  {| app_id := Some "app"; access_key := Some "key"; secret_key := Some "secret" |}.
Definition endless_server (calls : nat) (req : request) : api_reply nat :=
  Reply (Some 200)
    (DataPage {| componentInfos := Some [calls]; lastKey := Some "next" |}).
(** A server whose second answer is an error. *)
Definition one_page_server (calls : nat) (req : request) : api_reply nat :=
  match calls with
  | O => endless_server calls req
  | S _ => TransportFailure
  end.

End Api.

(** * Properties *)

(** ** The helpers on sample values *)

Module ModelChecks.
Import PyStr.

Example normalize_weak_quoted_etag :
  Planner._normalize_etag
    (Some (" W/" +:+ Scenarios.quoted "abc" +:+ " ")) = "abc".
Proof. reflexivity. Qed.

Example path_join_samples :
  map (fun ab => path_join ab.1 ab.2)
    [("/cache", "cache.zip"); ("/cache/", "x"); ("/cache", "/abs"); ("", "x")]
  = ["/cache/cache.zip"; "/cache/x"; "/abs"; "x"].
Proof. reflexivity. Qed.

Example mb_round1_samples :
  map Download.mb_round1 [262144; 786432; 1572864; 8] = [2; 8; 15; 0]
  /\ Download.mb_to_bytes 17000 = 1782579200.
Proof. split; reflexivity. Qed.

Example like_samples :
  map (fun ps => Parts.like ps.1 ps.2)
    [("%res%", "Chip Resistors"); ("_603", "0603"); ("%0603%", "0402");
     ("0603", "0603x4"); ("%", "")]
  = [true; true; false; false; true].
Proof. reflexivity. Qed.

Example py_int_samples :
  map Parts.py_int [" -12 "; "1_000"; "two"; ""; "1__0"]
  = [Some (-12); Some 1000; None; None; None].
Proof. reflexivity. Qed.

Example float_of_int_samples :
  map Parts.float_of_int
    [5; 2 ^ 53 + 1; 2 ^ 53 + 3; - (2 ^ 53 + 1); 10 ^ 23;
     2 ^ 1024 - 2 ^ 970 - 1; 2 ^ 1024 - 2 ^ 970]
  = [Some (Parts.Finite (inject_Z 5));
     Some (Parts.Finite (inject_Z (2 ^ 53)));
     Some (Parts.Finite (inject_Z (2 ^ 53 + 4)));
     Some (Parts.Finite (inject_Z (- 2 ^ 53)));
     Some (Parts.Finite (inject_Z 99999999999999991611392));
     Some (Parts.Finite (inject_Z ((2 ^ 53 - 1) * 2 ^ 971)));
     None].
Proof. vm_compute. reflexivity. Qed.

Example float_comparison_samples :
  map (fun ab => (Parts.float_lt ab.1 ab.2, Parts.float_eq ab.1 ab.2))
    [(Parts.Finite (1 # 2), Parts.Finite (2 # 4));
     (Parts.Finite (inject_Z 1), Parts.PosInf);
     (Parts.NegInf, Parts.Finite (inject_Z 1));
     (Parts.NaN, Parts.Finite (inject_Z 1));
     (Parts.Finite (inject_Z 1), Parts.NaN);
     (Parts.PosInf, Parts.PosInf)]
  = [(false, true); (true, false); (true, false); (false, false);
     (false, false); (false, true)].
Proof. reflexivity. Qed.

Example extract_threads_samples :
  map (fun ec => Run.extract_threads ec.1 ec.2)
    [(None, Some 8); (None, None); (Some "0", Some 8); (Some " 3 ", None);
     (Some "many", Some 8)]
  = [Some 8; Some 1; Some 1; Some 3; None].
Proof. vm_compute. reflexivity. Qed.

Example convert_lcsc_samples :
  map Parts.convert_lcsc [Parts.SInt 25804; Parts.SText "007"; Parts.SText "C12"]
  = ["C25804"; "C7"; "C12"].
Proof. vm_compute. reflexivity. Qed.

End ModelChecks.

(** ** Strings *)

Module PyStrFacts.
Import PyStr.

Lemma length_append (s t : string) :
  String.length (s +:+ t) = (String.length s + String.length t)%nat.
Proof. induction s as [|c s IH]; simpl; [reflexivity | now f_equal]. Qed.

Lemma append_inv_tail (a b s : string) : a +:+ s = b +:+ s -> a = b.
Proof.
  revert b. induction a as [|c a IH]; intros [|d b] H.
  - reflexivity.
  - apply (f_equal String.length) in H.
    rewrite !length_append in H. simpl in H. lia.
  - apply (f_equal String.length) in H.
    rewrite !length_append in H. simpl in H. lia.
  - change (String c (a +:+ s) = String d (b +:+ s)) in H.
    injection H as -> H. f_equal. now apply IH.
Qed.

Lemma append_inv_head (s a b : string) : s +:+ a = s +:+ b -> a = b.
Proof. apply (inj (String.append s)). Qed.

Lemma truthy_false (s : string) : truthy s = false <-> s = "".
Proof. destruct s; cbn; split; congruence. Qed.

Lemma truthy_true (s : string) : truthy s = true <-> s <> "".
Proof. destruct s; cbn; split; congruence. Qed.

Lemma append_assoc (a b c : string) : (a +:+ b) +:+ c = a +:+ b +:+ c.
Proof.
  induction a as [|x a IH]; [reflexivity|].
  change (String x ((a +:+ b) +:+ c) = String x (a +:+ b +:+ c)). now f_equal.
Qed.

Lemma prefix_append (p s : string) :
  String.prefix p s = true -> exists rest, s = p +:+ rest.
Proof.
  revert s. induction p as [|a p IH]; intros s H; [now exists s|].
  destruct s as [|b s]; [discriminate|]. cbn in H.
  destruct (ascii_dec a b) as [<-|]; [|discriminate].
  destruct (IH s H) as [rest ->]. now exists rest.
Qed.

Lemma prefix_of_append (p rest : string) : String.prefix p (p +:+ rest) = true.
Proof.
  induction p as [|a p IH]; [now destruct rest|].
  change (String.prefix (String a p) (String a (p +:+ rest)) = true).
  cbn [String.prefix]. now destruct (ascii_dec a a).
Qed.

(** Joining a directory with a relative name puts the same text in front of
    the name, whatever the name. *)
Lemma path_join_relative (dir : string) :
  exists front, forall name,
    startswith "/" name = false -> path_join dir name = front +:+ name.
Proof.
  unfold path_join.
  destruct (negb (truthy dir) || String.prefix "/" _).
  - exists dir. now intros name ->.
  - exists (dir +:+ "/"). intros name ->. now rewrite append_assoc.
Qed.

End PyStrFacts.

(** ** The planner *)

Module PlannerFacts.
Import PyStr PyStrFacts Planner Scenarios.

Section Loop.
Variables (target_dir : string) (disk : gmap string string).
Variables (remote_meta : gmap string remote_file).
Variables (previous_files : gmap string manifest_file).

Let redownload := decide_part target_dir disk remote_meta previous_files.
Let step := plan_step target_dir disk remote_meta previous_files.

(** The loop only appends: its result is the accumulator extended by the
    two halves of the partition of the part list. *)
Lemma fold_plan_step (parts : list string) (acc : plan) :
  let p := fold_left step parts acc in
  partsToDownload p = partsToDownload acc ++ List.filter redownload parts
  /\ reusedParts p
     = reusedParts acc ++ List.filter (fun f => negb (redownload f)) parts
  /\ totalDownloadBytes p
     = totalDownloadBytes acc
       + remote_bytes remote_meta (List.filter redownload parts).
Proof.
  revert acc. induction parts as [|f parts IH]; intros acc; cbn [fold_left List.filter].
  - cbn. rewrite !app_nil_r. repeat split; lia.
  - specialize (IH (step acc f)). cbv zeta in IH.
    destruct IH as (Hd & Hr & Ht). rewrite Hd, Hr, Ht.
    unfold step, plan_step. fold redownload.
    destruct (redownload f); cbn [partsToDownload reusedParts totalDownloadBytes negb];
      rewrite <- ?app_assoc; cbn [app]; repeat split.
    unfold remote_bytes. cbn [map fold_right]. lia.
Qed.

Lemma plan_partition (parts : list string) :
  let p := _plan_incremental_download target_dir disk parts remote_meta
             previous_files in
  partsToDownload p = List.filter redownload parts
  /\ reusedParts p = List.filter (fun f => negb (redownload f)) parts
  /\ totalDownloadBytes p = remote_bytes remote_meta (partsToDownload p).
Proof.
  cbv zeta. unfold _plan_incremental_download.
  destruct (fold_plan_step parts empty_plan) as (Hd & Hr & Ht).
  fold step. rewrite Hd, Hr, Ht. cbn. repeat split.
Qed.

Lemma reused_iff (parts : list string) (f : string) :
  In f (reusedParts (_plan_incremental_download target_dir disk parts
                       remote_meta previous_files))
  <-> In f parts /\ redownload f = false.
Proof.
  destruct (plan_partition parts) as (_ & -> & _).
  rewrite filter_In, negb_true_iff. reflexivity.
Qed.

Lemma download_iff (parts : list string) (f : string) :
  In f (partsToDownload (_plan_incremental_download target_dir disk parts
                           remote_meta previous_files))
  <-> In f parts /\ redownload f = true.
Proof.
  destruct (plan_partition parts) as (-> & _ & _).
  rewrite filter_In. reflexivity.
Qed.

End Loop.

(** C2, as stated, fails: with the local file present, no change-tag and no
    last-modified on either side, and unequal sizes, the planner schedules
    the part for download and does not reuse it. *)
Lemma C2_counterexample :
  let s := signals_of "/cache" weak_disk weak_remote ∅ "cache.z01" in
  let p := _plan_incremental_download "/cache" weak_disk ["cache.z01"]
             weak_remote ∅ in
  local_exists s = true
  /\ prev_etag s = "" /\ remote_etag s = ""
  /\ prev_last_modified s = "" /\ remote_last_modified s = ""
  /\ getsize weak_disk (path_join "/cache" "cache.z01")
     <> r_size (lookup_remote weak_remote "cache.z01")
  /\ partsToDownload p = ["cache.z01"]
  /\ reusedParts p = [].
Proof. vm_compute. repeat split; congruence. Qed.

(** C2 (amended): a part whose local file exists, with no change-tag and no
    last-modified available on either side, is scheduled for download and
    not reused when its local size differs from the remote size; it is reused
    by default only when the two sizes are equal. *)
Theorem C2_weak_signal_unequal_size_downloads
    (target_dir : string) (disk : gmap string string)
    (archive_parts : list string) (remote_meta : gmap string remote_file)
    (previous_files : gmap string manifest_file) (f : string) :
  let s := signals_of target_dir disk remote_meta previous_files f in
  let p := _plan_incremental_download target_dir disk archive_parts
             remote_meta previous_files in
  let local_size := getsize disk (path_join target_dir f) in
  let remote_size := r_size (lookup_remote remote_meta f) in
  In f archive_parts ->
  local_exists s = true ->
  prev_etag s = "" -> remote_etag s = "" ->
  prev_last_modified s = "" -> remote_last_modified s = "" ->
  (local_size <> remote_size ->
   In f (partsToDownload p) /\ ~ In f (reusedParts p))
  /\ (local_size = remote_size ->
      In f (reusedParts p) /\ ~ In f (partsToDownload p)).
Proof.
  cbv zeta. intros Hin Hex Hpe Hre Hpl Hrl.
  assert (Hd : decide_part target_dir disk remote_meta previous_files f
               = negb (getsize disk (path_join target_dir f)
                       =? r_size (lookup_remote remote_meta f))).
  { unfold decide_part, should_redownload.
    fold (signals_of target_dir disk remote_meta previous_files f).
    rewrite Hex. cbn [negb].
    assert (Hse : same_etag (signals_of target_dir disk remote_meta
                               previous_files f) = false).
    { unfold signals_of, signals in *. cbn in *. rewrite Hpe. reflexivity. }
    assert (Hsl : same_last_modified (signals_of target_dir disk remote_meta
                                        previous_files f) = false).
    { unfold signals_of, signals in *. cbn in *. rewrite Hpl. reflexivity. }
    assert (Hss : same_size (signals_of target_dir disk remote_meta
                               previous_files f)
                  = (getsize disk (path_join target_dir f)
                     =? r_size (lookup_remote remote_meta f))).
    { unfold signals_of, signals in *. cbn in *. rewrite Hex. reflexivity. }
    rewrite Hse, Hsl, Hss, Hre, Hrl. cbn [orb andb truthy].
    now destruct (_ =? _). }
  split; intros Hsize.
  - apply Z.eqb_neq in Hsize. rewrite Hsize in Hd. cbn [negb] in Hd. split.
    + apply download_iff. auto.
    + rewrite reused_iff. intros [_ H]. congruence.
  - apply Z.eqb_eq in Hsize. rewrite Hsize in Hd. cbn [negb] in Hd. split.
    + apply reused_iff. auto.
    + rewrite download_iff. intros [_ H]. congruence.
Qed.

Lemma C2_weak_signal_unequal_size_downloads_witness :
  In "cache.z01" (partsToDownload
       (_plan_incremental_download "/cache" weak_disk ["cache.z01"] weak_remote ∅))
  /\ ~ In "cache.z01" (reusedParts
       (_plan_incremental_download "/cache" weak_disk ["cache.z01"] weak_remote ∅)).
Proof.
  apply (C2_weak_signal_unequal_size_downloads "/cache" weak_disk ["cache.z01"]
           weak_remote ∅ "cache.z01").
  - left. reflexivity.
  - reflexivity.
  - reflexivity.
  - reflexivity.
  - reflexivity.
  - reflexivity.
  - vm_compute. congruence.
Defined.

(** C3, as stated, fails: the manifest records the same change-tag the server
    reports, the local file exists, and yet the part is scheduled for
    download, because the tag is empty once its quotes are removed and the
    sizes differ. *)
Lemma C3_counterexample :
  let p := _plan_incremental_download "/cache" weak_disk ["cache.z01"]
             quoted_remote quoted_previous in
  path_exists weak_disk (path_join "/cache" "cache.z01") = true
  /\ (exists tag,
        m_etag (lookup_previous quoted_previous "cache.z01") = Some tag
        /\ r_etag (lookup_remote quoted_remote "cache.z01") = Some tag)
  /\ partsToDownload p = ["cache.z01"]
  /\ reusedParts p = [].
Proof.
  vm_compute. repeat split. eexists. split; reflexivity.
Qed.

(** C3 (amended): a part whose local file exists and whose normalised
    change-tag is non-empty and equal on the manifest and the remote side, or
    whose stripped last-modified is non-empty and equal on both sides, is in
    [reusedParts] and not in [partsToDownload]; and for every planner output
    [totalDownloadBytes] is the sum of the remote sizes of the parts in
    [partsToDownload]. *)
Theorem C3_same_tag_reused_and_total_is_planned_sum
    (target_dir : string) (disk : gmap string string)
    (archive_parts : list string) (remote_meta : gmap string remote_file)
    (previous_files : gmap string manifest_file) :
  let p := _plan_incremental_download target_dir disk archive_parts
             remote_meta previous_files in
  (forall f : string,
      let s := signals_of target_dir disk remote_meta previous_files f in
      In f archive_parts ->
      local_exists s = true ->
      (prev_etag s <> "" /\ prev_etag s = remote_etag s)
      \/ (prev_last_modified s <> ""
          /\ prev_last_modified s = remote_last_modified s) ->
      In f (reusedParts p) /\ ~ In f (partsToDownload p))
  /\ totalDownloadBytes p = remote_bytes remote_meta (partsToDownload p).
Proof.
  cbv zeta. split.
  - intros f Hin Hex Hsame.
    assert (Hd : decide_part target_dir disk remote_meta previous_files f = false).
    { unfold decide_part, should_redownload.
      fold (signals_of target_dir disk remote_meta previous_files f).
      rewrite Hex. cbn [negb].
      enough (same_etag (signals_of target_dir disk remote_meta previous_files f)
              || same_last_modified
                   (signals_of target_dir disk remote_meta previous_files f)
              = true) as -> by reflexivity.
      apply orb_true_iff.
      destruct Hsame as [[Hne Heq] | [Hne Heq]]; [left | right];
        unfold signals_of, signals in *; cbn in *;
        rewrite <- Heq; rewrite String.eqb_refl;
        apply truthy_true in Hne; rewrite Hne; reflexivity. }
    split.
    + apply reused_iff. auto.
    + rewrite download_iff. intros [_ H]. congruence.
  - apply plan_partition.
Qed.

Lemma C3_same_tag_reused_and_total_is_planned_sum_witness :
  let p := _plan_incremental_download "/cache" weak_disk ["cache.z01"]
             tagged_remote tagged_previous in
  (In "cache.z01" (reusedParts p) /\ ~ In "cache.z01" (partsToDownload p))
  /\ totalDownloadBytes p = remote_bytes tagged_remote (partsToDownload p).
Proof.
  cbv zeta.
  pose proof (C3_same_tag_reused_and_total_is_planned_sum "/cache" weak_disk
                ["cache.z01"] tagged_remote tagged_previous) as [Hreuse Htotal].
  split; [| exact Htotal].
  apply (Hreuse "cache.z01").
  - left. reflexivity.
  - reflexivity.
  - left. split; [vm_compute; congruence | reflexivity].
Defined.

End PlannerFacts.

(** ** The download executor and the manifest store *)

Module DownloadFacts.
Import PyStr PyStrFacts Planner Download.

Lemma tmp_path_fresh (path : string) : path +:+ ".tmp" <> path.
Proof.
  intros H. apply (f_equal String.length) in H.
  rewrite length_append in H. cbn in H. lia.
Qed.

(** An archive part is never stored at the manifest's path. *)
Lemma part_path_not_manifest (target_dir f : string) :
  is_part_name f = true ->
  path_join target_dir f <> path_join target_dir "cache_manifest.json".
Proof.
  intros Hname. apply prefix_append in Hname. destruct Hname as [rest ->].
  destruct (path_join_relative target_dir) as [front Hfront].
  rewrite !Hfront by reflexivity. intros H.
  apply append_inv_head in H. discriminate.
Qed.

Lemma part_name_is_part_name (idx : Z) : is_part_name (part_name idx) = true.
Proof. apply prefix_of_append. Qed.

Lemma discover_loop_names (probe : string -> bool) (indices : list Z) :
  forall parts misses,
    Forall (fun f => is_part_name f = true) parts ->
    Forall (fun f => is_part_name f = true)
      (discover_loop probe indices parts misses).
Proof.
  induction indices as [|idx rest IH]; intros parts misses Hparts; [exact Hparts|].
  cbn [discover_loop].
  assert (Forall (fun f => is_part_name f = true)
            (if probe (YAQWSX_BASE_URL +:+ "/" +:+ part_name idx)
             then parts ++ [part_name idx] else parts)) as Hnext.
  { destruct (probe _); [|exact Hparts].
    apply Forall_app. split; [exact Hparts|].
    constructor; [apply part_name_is_part_name | constructor]. }
  destruct (_ && _); [exact Hnext | now apply IH].
Qed.

(** Whatever the server answers, the discovered parts bear part names. *)
Lemma discovered_names (probe : string -> bool) :
  Forall (fun f => is_part_name f = true) (_discover_yaqwsx_archive_parts probe).
Proof.
  unfold _discover_yaqwsx_archive_parts. apply Forall_app. split.
  - apply discover_loop_names. constructor.
  - constructor; [reflexivity | constructor].
Qed.

Section Env.
Variable json_dump : manifest -> string.
Variable json_load : string -> option manifest.
Variable network : string -> option response.
Variable disk_free : string -> Z.
Variable now : Z.

Lemma write_stream_other (path : string) (events : list stream_event)
    (disk : gmap string string) (n : Z) (p : string) :
  p <> path -> (write_stream path events disk n).1 !! p = disk !! p.
Proof.
  intros Hne. revert disk n.
  induction events as [|e events IH]; intros disk n; [reflexivity|].
  destruct e as [d|d u|d u|u|k]; cbn [write_stream]; try destruct (truthy d);
    unfold leave; cbn [negb fst]; rewrite ?IH; try reflexivity;
    cbn [apply_op]; now rewrite lookup_insert_ne.
Qed.

Lemma write_stream_result (path : string) (events : list stream_event)
    (disk : gmap string string) (n : Z) :
  if events_ok events
  then exists m, (write_stream path events disk n).2 = inr m
  else exists e, (write_stream path events disk n).2 = inl e.
Proof.
  revert disk n.
  induction events as [|e events IH]; intros disk n; [cbn; eauto|].
  destruct e as [d|d u|d u|u|k]; cbn [write_stream events_ok forallb];
    try destruct (truthy d); unfold leave; cbn [negb andb snd]; eauto;
    apply IH.
Qed.

Lemma fetch_part_other (target_dir : string)
    (remote_meta : gmap string remote_file) (f : string)
    (disk : gmap string string) (n : Z) (p : string) :
  p <> path_join target_dir f ->
  (fetch_part network target_dir remote_meta f disk n).1 !! p = disk !! p.
Proof.
  intros Hne. unfold fetch_part.
  destruct (network _) as [resp|]; [|reflexivity].
  destruct (status_ok resp); cbn [negb]; [|reflexivity].
  rewrite write_stream_other by exact Hne.
  cbn [apply_op]. now rewrite lookup_insert_ne.
Qed.

Lemma fetch_part_result (target_dir : string)
    (remote_meta : gmap string remote_file) (f : string)
    (disk : gmap string string) (n : Z) :
  if part_ok network remote_meta f
  then exists m, (fetch_part network target_dir remote_meta f disk n).2 = inr m
  else exists e, (fetch_part network target_dir remote_meta f disk n).2 = inl e.
Proof.
  unfold part_ok, fetch_part.
  destruct (network _) as [resp|]; [|cbn; eauto].
  destruct (status_ok resp); cbn [negb andb]; [|cbn; eauto].
  apply write_stream_result.
Qed.

Lemma fetch_parts_other (target_dir : string)
    (remote_meta : gmap string remote_file) (parts : list string)
    (disk : gmap string string) (n : Z) (p : string) :
  (forall f, In f parts -> p <> path_join target_dir f) ->
  (fetch_parts network target_dir remote_meta parts disk n).1 !! p = disk !! p.
Proof.
  revert disk n. induction parts as [|f parts IH]; intros disk n Hp; [reflexivity|].
  cbn [fetch_parts].
  pose proof (fetch_part_other target_dir remote_meta f disk n p
                (Hp f (or_introl eq_refl))) as Hf.
  destruct (fetch_part network target_dir remote_meta f disk n) as [d [e|m]];
    cbn [fst] in *; [exact Hf|].
  rewrite IH; [exact Hf|]. intros g Hg. apply Hp. now right.
Qed.

Lemma fetch_parts_result (target_dir : string)
    (remote_meta : gmap string remote_file) (parts : list string)
    (disk : gmap string string) (n : Z) :
  if forallb (part_ok network remote_meta) parts
  then exists m, (fetch_parts network target_dir remote_meta parts disk n).2 = inr m
  else exists e, (fetch_parts network target_dir remote_meta parts disk n).2 = inl e.
Proof.
  revert disk n. induction parts as [|f parts IH]; intros disk n; [cbn; eauto|].
  cbn [fetch_parts forallb].
  pose proof (fetch_part_result target_dir remote_meta f disk n) as Hf.
  destruct (part_ok network remote_meta f); cbn [andb];
    destruct (fetch_part network target_dir remote_meta f disk n) as [d [e|m]];
    cbn [snd] in *; destruct Hf as [x Hx]; try discriminate; eauto.
  apply IH.
Qed.

Lemma save_manifest_lookup (path : string) (data : manifest)
    (disk : gmap string string) :
  _save_manifest json_dump path data disk !! path = Some (json_dump data).
Proof.
  unfold _save_manifest, _save_manifest_ops, run_ops. cbn [fold_left apply_op].
  rewrite !lookup_insert_eq. reflexivity.
Qed.

Lemma final_files_lookup (remote_meta : gmap string remote_file)
    (archive_parts : list string) (name : string) :
  final_files remote_meta archive_parts !! name
  = if bool_decide (name ∈ archive_parts)
    then Some {| m_size := r_size (lookup_remote remote_meta name);
                 m_etag := r_etag (lookup_remote remote_meta name);
                 m_lastModified := r_lastModified (lookup_remote remote_meta name) |}
    else None.
Proof.
  unfold final_files. case_bool_decide as Hin; rewrite list_elem_of_In in Hin.
  - apply elem_of_list_to_map_1'.
    + intros y Hy. apply list_elem_of_In, in_map_iff in Hy.
      destruct Hy as (n & Heq & _). now inversion Heq.
    + apply list_elem_of_In, in_map_iff. exists name. split; [reflexivity|].
      now apply in_rev in Hin.
  - apply not_elem_of_list_to_map_1. intros Hel.
    apply list_elem_of_fmap in Hel. destruct Hel as ([k v] & -> & Hkv).
    apply list_elem_of_In, in_map_iff in Hkv. destruct Hkv as (n & Heq & Hn).
    inversion Heq; subst. apply Hin. now apply in_rev.
Qed.

(** C7: for archive parts named as the discovery names them, the manifest
    file is rewritten exactly when the run passes the no-update guard and
    both preflight checks and every planned part is transferred, and is
    otherwise left as it was; what is written is the
    complete text of a manifest whose [files] map has an entry, taken from the
    probed metadata, for every archive part and for nothing else; and the
    write goes to a temporary path that then replaces the file, so that an
    interruption at any point leaves, at the manifest path, either the old
    content or the complete new text. *)
Theorem C7_manifest_rewritten_atomically_after_all_parts
    (target_dir : string) (extract_dir : option string) (est : estimate)
    (remote_meta : gmap string remote_file) (disk : gmap string string) :
  let manifest_path := path_join target_dir "cache_manifest.json" in
  let plan :=
    _plan_incremental_download target_dir disk (archiveParts est) remote_meta
      (previous_files_of (_load_manifest json_load disk manifest_path)) in
  let new_manifest := final_manifest now est remote_meta in
  let run :=
    download_yaqwsx_cache json_dump json_load network disk_free now
      target_dir extract_dir est remote_meta disk in
  let rewritten :=
    negb (no_update est)
    && (totalDownloadBytes plan <=? disk_free target_dir)
    && (mb_to_bytes (estimatedDatabaseSizeMB est)
        <=? disk_free (extraction_target target_dir extract_dir))
    && forallb (part_ok network remote_meta) (partsToDownload plan) in
  Forall (fun f => is_part_name f = true) (archiveParts est) ->
  run.1 !! manifest_path
  = (if rewritten then Some (json_dump new_manifest) else disk !! manifest_path)
  /\ (forall name,
        files new_manifest !! name
        = if bool_decide (name ∈ archiveParts est)
          then Some {| m_size := r_size (lookup_remote remote_meta name);
                       m_etag := r_etag (lookup_remote remote_meta name);
                       m_lastModified :=
                         r_lastModified (lookup_remote remote_meta name) |}
          else None)
  /\ (forall data disk0 disk',
        interrupted_save json_dump manifest_path data disk0 disk' ->
        disk' !! manifest_path = disk0 !! manifest_path
        \/ disk' !! manifest_path = Some (json_dump data)).
Proof.
  cbv zeta. intros Hpaths. split; [|split].
  - unfold download_yaqwsx_cache.
    destruct (no_update est); cbn [negb andb fst]; [reflexivity|].
    set (mp := path_join target_dir "cache_manifest.json").
    set (plan := _plan_incremental_download _ _ _ _ _).
    rewrite (Z.leb_antisym (disk_free target_dir)).
    destruct (disk_free target_dir <? _); cbn [negb andb fst]; [reflexivity|].
    rewrite (Z.leb_antisym (disk_free (extraction_target target_dir extract_dir))).
    destruct (disk_free (extraction_target target_dir extract_dir) <? _);
      cbn [negb andb fst]; [reflexivity|].
    pose proof (fetch_parts_result target_dir remote_meta (partsToDownload plan)
                  disk 0) as Hres.
    pose proof (fetch_parts_other target_dir remote_meta (partsToDownload plan)
                  disk 0 mp) as Hother.
    destruct (fetch_parts network target_dir remote_meta (partsToDownload plan)
                disk 0) as [disk1 [e|n]]; cbn [fst snd] in *.
    + destruct (forallb _ _); destruct Hres as [x Hx]; [discriminate|].
      apply Hother. intros f Hf Heq.
      apply (part_path_not_manifest target_dir f); [|now symmetry].
      unfold plan in Hf. apply PlannerFacts.download_iff in Hf.
      rewrite List.Forall_forall in Hpaths. apply Hpaths, Hf.
    + destruct (forallb _ _); destruct Hres as [x Hx]; [|discriminate].
      destruct (negb _); [apply save_manifest_lookup|].
      destruct (List.filter _ _); apply save_manifest_lookup.
  - intros name. apply final_files_lookup.
  - intros data disk0 disk' Hint.
    pose proof (tmp_path_fresh (path_join target_dir "cache_manifest.json")) as Hne.
    destruct Hint as [n | written _].
    + destruct n as [|[|[|n]]]; cbn [take _save_manifest_ops run_ops fold_left apply_op].
      * now left.
      * left. now rewrite lookup_insert_ne.
      * left. now rewrite !lookup_insert_ne.
      * right. rewrite firstn_nil. cbn [fold_left].
        rewrite !lookup_insert_eq. reflexivity.
    + left. cbn [run_ops fold_left apply_op]. now rewrite !lookup_insert_ne.
Qed.

End Env.

Lemma C7_manifest_rewritten_atomically_after_all_parts_witness :
  (download_yaqwsx_cache Scenarios.toy_dump Scenarios.toy_load
     Scenarios.toy_network (fun _ => 2000000000) 1700000000
     "/cache" (Some "/extract") Scenarios.changed_estimate
     Scenarios.two_parts_remote Scenarios.old_manifest_disk).1
    !! "/cache/cache_manifest.json"
  = Some "updatedAt=1700000000".
Proof.
  pose proof (C7_manifest_rewritten_atomically_after_all_parts
                Scenarios.toy_dump Scenarios.toy_load Scenarios.toy_network
                (fun _ => 2000000000) 1700000000
                "/cache" (Some "/extract") Scenarios.changed_estimate
                Scenarios.two_parts_remote Scenarios.old_manifest_disk) as H.
  cbv zeta in H. destruct H as [H _].
  - repeat constructor.
  - exact H.
Defined.

End DownloadFacts.

(** ** Request signing *)

Module SigningFacts.
Import PyStrFacts Signing.

(** The hash, the MAC and the encoding agree with published test vectors. *)
Example sha256_abc :
  sha256 (encode "abc")
  = be_bytes 32 0xba7816bf8f01cfea414140de5dae2223b00361a396177a9cb410ff61f20015ad.
Proof. vm_compute. reflexivity. Qed.

Example hmac_sha256_fox :
  decode (b64encode (hmac_sha256 (encode "key")
                       (encode "The quick brown fox jumps over the lazy dog")))
  = "97yD9DBThCSxMpjmqm+xQ+9NWaFJRhdZl0edvC0aPNg=".
Proof. vm_compute. reflexivity. Qed.

Example hmac_sha256_long_key :
  decode (b64encode
            (hmac_sha256 (repeat 107 70) (encode "ab")))
  = "6fSS6DsjaVldB2l5/2IzPDmJhUo4H0tZzkmuiFfijH0=".
Proof. vm_compute. reflexivity. Qed.

Example b64encode_padding :
  map (fun s => decode (b64encode (encode s))) ["a"; "ab"; "abc"]
  = ["YQ=="; "YWI="; "YWJj"].
Proof. vm_compute. reflexivity. Qed.

Lemma sha_round_length (st : list Z) (kw : Z * Z) :
  length (sha_round st kw) = length st.
Proof.
  unfold sha_round.
  do 9 (destruct st as [|? st]; try reflexivity).
Qed.

Lemma compress_length (h block : list Z) : length (compress h block) = length h.
Proof.
  unfold compress. rewrite length_map, length_combine.
  assert (H : forall kws st, length (fold_left sha_round kws st) = length st).
  { induction kws as [|kw kws IH]; intros st; [reflexivity|].
    cbn [fold_left]. now rewrite IH, sha_round_length. }
  rewrite H. apply Nat.min_id.
Qed.

Lemma be_bytes_length (n : nat) (x : Z) : length (be_bytes n x) = n.
Proof. induction n as [|n IH]; cbn [be_bytes length]; congruence. Qed.

(** A digest is 32 bytes long. *)
Lemma sha256_length (msg : list Z) : length (sha256 msg) = 32%nat.
Proof.
  unfold sha256.
  assert (H : forall blocks h, length (fold_left compress blocks h) = length h).
  { induction blocks as [|b blocks IH]; intros h; [reflexivity|].
    cbn [fold_left]. now rewrite IH, compress_length. }
  set (st := fold_left compress _ _).
  assert (Hst : length st = 8%nat) by (unfold st; rewrite H; vm_compute; reflexivity).
  clearbody st. do 9 (destruct st as [|? st]; try discriminate).
  cbn [flat_map]. rewrite !length_app, !be_bytes_length. reflexivity.
Qed.

Lemma hmac_sha256_length (key msg : list Z) :
  length (hmac_sha256 key msg) = 32%nat.
Proof. apply sha256_length. Qed.

(** The Base64 text of 32 bytes has 44 characters. *)
Lemma b64encode_length_32 (bs : list Z) :
  length bs = 32%nat -> length (b64encode bs) = 44%nat.
Proof.
  intros H. do 33 (destruct bs as [|? bs]; try discriminate). reflexivity.
Qed.

Lemma decode_length (bs : list Z) : String.length (decode bs) = length bs.
Proof.
  unfold decode. induction bs as [|b bs IH]; cbn; congruence.
Qed.

Lemma sign_length (self : client) (s : string) :
  String.length (_sign self s) = 44%nat.
Proof.
  unfold _sign. rewrite decode_length.
  apply b64encode_length_32, hmac_sha256_length.
Qed.

(** The signature string determines each field, the others being fixed. *)
Lemma signature_string_fields (m p n b m' p' n' b' : string) (t t' : Z) :
  _build_signature_string m p t n b = _build_signature_string m' p' t' n' b' ->
  (p = p' -> t = t' -> n = n' -> b = b' -> m = m')
  /\ (m = m' -> t = t' -> n = n' -> b = b' -> p = p')
  /\ (m = m' -> p = p' -> n = n' -> b = b' -> t = t')
  /\ (m = m' -> p = p' -> t = t' -> b = b' -> n = n')
  /\ (m = m' -> p = p' -> t = t' -> n = n' -> b = b').
Proof.
  unfold _build_signature_string. intros H. repeat split; intros; subst;
    repeat (apply append_inv_head in H);
    try (apply append_inv_tail in H);
    try exact H.
  now apply (inj pretty) in H.
Qed.

(** Closes a goal "the string built with one field changed differs". *)
Ltac field_differs :=
  let x := fresh "x" in
  let Hne := fresh "Hne" in
  let H := fresh "H" in
  intros x Hne H; apply signature_string_fields in H;
  apply Hne; decompose [and] H; auto.

(** C9: the signature input is the five fields, each followed by a line
    feed, in the order method, path, timestamp, nonce, body; the signature is
    the Base64 text of the HMAC-SHA256 of that input under the secret key: a
    text of 44 characters, which for the key and message of test case 2 of
    RFC 4231, and for a request of the parts API signed with the key
    [secret], with another method, and with no key at all (the key is then
    the text [None]), is the value the standard MAC and encoding give; equal
    fields and key give equal signatures; and changing one field, the others
    kept, changes the signature input. *)
Theorem C9_signature_is_deterministic_and_field_sensitive
    (self : client) (method path : string) (timestamp : Z) (nonce body : string) :
  let input := _build_signature_string method path timestamp nonce body in
  let keyed (k : option string) :=
    {| app_id := Some "app"; access_key := Some "access"; secret_key := k |} in
  let request (m : string) :=
    _build_signature_string m "/component/getComponentInfos" 1700000000
      "abcdefghijklmnopqrstuvwxyzABCDEF" "{}" in
  input = method +:+ LF +:+ path +:+ LF +:+ pretty timestamp +:+ LF
          +:+ nonce +:+ LF +:+ body +:+ LF
  /\ _sign self input
     = decode (b64encode (hmac_sha256 (encode (str_opt (secret_key self)))
                            (encode input)))
  /\ String.length (_sign self input) = 44%nat
  /\ _sign (keyed (Some "Jefe")) "what do ya want for nothing?"
     = "W9zBRr9gdU5qBCQmCJV1x1oAPwidJzmDnexYuWTsOEM="
  /\ _sign (keyed (Some "secret")) (request "POST")
     = "G04dyXdtZBWAyOczbQz2VXam6eU2jg6MzHB5FFlZdrU="
  /\ _sign (keyed (Some "secret")) (request "GET")
     = "4O671BVvfQmvyfOSY20c9prhKwh/nGYJ3HXMFWtQ6hw="
  /\ _sign (keyed None) (request "POST")
     = "A+49xs9fXEetCWVu0GMniEH5lsTa45hzgZCqwPsVqVM="
  /\ (forall (other : client) method' path' timestamp' nonce' body',
        secret_key other = secret_key self ->
        (method', path', timestamp', nonce', body')
        = (method, path, timestamp, nonce, body) ->
        _sign other (_build_signature_string method' path' timestamp' nonce' body')
        = _sign self input)
  /\ (forall method', method' <> method ->
        _build_signature_string method' path timestamp nonce body <> input)
  /\ (forall path', path' <> path ->
        _build_signature_string method path' timestamp nonce body <> input)
  /\ (forall timestamp', timestamp' <> timestamp ->
        _build_signature_string method path timestamp' nonce body <> input)
  /\ (forall nonce', nonce' <> nonce ->
        _build_signature_string method path timestamp nonce' body <> input)
  /\ (forall body', body' <> body ->
        _build_signature_string method path timestamp nonce body' <> input).
Proof.
  cbv zeta. split; [reflexivity|]. split; [reflexivity|].
  split; [apply sign_length|].
  do 4 (split; [vm_compute; reflexivity|]).
  repeat split; try field_differs.
  intros other m' p' t' n' b' Hkey Heq. injection Heq as -> -> -> -> ->.
  unfold _sign. now rewrite Hkey.
Qed.

(** A missing credential is reported before anything is signed. *)
Lemma auth_header_needs_credentials (self : client) (nonce : string)
    (timestamp : Z) (method path body : string) :
  missing (app_id self) || missing (access_key self) || missing (secret_key self)
  = true ->
  _get_auth_header self nonce timestamp method path body
  = inl CredentialsNotConfigured.
Proof. unfold _get_auth_header. now intros ->. Qed.

End SigningFacts.

(** ** The parts store: search *)

Module SearchFacts.
Import PyStr Parts Scenarios.

(** C1 at the input of the repository's own test: with the three rows
    inserted in the order Extended, Basic, Preferred, the search by category
    with no tier filter returns them in that order, the order of the table
    scan, whatever the full-text engine; the search filtered to
    [library_type = "Extended"] returns the one Extended row. *)
Theorem C1_unfiltered_search_returns_table_order
    (fts_query : Type) (fts_parse : string -> option fts_query)
    (fts_eval : fts_query -> fts_entry -> bool) :
  let unfiltered :=
    (search_parts fts_query fts_parse fts_eval test_conn
       None (Some "Resistors") None None None true 10).2 in
  let only_extended :=
    (search_parts fts_query fts_parse fts_eval test_conn
       None (Some "Resistors") None (Some "Extended") None true 10).2 in
  unfiltered = [C_EXT; C_BAS; C_PREF]
  /\ map library_type unfiltered = ["Extended"; "Basic"; "Preferred"]
  /\ map library_type unfiltered <> ["Basic"; "Preferred"; "Extended"]
  /\ only_extended = [C_EXT].
Proof.
  cbv zeta. repeat split; try (vm_compute; congruence).
Qed.

Section Engine.
Variable fts_query : Type.
Variable fts_parse : string -> option fts_query.
Variable fts_eval : fts_query -> fts_entry -> bool.

Lemma sql_limit_sublist {A} (n : Z) (l : list A) : sublist (sql_limit n l) l.
Proof.
  unfold sql_limit. destruct (n <? 0); [reflexivity|]. apply sublist_take.
Qed.

Lemma sql_limit_In {A} (n : Z) (l : list A) (x : A) :
  In x (sql_limit n l) -> In x l.
Proof.
  unfold sql_limit. destruct (n <? 0); [trivial|].
  rewrite <- !list_elem_of_In. apply subseteq_take.
Qed.

Lemma filter_sublist {A} (f : A -> bool) (l : list A) : sublist (List.filter f l) l.
Proof.
  induction l as [|x l IH]; cbn; [constructor|].
  destruct (f x); now constructor.
Qed.

(** [search_parts] by cases: a limit that cannot be bound, a statement
    SQLite rejects, a statement that runs. *)
Lemma search_parts_cases (c : conn)
    (query category package library_type manufacturer : option string)
    (in_stock : bool) (limit : Z) :
  search_parts fts_query fts_parse fts_eval c query category package
    library_type manufacturer in_stock limit
  = (c,
     if sqlite_int limit then
       match execute fts_query fts_parse fts_eval (visible c)
               (build_search query category package library_type manufacturer
                  in_stock limit) with
       | inr rows => rows
       | inl _ => []
       end
     else []).
Proof.
  unfold search_parts, cursor_execute. cbn [Parts.limit build_search].
  destruct (sqlite_int limit); cbn [negb]; [|reflexivity].
  now destruct (execute _ _ _ _ _).
Qed.

(** No statement [search_parts] builds has an [ORDER BY]: whatever the
    arguments, the rows come back in the order of the table, as a
    subsequence of it. *)
Lemma search_parts_table_order (c : conn)
    (query category package library_type manufacturer : option string)
    (in_stock : bool) (limit : Z) :
  sublist
    (search_parts fts_query fts_parse fts_eval c query category package
       library_type manufacturer in_stock limit).2
    (map snd (components (visible c))).
Proof.
  rewrite search_parts_cases. cbn [snd].
  destruct (sqlite_int limit); [|apply sublist_nil_l]. unfold execute.
  destruct (prepare_all _ _ _ _ _) as [e|keep].
  - apply sublist_nil_l.
  - etransitivity; [apply sql_limit_sublist | apply filter_sublist].
Qed.

Lemma prepare_all_rejected (s : snapshot) (q : string) (rest : list condition) :
  fts_parse q = None ->
  prepare_all fts_query fts_parse fts_eval s (FtsMatch q :: rest)
  = inl (FtsSyntaxError q).
Proof. intros H. cbn. now rewrite H. Qed.

(** C10: [search_parts] returns a list for every argument; when the
    execution of the assembled statement fails it returns the empty list,
    which is what happens for a free-text query the full-text index rejects;
    and the connection is returned as it was. *)
Theorem C10_search_returns_empty_list_on_query_error (c : conn)
    (query category package library_type manufacturer : option string)
    (in_stock : bool) (limit : Z) :
  let sql :=
    build_search query category package library_type manufacturer
      in_stock limit in
  let result :=
    search_parts fts_query fts_parse fts_eval c query category package
      library_type manufacturer in_stock limit in
  result.1 = c
  /\ (forall e,
        execute fts_query fts_parse fts_eval (visible c) sql = inl e ->
        result = (c, []))
  /\ (forall q,
        query = Some q -> q <> "" -> fts_parse q = None ->
        execute fts_query fts_parse fts_eval (visible c) sql
        = inl (FtsSyntaxError q)
        /\ result = (c, [])).
Proof.
  cbv zeta. rewrite search_parts_cases. repeat split.
  - intros e ->. now destruct (sqlite_int limit).
  - subst query. unfold build_search, given.
    apply PyStrFacts.truthy_true in H0. rewrite H0. cbn [app].
    unfold execute. cbn [conditions]. now rewrite prepare_all_rejected.
  - subst query. unfold execute, build_search, given.
    apply PyStrFacts.truthy_true in H0. rewrite H0. cbn [app conditions].
    rewrite prepare_all_rejected by assumption.
    now destruct (sqlite_int limit).
Qed.

End Engine.

Lemma C10_search_returns_empty_list_on_query_error_witness :
  search_parts string toy_fts_parse toy_fts_eval test_conn
    (Some "(10k") None None None None true 20
  = (test_conn, []).
Proof.
  pose proof (C10_search_returns_empty_list_on_query_error string
                toy_fts_parse toy_fts_eval test_conn (Some "(10k") None None
                None None true 20) as H.
  cbv zeta in H. destruct H as (_ & H & _).
  apply (H (FtsSyntaxError "(10k")). reflexivity.
Defined.

End SearchFacts.

(** ** The parts store: alternative ranking *)

Module RankingFacts.
Import PyStr Parts Scenarios.

(** *** The comparisons of floats, NaN apart *)

Lemma float_lt_trans (a b c : pyfloat) :
  float_lt a b = true -> float_lt b c = true -> float_lt a c = true.
Proof.
  destruct a as [x| | |], b as [y| | |], c as [z| | |];
    cbn [float_lt]; try discriminate; try reflexivity.
  destruct (Qcompare_spec x y); try discriminate.
  destruct (Qcompare_spec y z); try discriminate.
  intros _ _. destruct (Qcompare_spec x z); [lra | reflexivity | lra].
Qed.

Lemma float_lt_eq (a b c : pyfloat) :
  float_lt a b = true -> float_eq b c = true -> float_lt a c = true.
Proof.
  destruct a as [x| | |], b as [y| | |], c as [z| | |];
    cbn [float_lt float_eq]; try discriminate; try reflexivity.
  destruct (Qcompare_spec x y); try discriminate.
  intros _ Heq. apply Qeq_bool_iff in Heq.
  destruct (Qcompare_spec x z); [lra | reflexivity | lra].
Qed.

Lemma float_eq_lt (a b c : pyfloat) :
  float_eq a b = true -> float_lt b c = true -> float_lt a c = true.
Proof.
  destruct a as [x| | |], b as [y| | |], c as [z| | |];
    cbn [float_lt float_eq]; try discriminate; try reflexivity.
  intros Heq. apply Qeq_bool_iff in Heq.
  destruct (Qcompare_spec y z); try discriminate.
  intros _. destruct (Qcompare_spec x z); [lra | reflexivity | lra].
Qed.

Lemma float_eq_trans (a b c : pyfloat) :
  float_eq a b = true -> float_eq b c = true -> float_eq a c = true.
Proof.
  destruct a as [x| | |], b as [y| | |], c as [z| | |];
    cbn [float_eq]; try discriminate; try reflexivity.
  rewrite !Qeq_bool_iff. intros H1 H2. lra.
Qed.

Lemma float_eq_sym (a b : pyfloat) : float_eq a b = float_eq b a.
Proof.
  destruct a as [x| | |], b as [y| | |]; cbn [float_eq]; try reflexivity.
  apply eq_true_iff_eq. rewrite !Qeq_bool_iff. split; intros H; lra.
Qed.

Lemma float_lt_not_eq (a b : pyfloat) :
  float_lt a b = true -> float_eq a b = false.
Proof.
  destruct a as [x| | |], b as [y| | |];
    cbn [float_lt float_eq]; try discriminate; try reflexivity.
  destruct (Qcompare_spec x y); try discriminate. intros _.
  destruct (Qeq_bool x y) eqn:Heq; [|reflexivity].
  apply Qeq_bool_iff in Heq. lra.
Qed.

(** Two floats of which none is a NaN compare one way or the other. *)
Lemma float_total (a b : pyfloat) :
  is_nan a = false -> is_nan b = false ->
  float_lt a b = true \/ float_eq a b = true \/ float_lt b a = true.
Proof.
  destruct a as [x| | |], b as [y| | |];
    cbn [float_lt float_eq is_nan]; try discriminate; auto.
  intros _ _. destruct (Qcompare_spec x y) as [H | H | H]; auto.
  - right. left. now apply Qeq_bool_iff.
  - right. right. destruct (Qcompare_spec y x); [lra | reflexivity | lra].
Qed.

Lemma float_lt_asym (a b : pyfloat) :
  float_lt a b = true -> float_lt b a = false.
Proof.
  destruct a as [x| | |], b as [y| | |];
    cbn [float_lt]; try discriminate; try reflexivity.
  destruct (Qcompare_spec x y); try discriminate. intros _.
  destruct (Qcompare_spec y x); [reflexivity | lra | reflexivity].
Qed.

Section Engine.
Variable fts_query : Type.
Variable fts_parse : string -> option fts_query.
Variable fts_eval : fts_query -> fts_entry -> bool.
Variable json_loads : string -> option json.
Variable float_of_string : string -> option pyfloat.
Variable nan_sort : list part -> list part.

(** Whatever the comparisons answer, a sort leaves the rows it was given,
    each as often as it was there. *)
Hypothesis nan_sort_perm : forall l, Permutation (nan_sort l) l.

Let price := first_price json_loads float_of_string.
Let key := sort_key json_loads float_of_string.
Let ranked := ranked_before json_loads float_of_string.
Let no_nan (p : part) : Prop := is_nan (price p) = false.

Lemma key_lt_false (x y : part) :
  no_nan x -> no_nan y ->
  key_lt (key y) (key x) = false -> ranked x y.
Proof.
  unfold no_nan, key, ranked, sort_key, ranked_before, key_lt. fold price.
  intros Hx Hy.
  destruct (Z.eqb_spec (- is_basic y) (- is_basic x)) as [Ha | Ha]; cbn [negb].
  2:{ intros H. apply Z.ltb_ge in H. left. lia. }
  destruct (float_eq (price y) (price x)) eqn:Heq; cbn [negb].
  - intros H. apply Z.ltb_ge in H. right. split; [lia|]. right.
    split; [now rewrite float_eq_sym | lia].
  - intros Hlt. right. split; [lia|]. left.
    destruct (float_total (price x) (price y) Hx Hy) as [H | [H | H]];
      [exact H | rewrite float_eq_sym in H; congruence | congruence].
Qed.

Lemma key_lt_true (x y : part) : key_lt (key y) (key x) = true -> ranked y x.
Proof.
  unfold key, ranked, sort_key, ranked_before, key_lt. fold price.
  destruct (Z.eqb_spec (- is_basic y) (- is_basic x)) as [Ha | Ha]; cbn [negb].
  2:{ intros H. apply Z.ltb_lt in H. left. lia. }
  destruct (float_eq (price y) (price x)) eqn:Heq; cbn [negb].
  - intros H. apply Z.ltb_lt in H. right. split; [lia|]. right.
    split; [reflexivity | lia].
  - intros H. right. split; [lia|]. now left.
Qed.

Lemma ranked_trans (x y z : part) : ranked x y -> ranked y z -> ranked x z.
Proof.
  unfold ranked, ranked_before. fold price.
  intros [H1 | [H1 [H2 | [H2 H3]]]] [K1 | [K1 [K2 | [K2 K3]]]];
    try (left; lia); right; (split; [lia|]).
  - left. eapply float_lt_trans; eauto.
  - left. eapply float_lt_eq; eauto.
  - left. eapply float_eq_lt; eauto.
  - right. split; [eapply float_eq_trans; eauto | lia].
Qed.

Lemma sort_insert_perm (x : part) (l : list part) :
  Permutation (sort_insert json_loads float_of_string x l) (x :: l).
Proof.
  induction l as [|y l IH]; cbn [sort_insert]; [reflexivity|].
  fold key. destruct (key_lt (key y) (key x)); [|reflexivity].
  rewrite IH. apply perm_swap.
Qed.

Lemma sort_insert_sorted (x : part) (l : list part) :
  no_nan x -> Forall no_nan l ->
  StronglySorted ranked l ->
  StronglySorted ranked (sort_insert json_loads float_of_string x l).
Proof.
  intros Hx Hl Hs. induction Hs as [|y l Hs IH Hy]; cbn [sort_insert].
  - repeat constructor.
  - apply Forall_cons in Hl. destruct Hl as [Hyn Hl].
    fold key. destruct (key_lt (key y) (key x)) eqn:Hk.
    + constructor; [now apply IH|].
      eapply Permutation_Forall; [symmetry; apply sort_insert_perm|].
      constructor; [now apply key_lt_true | exact Hy].
    + apply key_lt_false in Hk; [|assumption..].
      constructor; [now constructor|].
      constructor; [exact Hk|].
      eapply List.Forall_impl; [|exact Hy]. intros z Hz.
      eapply ranked_trans; eauto.
Qed.

Lemma stable_sort_perm (l : list part) :
  Permutation (stable_sort json_loads float_of_string l) l.
Proof.
  induction l as [|x l IH]; cbn [stable_sort fold_right]; [reflexivity|].
  fold (stable_sort json_loads float_of_string l).
  rewrite sort_insert_perm. now constructor.
Qed.

Lemma stable_sort_sorted (l : list part) :
  Forall no_nan l ->
  StronglySorted ranked (stable_sort json_loads float_of_string l).
Proof.
  induction l as [|x l IH]; cbn [stable_sort fold_right]; intros Hl;
    [constructor|].
  apply Forall_cons in Hl. destruct Hl as [Hx Hl].
  fold (stable_sort json_loads float_of_string l).
  apply sort_insert_sorted; [exact Hx | | now apply IH].
  eapply Permutation_Forall; [symmetry; apply stable_sort_perm | exact Hl].
Qed.

Lemma existsb_nan_false (l : list part) :
  Forall no_nan l -> existsb (fun p => is_nan (price p)) l = false.
Proof.
  induction 1 as [|x l Hx _ IH]; cbn [existsb]; [reflexivity|].
  unfold no_nan in Hx. now rewrite Hx, IH.
Qed.

(** [list.sort] leaves the rows it was given. *)
Lemma sort_by_key_perm (l : list part) :
  Permutation (sort_by_key json_loads float_of_string nan_sort l) l.
Proof.
  unfold sort_by_key. destruct (existsb _ l);
    [apply nan_sort_perm | apply stable_sort_perm].
Qed.

(** With no NaN among the prices it is the stable sort. *)
Lemma sort_by_key_stable (l : list part) :
  Forall no_nan l ->
  sort_by_key json_loads float_of_string nan_sort l
  = stable_sort json_loads float_of_string l.
Proof.
  intros Hl. unfold sort_by_key. fold price. now rewrite existsb_nan_false.
Qed.

Lemma take_sorted {A} (R : A -> A -> Prop) (n : nat) (l : list A) :
  StronglySorted R l -> StronglySorted R (take n l).
Proof.
  intros Hs. revert n. induction Hs as [|x l Hs IH Hx]; intros [|n]; cbn;
    try constructor; [apply IH | now apply Forall_take].
Qed.

Lemma py_slice_to_sorted {A} (R : A -> A -> Prop) (n : Z) (l : list A) :
  StronglySorted R l -> StronglySorted R (py_slice_to n l).
Proof. unfold py_slice_to. destruct (n <? 0); apply take_sorted. Qed.

Lemma py_slice_to_In {A} (n : Z) (l : list A) (x : A) :
  In x (py_slice_to n l) -> In x l.
Proof.
  unfold py_slice_to. rewrite <- !list_elem_of_In.
  destruct (n <? 0); apply subseteq_take.
Qed.

Lemma py_slice_to_length {A} (n : Z) (l : list A) :
  0 <= n -> Z.of_nat (length (py_slice_to n l)) <= n.
Proof.
  intros Hn. unfold py_slice_to. destruct (Z.ltb_spec n 0); [lia|].
  rewrite length_take. lia.
Qed.

(** What the candidate query of [suggest_alternatives] lets through. *)
Lemma candidates_In (c : conn) (sub pkg : string) (lim : Z) (p : part) :
  In p (search_parts fts_query fts_parse fts_eval c None (Some sub) (Some pkg)
          None None true lim).2 ->
  In p (map snd (components (visible c)))
  /\ 0 < stock p
  /\ (pkg <> "" -> like ("%" +:+ pkg +:+ "%") (package p) = true)
  /\ (sub <> "" -> like ("%" +:+ sub +:+ "%") (category p) = true).
Proof.
  rewrite SearchFacts.search_parts_cases. cbn [snd].
  destruct (sqlite_int lim); [|intros []].
  unfold execute, build_search, given.
  destruct (truthy sub) eqn:Hsub; destruct (truthy pkg) eqn:Hpkg;
    cbn [app conditions limit prepare_all prepare snd];
    intros Hin;
    apply SearchFacts.sql_limit_In in Hin;
    apply filter_In in Hin; destruct Hin as [Hin Hkeep];
    repeat (apply andb_true_iff in Hkeep; destruct Hkeep as [? Hkeep]);
    apply PyStrFacts.truthy_true in Hsub || apply PyStrFacts.truthy_false in Hsub;
    apply PyStrFacts.truthy_true in Hpkg || apply PyStrFacts.truthy_false in Hpkg;
    cbn [column_value] in *;
    repeat split; try assumption; try (intros; congruence);
    try (apply Z.ltb_lt; assumption).
Qed.

(** C8 (amended): for a reference key present in the store, every row
    [suggest_alternatives] returns is a stored row other than the reference
    key, in stock, whose package contains the reference's package (when that
    is not empty) in the sense of the [LIKE] filter; there are at most
    [limit] of them for a non-negative [limit]; and when the first listed
    price of no candidate (the rows the candidate query returns, the
    reference apart) is a NaN, the rows returned are the first [limit] of the
    candidates put in the order of the chain Basic first, then ascending
    first listed price (999 when there is none), then descending stock.  The
    sort is assumed to return the rows it was given, whatever their
    keys. *)
Theorem C8_alternatives_exclude_reference_and_are_ranked
    (c : conn) (lcsc_number : string) (limit : Z) (reference : part) :
  let result :=
    (suggest_alternatives fts_query fts_parse fts_eval json_loads
       float_of_string nan_sort c lcsc_number limit).2 in
  let candidates :=
    List.filter (fun p => negb (String.eqb (lcsc p) lcsc_number))
      (search_parts fts_query fts_parse fts_eval c None
         (Some (subcategory reference)) (Some (package reference))
         None None true (limit * 3)).2 in
  get_part_info c lcsc_number = Some reference ->
  (forall p, In p result ->
     lcsc p <> lcsc_number
     /\ In p candidates
     /\ In p (map snd (components (visible c)))
     /\ 0 < stock p
     /\ (package reference <> "" ->
         like ("%" +:+ package reference +:+ "%") (package p) = true))
  /\ (0 <= limit -> Z.of_nat (length result) <= limit)
  /\ ((forall p, In p candidates ->
         is_nan (first_price json_loads float_of_string p) = false) ->
      StronglySorted (ranked_before json_loads float_of_string) result
      /\ result
         = py_slice_to limit (stable_sort json_loads float_of_string candidates)
      /\ StronglySorted (ranked_before json_loads float_of_string)
           (stable_sort json_loads float_of_string candidates)
      /\ Permutation (stable_sort json_loads float_of_string candidates)
           candidates).
Proof.
  cbv zeta. intros Href. unfold suggest_alternatives. rewrite Href.
  pose proof (candidates_In c (subcategory reference) (package reference)
                (limit * 3)) as Hcand.
  destruct (search_parts _ _ _ c None _ _ None None true (limit * 3))
    as [c1 alternatives].
  cbn [snd] in *. split; [|split].
  - intros p Hp. apply py_slice_to_In in Hp.
    apply (Permutation_in _ (sort_by_key_perm _)) in Hp.
    pose proof Hp as Hfiltered.
    apply filter_In in Hp. destruct Hp as [Hp Hkey].
    destruct (Hcand p Hp) as (Hstored & Hstock & Hpkg & _).
    repeat split; try assumption.
    apply negb_true_iff in Hkey. intros Heq.
    rewrite Heq, String.eqb_refl in Hkey. discriminate.
  - apply py_slice_to_length.
  - intros Hnan. apply List.Forall_forall in Hnan.
    rewrite sort_by_key_stable by exact Hnan.
    repeat split.
    + now apply py_slice_to_sorted, stable_sort_sorted.
    + now apply stable_sort_sorted.
    + apply stable_sort_perm.
Qed.

End Engine.

(** C8, as stated, fails: for the reference row [C1] (subcategory
    "Resistors", package "0603") the suggestion contains [C2], whose
    subcategory is "Arrays" and whose package is "0603x4"; and [C3], whose
    only listed price is 2, is ranked before [C2], whose lowest listed price
    is 1, because the first listed price of [C2] is 5. *)
Lemma C8_counterexample :
  let result :=
    (suggest_alternatives string toy_fts_parse toy_fts_eval toy_json_loads
       toy_float toy_nan_sort alt_conn "C1" 5).2 in
  get_part_info alt_conn "C1" = Some alt_ref
  /\ result = [alt_single; alt_array]
  /\ subcategory alt_array <> subcategory alt_ref
  /\ package alt_array <> package alt_ref
  /\ lowest_listed_price toy_json_loads toy_float alt_array
     = Some (Finite (inject_Z 1))
  /\ lowest_listed_price toy_json_loads toy_float alt_single
     = Some (Finite (inject_Z 2))
  /\ first_price toy_json_loads toy_float alt_array = Finite (inject_Z 5).
Proof.
  cbv zeta. repeat split; try (vm_compute; congruence).
Qed.

Lemma C8_alternatives_exclude_reference_and_are_ranked_witness :
  StronglySorted (ranked_before toy_json_loads toy_float)
    (suggest_alternatives string toy_fts_parse toy_fts_eval toy_json_loads
       toy_float toy_nan_sort alt_conn "C1" 5).2
  /\ (suggest_alternatives string toy_fts_parse toy_fts_eval toy_json_loads
        toy_float toy_nan_sort alt_conn "C1" 5).2
     = [alt_single; alt_array].
Proof.
  destruct (C8_alternatives_exclude_reference_and_are_ranked string
              toy_fts_parse toy_fts_eval toy_json_loads toy_float toy_nan_sort
              (fun l => Permutation_refl l) alt_conn "C1" 5 alt_ref eq_refl)
    as (_ & _ & Hsorted).
  destruct Hsorted as (Hs & Heq & _).
  - intros p Hp. vm_compute in Hp.
    destruct Hp as [<- | [<- | []]]; vm_compute; reflexivity.
  - split; [exact Hs|]. rewrite Heq. vm_compute. reflexivity.
Defined.

End RankingFacts.

(** ** The parts store: import *)

Module ImportFacts.
Import PyStr Parts Scenarios.

Lemma fold_max_opt_acc (l : list (option Z)) (acc : option Z) :
  fold_left max_opt l acc = max_opt acc (fold_left max_opt l None).
Proof.
  revert acc. induction l as [|v l IH]; intros acc; cbn [fold_left].
  - now destruct acc.
  - rewrite IH, (IH (max_opt None v)).
    destruct acc as [a|], v as [b|], (fold_left max_opt l None) as [m|];
      cbn; f_equal; lia.
Qed.

(** [fold_left max_opt _ None] is the maximum of the values that are there. *)
Lemma fold_max_opt_spec (l : list (option Z)) :
  match fold_left max_opt l None with
  | Some m => In (Some m) l /\ forall z, In (Some z) l -> z <= m
  | None => forall z, ~ In (Some z) l
  end.
Proof.
  induction l as [|v l IH]; cbn [fold_left]; [intros z []|].
  rewrite fold_max_opt_acc.
  destruct (fold_left max_opt l None) as [m|], v as [b|]; cbn.
  - destruct IH as [Hin Hmax]. split.
    + destruct (Z.max_spec b m) as [[_ ->] | [_ ->]]; auto.
    + intros z [Hz | Hz]; [injection Hz as ->; lia|].
      specialize (Hmax z Hz). lia.
  - destruct IH as [Hin Hmax]. split; [auto|].
    intros z [Hz | Hz]; [discriminate | auto].
  - split; [auto|]. intros z [Hz | Hz]; [injection Hz as ->; lia|].
    now apply IH in Hz.
  - intros z [Hz | Hz]; [discriminate | now apply IH in Hz].
Qed.

(** With stock filtering off, and a row newer than the watermark present,
    the maximum over the whole relation is the maximum over the rows newer
    than the watermark. *)
Lemma max_of_selected (rows : list source_row) (since : Z) :
  let selected := List.filter (row_selected true false (Some since)) rows in
  selected <> [] ->
  max_last_update_of rows = max_last_update_of selected.
Proof.
  cbv zeta. intros Hne. unfold max_last_update_of.
  set (selected := List.filter _ rows) in *.
  assert (Hsel : forall r, In r selected <->
                 In r rows /\ exists z, src_last_update r = Some z /\ since < z).
  { intros r. unfold selected. rewrite filter_In. unfold row_selected. cbn.
    split; intros [Hr H]; (split; [exact Hr|]).
    - destruct (src_last_update r) as [z|]; [|discriminate].
      exists z. split; [reflexivity | now apply Z.ltb_lt].
    - destruct H as (z & -> & Hz). now apply Z.ltb_lt. }
  pose proof (fold_max_opt_spec (map src_last_update rows)) as Hall.
  pose proof (fold_max_opt_spec (map src_last_update selected)) as Hs.
  destruct selected as [|r0 sel] eqn:Hsel0; [congruence|].
  destruct (proj1 (Hsel r0) (or_introl eq_refl)) as (Hr0 & z0 & Hz0 & Hgt).
  destruct (fold_left max_opt (map src_last_update rows) None) as [m|].
  2:{ exfalso. apply (Hall z0). rewrite <- Hz0. now apply in_map. }
  destruct Hall as [Hm Hmmax].
  assert (Hm0 : z0 <= m) by (apply Hmmax; rewrite <- Hz0; now apply in_map).
  destruct (fold_left max_opt (map src_last_update (r0 :: sel)) None) as [k|].
  2:{ exfalso. apply (Hs z0). rewrite <- Hz0. apply in_map. now left. }
  destruct Hs as [Hk Hkmax]. f_equal. apply Z.le_antisymm.
  - apply Hkmax. apply in_map_iff in Hm. destruct Hm as (r & Hr & Hin).
    apply in_map_iff. exists r. split; [exact Hr|]. apply Hsel.
    split; [exact Hin|]. exists m. split; [exact Hr | lia].
  - apply Hmmax. apply in_map_iff in Hk. destruct Hk as (r & Hr & Hin).
    apply in_map_iff. exists r. split; [exact Hr|]. now apply Hsel in Hin.
Qed.

Section Importer.
Variable now_ts : Z.
Variable batch_size : nat.
Variable write_fault : Z -> option nat.

Lemma write_batch_ok (incremental : bool) (s : snapshot) (batch : list part)
    (imported : Z) :
  write_fault imported = None ->
  exists s',
    write_batch write_fault incremental s batch imported = (s', None)
    /\ components s' = fold_left upsert batch (components s)
    /\ indexes s' = indexes s.
Proof.
  intros Hok. unfold write_batch. rewrite Hok.
  eexists. split; [reflexivity|]. now destruct incremental.
Qed.

(** Batching does not change what is written: when no conversion and no
    write raises, the loop ends with the rows written so far and the pending
    batch together amounting to the upsert of every converted row, in
    order. *)
Lemma ingest_ok (last_col incremental : bool) (rows : list source_row) :
  (forall n, write_fault n = None) ->
  forall (parts : list part) (s : snapshot) (batch : list part) (n : Z),
    convert_all now_ts last_col rows = Some parts ->
    exists s' batch' n',
      ingest now_ts batch_size write_fault last_col incremental rows s batch n
      = (s', inr (batch', n'))
      /\ fold_left upsert batch' (components s')
         = fold_left upsert (batch ++ parts) (components s)
      /\ n' + Z.of_nat (length batch')
         = n + Z.of_nat (length batch) + Z.of_nat (length parts)
      /\ indexes s' = indexes s.
Proof.
  intros Hok. induction rows as [|row rows IH]; intros parts s batch n Hconv.
  - injection Hconv as <-. exists s, batch, n. rewrite app_nil_r.
    cbn [ingest length]. repeat split. lia.
  - cbn [convert_all] in Hconv. cbn [ingest].
    destruct (convert_row now_ts last_col row) as [p|]; [|discriminate].
    destruct (convert_all now_ts last_col rows) as [ps|]; [|discriminate].
    injection Hconv as <-.
    destruct (batch_size <=? length (batch ++ [p]))%nat.
    + destruct (write_batch_ok incremental s (batch ++ [p]) n (Hok n))
        as (s1 & -> & Hc1 & Hi1).
      destruct (IH ps s1 [] (n + Z.of_nat (length (batch ++ [p]))) eq_refl)
        as (s' & batch' & n' & -> & Hc & Hn & Hi).
      exists s', batch', n'. split; [reflexivity|]. split; [|split].
      * rewrite Hc, Hc1. cbn [app]. rewrite <- fold_left_app.
        now rewrite <- app_assoc.
      * rewrite Hn. cbn [length]. rewrite !length_app. cbn [length]. lia.
      * congruence.
    + destruct (IH ps s (batch ++ [p]) n eq_refl)
        as (s' & batch' & n' & -> & Hc & Hn & Hi).
      exists s', batch', n'. split; [reflexivity|]. split; [|split].
      * rewrite Hc. now rewrite <- app_assoc.
      * rewrite Hn. rewrite !length_app. cbn [length]. lia.
      * exact Hi.
Qed.

Lemma selected_newer (src : source_db) (in_stock_only : bool) (since : Z)
    (r : source_row) :
  has_last_col src = true ->
  In r (List.filter (row_selected (has_last_col src) in_stock_only (Some since))
          (source_rows src)) ->
  exists z, src_last_update r = Some z /\ since < z.
Proof.
  intros -> Hin. apply filter_In in Hin. destruct Hin as [_ H].
  unfold row_selected in H. apply andb_true_iff in H. destruct H as [_ H].
  destruct (src_last_update r) as [z|]; [|discriminate].
  exists z. split; [reflexivity | now apply Z.ltb_lt].
Qed.

(** The body of the import when nothing raises. *)
Lemma import_body_ok (c : conn) (src : source_db) (selected : list source_row)
    (incremental_since : option Z) (parts : list part) :
  in_tx c = None ->
  (forall n, write_fault n = None) ->
  convert_all now_ts (has_last_col src) selected = Some parts ->
  exists c',
    import_body now_ts batch_size write_fault c src selected incremental_since
    = (c', inr {| imported := Z.of_nat (length parts);
                  total := Z.of_nat (length selected);
                  max_last_update := source_max_last_update src |})
    /\ in_tx c' = None
    /\ components (committed c')
       = fold_left upsert parts
           (match incremental_since with
            | Some _ => components (committed c)
            | None => []
            end)
    /\ (match incremental_since with
        | Some _ => indexes (committed c') = indexes (committed c)
        | None => list_to_set component_index_names ⊆ indexes (committed c')
        end).
Proof.
  intros Htx Hok Hconv. unfold import_body, begin_immediate. rewrite Htx.
  cbn [visible in_tx committed default].
  set (incremental := match incremental_since with Some _ => true | None => false end).
  set (s1 := if incremental then _ else _).
  destruct (ingest_ok (has_last_col src) incremental selected Hok parts s1 [] 0
              Hconv) as (s2 & batch & n & -> & Hc & Hn & Hi).
  cbn [app length] in Hc, Hn.
  assert (Hflush : exists s3,
    (match batch with
     | [] => (s2, None, n)
     | _ :: _ =>
         let '(s3, err) := write_batch write_fault incremental s2 batch n in
         (s3, err, n + Z.of_nat (length batch))
     end) = (s3, None, Z.of_nat (length parts))
    /\ components s3 = fold_left upsert parts (components s1)
    /\ indexes s3 = indexes s1).
  { destruct batch as [|p batch].
    - exists s2. cbn [length fold_left] in *. repeat split; try congruence.
      do 2 f_equal. lia.
    - destruct (write_batch_ok incremental s2 (p :: batch) n (Hok n))
        as (s3 & -> & Hc3 & Hi3).
      exists s3. repeat split; try congruence. do 2 f_equal. lia. }
  destruct Hflush as (s3 & -> & Hc3 & Hi3).
  eexists. split; [reflexivity|].
  unfold commit, visible. cbn [in_tx committed default].
  split; [reflexivity|].
  subst s1 incremental. destruct incremental_since as [since|].
  - cbn in *. split; congruence.
  - cbn in *. split; [congruence|]. apply union_subseteq_r.
Qed.

(** C4 (amended): in an incremental import from a source that has a
    last-update column, the rows selected for ingestion are exactly rows
    whose last update is strictly greater than the watermark; when none is
    selected the call returns without touching the connection, and the
    watermark it returns is the maximum last update of the whole source
    relation when there is one and it is not zero, and the old watermark
    otherwise; when some are selected and nothing raises, the selected rows
    are upserted in order, secondary indexes stay as they are, and the
    watermark returned is the maximum last update over the whole source
    relation, which is the maximum over the selected rows when out-of-stock
    rows are not filtered out. *)
Theorem C4_incremental_import_selects_newer_rows
    (c : conn) (src : source_db) (in_stock_only : bool) (since : Z) :
  let selected :=
    List.filter (row_selected (has_last_col src) in_stock_only (Some since))
      (source_rows src) in
  let run :=
    import_yaqwsx_cache now_ts batch_size write_fault c src in_stock_only
      (Some since) in
  has_last_col src = true ->
  (forall r, In r selected -> exists z, src_last_update r = Some z /\ since < z)
  /\ (selected = [] ->
      run = (c, inr {| imported := 0; total := 0;
                       max_last_update :=
                         Some (or_int (max_last_update_of (source_rows src))
                                 since) |}))
  /\ (forall parts,
        selected <> [] -> in_tx c = None ->
        (forall n, write_fault n = None) ->
        convert_all now_ts true selected = Some parts ->
        exists c',
          run = (c', inr {| imported := Z.of_nat (length parts);
                            total := Z.of_nat (length selected);
                            max_last_update :=
                              max_last_update_of (source_rows src) |})
          /\ in_tx c' = None
          /\ components (committed c')
             = fold_left upsert parts (components (committed c))
          /\ indexes (committed c') = indexes (committed c)
          /\ (in_stock_only = false ->
              max_last_update_of (source_rows src)
              = max_last_update_of selected)).
Proof.
  cbv zeta. intros Hcol. split; [|split].
  - intros r. now apply selected_newer.
  - intros Hsel. unfold import_yaqwsx_cache. rewrite Hsel. cbn [length].
    unfold source_max_last_update. rewrite Hcol. reflexivity.
  - intros parts Hne Htx Hok Hconv. unfold import_yaqwsx_cache.
    set (selected := List.filter _ _) in *.
    destruct (Z.eqb_spec (Z.of_nat (length selected)) 0) as [H0 | _].
    { destruct selected; [congruence | cbn in H0; lia]. }
    rewrite <- Hcol in Hconv.
    destruct (import_body_ok c src selected (Some since) parts Htx Hok Hconv)
      as (c' & -> & Htx' & Hc & Hi).
    exists c'. unfold source_max_last_update. rewrite Hcol.
    repeat split; try assumption.
    intros ->. subst selected. rewrite Hcol in *. now apply max_of_selected.
Qed.


End Importer.

(** C4, as stated, fails: with watermark 100 and a source whose only row was
    last updated at 50, the filtered set is empty and the catalog is left
    untouched, but the watermark returned is 50, not 100. *)
Lemma C4_counterexample :
  List.filter (row_selected true false (Some 100)) (source_rows stale_source) = []
  /\ import_yaqwsx_cache 1700000000 1000 no_fault test_conn stale_source
       false (Some 100)
     = (test_conn,
        inr {| imported := 0; total := 0; max_last_update := Some 50 |}).
Proof. split; reflexivity. Qed.


Lemma C4_incremental_import_selects_newer_rows_witness :
  exists c',
    import_yaqwsx_cache 1700000000 1000 no_fault test_conn fresh_source false
      (Some 100)
    = (c', inr {| imported := 1; total := 1; max_last_update := Some 150 |})
    /\ length (components (committed c')) = 4%nat.
Proof.
  pose proof (C4_incremental_import_selects_newer_rows 1700000000 1000 no_fault
                test_conn fresh_source false 100 eq_refl) as (_ & _ & H).
  destruct (H _ ltac:(discriminate) eq_refl (fun _ => eq_refl) eq_refl)
    as (c' & Hrun & _ & Hrows & _).
  exists c'. split; [exact Hrun|]. rewrite Hrows. reflexivity.
Defined.



End ImportFacts.

(** ** Numbers as text *)

Module NumberFacts.
Import PyStr Parts.

Lemma lstrip_no_match (p : ascii -> bool) (c : ascii) (s : string) :
  p c = false -> lstrip_with p (String c s) = String c s.
Proof. intros H. cbn. now rewrite H. Qed.

Lemma rstrip_none (p : ascii -> bool) (s : string) :
  (forall c, In c (list_ascii_of_string s) -> p c = false) ->
  rstrip_with p s = s.
Proof.
  induction s as [|c s IH]; intros H; [reflexivity|].
  cbn [rstrip_with]. rewrite IH by (intros d Hd; apply H; now right).
  destruct s; [|reflexivity]. now rewrite (H c (or_introl eq_refl)).
Qed.

Lemma strip_none (s : string) :
  (forall c, In c (list_ascii_of_string s) -> is_space c = false) ->
  strip s = s.
Proof.
  intros H. unfold strip, strip_with.
  destruct s as [|c s]; [reflexivity|].
  rewrite lstrip_no_match by (apply H; now left). now apply rstrip_none.
Qed.

Lemma digit_val_char (k : N) :
  (k < 10)%N -> digit_val (pretty_N_char k) = Some (Z.of_N k).
Proof.
  intros H.
  assert (k = 0 \/ k = 1 \/ k = 2 \/ k = 3 \/ k = 4 \/ k = 5 \/ k = 6 \/ k = 7
          \/ k = 8 \/ k = 9)%N as Hk by lia.
  repeat (destruct Hk as [-> | Hk]; [reflexivity|]). now subst.
Qed.

Lemma digit_not_space (c : ascii) (d : Z) :
  digit_val c = Some d ->
  is_space c = false /\ Ascii.eqb c "+" = false /\ Ascii.eqb c "-" = false.
Proof.
  unfold digit_val, is_space. intros H.
  destruct (_ && _)%nat eqn:Hd; [|discriminate].
  apply andb_true_iff in Hd. destruct Hd as [H1 H2].
  apply Nat.leb_le in H1, H2.
  repeat split.
  - apply orb_false_iff. split; apply andb_false_iff.
    + right. apply Nat.leb_gt. lia.
    + right. apply Nat.leb_gt. lia.
  - apply Ascii.eqb_neq. intros ->.
    change (nat_of_ascii "+") with 43%nat in H1. lia.
  - apply Ascii.eqb_neq. intros ->.
    change (nat_of_ascii "-") with 45%nat in H1. lia.
Qed.

(** The decimal digits of a positive number, put in front of digits, are
    read back as the number followed by those digits. *)
Lemma parse_pretty_go (x : N) :
  forall s, (0 < x)%N ->
    parse_digits (pretty_N_go x s) 0 false = parse_digits s (Z.of_N x) true
    /\ (all_digits s = true -> all_digits (pretty_N_go x s) = true)
    /\ exists c rest d, pretty_N_go x s = String c rest /\ digit_val c = Some d.
Proof.
  induction (N.lt_wf_0 x) as [x _ IH]. intros s Hx.
  rewrite pretty_N_go_step by exact Hx.
  pose proof (digit_val_char (x mod 10)%N ltac:(apply N.mod_lt; lia)) as Hd.
  assert (Hdm : (x = 10 * (x / 10) + x mod 10)%N) by (apply N.div_mod; lia).
  destruct (N.eq_dec (x / 10)%N 0%N) as [H0 | Hpos].
  - rewrite H0, pretty_N_go_0. split; [|split].
    + cbn [parse_digits]. rewrite Hd. f_equal.
      rewrite H0 in Hdm. lia.
    + intros Hs. cbn [all_digits]. now rewrite Hd.
    + eauto.
  - assert (Hq : (0 < x / 10)%N) by (apply N.neq_0_lt_0; exact Hpos).
    destruct (IH (x / 10)%N ltac:(apply N.div_lt; lia)
                (String (pretty_N_char (x mod 10)%N) s) Hq)
      as (Hp & Ha & Hc).
    split; [|split]; [| |exact Hc].
    + rewrite Hp. cbn [parse_digits]. rewrite Hd. f_equal.
      lia.
    + intros Hs. apply Ha. cbn [all_digits]. now rewrite Hd.
Qed.

Lemma all_digits_chars (s : string) (c : ascii) :
  all_digits s = true -> In c (list_ascii_of_string s) ->
  exists d, digit_val c = Some d.
Proof.
  induction s as [|a s IH]; cbn; [intros _ []|].
  destruct (digit_val a) as [d|] eqn:Ha; [|discriminate].
  intros Hs [<- | Hin]; eauto.
Qed.

Lemma py_int_pretty_pos (p : positive) :
  py_int (pretty (Z.pos p)) = Some (Z.pos p)
  /\ py_int (pretty (Z.neg p)) = Some (Z.neg p).
Proof.
  destruct (parse_pretty_go (N.pos p) "" ltac:(lia)) as (Hp & Ha & c & rest & d & Hs & Hd).
  specialize (Ha eq_refl).
  assert (Hpretty : pretty (N.pos p) = pretty_N_go (N.pos p) "") by reflexivity.
  assert (Hspace : forall a, In a (list_ascii_of_string (pretty_N_go (N.pos p) ""))
                             -> is_space a = false).
  { intros a Hin. destruct (all_digits_chars _ _ Ha Hin) as [k Hk].
    now apply digit_not_space in Hk. }
  destruct (digit_not_space c d Hd) as (_ & Hplus & Hminus).
  split.
  - change (pretty (Z.pos p)) with (pretty (N.pos p)). rewrite Hpretty.
    unfold py_int. rewrite strip_none by exact Hspace.
    rewrite Hs, Hplus, Hminus, <- Hs, Hp. reflexivity.
  - change (pretty (Z.neg p)) with ("-" +:+ pretty (N.pos p)). rewrite Hpretty.
    unfold py_int. rewrite strip_none.
    + change ("-" +:+ pretty_N_go (N.pos p) "")
        with (String "-" (pretty_N_go (N.pos p) "")).
      cbn [Ascii.eqb Bool.eqb]. rewrite Hp. reflexivity.
    + intros a [<- | Hin]; [reflexivity | now apply Hspace].
Qed.

(** [int(str(n)) = n] *)
Lemma py_int_pretty (z : Z) : py_int (pretty z) = Some z.
Proof.
  destruct z as [|p|p]; [reflexivity | apply py_int_pretty_pos..].
Qed.

Lemma pretty_truthy (z : Z) : truthy (pretty z) = true.
Proof.
  destruct (pretty z) eqn:H; [|reflexivity].
  pose proof (py_int_pretty z) as Hz. rewrite H in Hz. discriminate.
Qed.

End NumberFacts.

(** ** The parts store: metadata, statistics, footprints, tuning *)

Module StoreFacts.
Import PyStr PyStrFacts Parts Store Opening NumberFacts.

(** X1: a value stored with [set_metadata] is what [get_metadata] returns
    for that key afterwards; every other key reads as before; the call ends
    with no transaction open, so that writes pending on the connection are
    committed with it; and the rows, the secondary indexes and the full-text
    index are those the connection saw before the call. *)
Theorem metadata_set_then_get (c : conn) (key value : string) :
  let c' := set_metadata c key value in
  get_metadata c' key = Some value
  /\ (forall other, other <> key -> get_metadata c' other = get_metadata c other)
  /\ in_tx c' = None
  /\ components (committed c') = components (visible c)
  /\ indexes (committed c') = indexes (visible c)
  /\ fts (committed c') = fts (visible c).
Proof.
  cbv zeta. unfold set_metadata, get_metadata, commit, exec, visible.
  destruct (in_tx c) as [s|]; cbn [in_tx committed default put_metadata metadata
    components indexes fts]; repeat split;
    try apply lookup_insert_eq; intros other Hne; now apply lookup_insert_ne.
Qed.

Lemma env_int_unset (env : gmap string string) (name : string) (auto : Z) :
  env !! name = None -> env_int env name auto = Some auto.
Proof. unfold env_int. intros ->. apply py_int_pretty. Qed.

Lemma env_int_set (env : gmap string string) (name : string) (auto v : Z) :
  env !! name = Some (pretty v) -> env_int env name auto = Some v.
Proof. unfold env_int. intros ->. apply py_int_pretty. Qed.

(** X2: when none of the four tuning variables is set in the environment,
    [_auto_import_tuning] returns (the text of each default reads back as the
    number it was made from) the settings of the memory tier: the batch size
    is the tier's incremental or full batch, between 25000 and 250000, so the
    floor of 1000 never applies; the thread count is between 1 and 16 and is
    at most the detected CPU count; the cache size is negative, a size in
    KiB; the memory map is at least 128 MiB. *)
Theorem tuning_defaults_follow_the_memory_tier
    (os_cpu_count : option Z) (total_memory : Z) (env : gmap string string)
    (incremental_since : option Z) :
  env !! "JLCPCB_IMPORT_BATCH_SIZE" = None ->
  env !! "JLCPCB_IMPORT_THREADS" = None ->
  env !! "JLCPCB_IMPORT_CACHE_KB" = None ->
  env !! "JLCPCB_IMPORT_MMAP_BYTES" = None ->
  exists t,
    _auto_import_tuning os_cpu_count total_memory env incremental_since = Some t
    /\ batchSize t
       = (match incremental_since with
          | Some _ => inc_batch (memory_tier total_memory)
          | None => full_batch (memory_tier total_memory)
          end)
    /\ 25000 <= batchSize t <= 250000
    /\ 1 <= threads t <= 16
    /\ threads t <= _detect_cpu_count os_cpu_count
    /\ cacheSizeKb t = cache_kb (memory_tier total_memory)
    /\ cacheSizeKb t < 0
    /\ mmapSizeBytes t = mmap_bytes (memory_tier total_memory)
    /\ 128 * 1024 * 1024 <= mmapSizeBytes t.
Proof.
  intros Hb Ht Hc Hm. unfold _auto_import_tuning.
  rewrite (env_int_unset _ _ _ Hb), (env_int_unset _ _ _ Ht),
    (env_int_unset _ _ _ Hc), (env_int_unset _ _ _ Hm).
  cbn [mbind option_bind]. eexists. split; [reflexivity|].
  cbn [batchSize threads cacheSizeKb mmapSizeBytes].
  assert (Hcpu : 1 <= _detect_cpu_count os_cpu_count)
    by (unfold _detect_cpu_count; lia).
  unfold memory_tier.
  destruct (32 * GiB <=? total_memory); [|destruct (16 * GiB <=? total_memory);
    [|destruct (8 * GiB <=? total_memory)]];
    cbn [full_batch inc_batch cache_kb mmap_bytes thread_cap];
    destruct incremental_since; repeat split; lia.
Qed.

(** X3: whatever the environment holds, a tuning that is returned has a
    batch size of at least 1000 and at least one thread; a batch size and a
    thread count given in the environment as integer text are taken as they
    are above those floors, the thread count not being capped by the memory
    tier or the CPU count; and a variable whose text is not an integer makes
    the call raise. *)
Theorem tuning_overrides_are_floored_not_capped
    (os_cpu_count : option Z) (total_memory : Z) (env : gmap string string)
    (incremental_since : option Z) :
  let run :=
    _auto_import_tuning os_cpu_count total_memory env incremental_since in
  (forall t, run = Some t -> 1000 <= batchSize t /\ 1 <= threads t)
  /\ (forall t batch thr,
        env !! "JLCPCB_IMPORT_BATCH_SIZE" = Some (pretty batch) ->
        env !! "JLCPCB_IMPORT_THREADS" = Some (pretty thr) ->
        run = Some t ->
        batchSize t = Z.max 1000 batch /\ threads t = Z.max 1 thr)
  /\ (forall name text,
        In name ["JLCPCB_IMPORT_BATCH_SIZE"; "JLCPCB_IMPORT_THREADS";
                 "JLCPCB_IMPORT_CACHE_KB"; "JLCPCB_IMPORT_MMAP_BYTES"] ->
        env !! name = Some text -> py_int text = None ->
        run = None).
Proof.
  cbv zeta. unfold _auto_import_tuning. split; [|split].
  - intros t H.
    destruct (env_int env "JLCPCB_IMPORT_BATCH_SIZE" _); [|discriminate].
    destruct (env_int env "JLCPCB_IMPORT_THREADS" _); [|discriminate].
    destruct (env_int env "JLCPCB_IMPORT_CACHE_KB" _); [|discriminate].
    destruct (env_int env "JLCPCB_IMPORT_MMAP_BYTES" _); [|discriminate].
    cbn in H. injection H as <-. cbn. lia.
  - intros t batch thr Hb Ht H.
    rewrite (env_int_set _ _ _ _ Hb), (env_int_set _ _ _ _ Ht) in H.
    destruct (env_int env "JLCPCB_IMPORT_CACHE_KB" _); [|discriminate].
    destruct (env_int env "JLCPCB_IMPORT_MMAP_BYTES" _); [|discriminate].
    cbn in H. injection H as <-. cbn. split; reflexivity.
  - intros name text Hname Hset Hbad.
    assert (Hnone : forall auto, env_int env name auto = None).
    { intros auto. unfold env_int. rewrite Hset. exact Hbad. }
    destruct Hname as [<- | [<- | [<- | [<- | []]]]]; rewrite Hnone;
      repeat (destruct (env_int _ _ _); cbn [mbind option_bind]);
      reflexivity.
Qed.

(** X4: the memory tiers are ordered: a machine with more memory never gets
    a smaller full or incremental batch, a smaller cache, a smaller memory
    map or a lower thread cap; and in every tier the incremental batch is
    smaller than the full batch. *)
Theorem memory_tier_is_monotone (m1 m2 : Z) :
  m1 <= m2 ->
  full_batch (memory_tier m1) <= full_batch (memory_tier m2)
  /\ inc_batch (memory_tier m1) <= inc_batch (memory_tier m2)
  /\ cache_kb (memory_tier m2) <= cache_kb (memory_tier m1)
  /\ mmap_bytes (memory_tier m1) <= mmap_bytes (memory_tier m2)
  /\ thread_cap (memory_tier m1) <= thread_cap (memory_tier m2)
  /\ inc_batch (memory_tier m1) < full_batch (memory_tier m1).
Proof.
  intros Hle. unfold memory_tier, GiB.
  repeat match goal with
         | |- context [?a <=? ?b] => destruct (Z.leb_spec a b)
         end;
    cbn [full_batch inc_batch cache_kb mmap_bytes thread_cap]; lia.
Qed.


Lemma disjoint_filters_length {A} (f g : A -> bool) (l : list A) :
  (forall x, f x = true -> g x = false) ->
  (length (List.filter f l) + length (List.filter g l) <= length l)%nat.
Proof.
  intros Hfg. induction l as [|x l IH]; cbn [List.filter length]; [lia|].
  destruct (f x) eqn:Hf; [rewrite (Hfg x Hf)|destruct (g x)]; cbn [length]; lia.
Qed.

Lemma filter_length_le {A} (f : A -> bool) (l : list A) :
  (length (List.filter f l) <= length l)%nat.
Proof.
  induction l as [|x l IH]; cbn [List.filter length]; [lia|].
  destruct (f x); cbn [length]; lia.
Qed.

Lemma filter_all {A} (l : list A) : List.filter (fun _ => true) l = l.
Proof. induction l as [|x l IH]; cbn; [reflexivity | now rewrite IH]. Qed.

(** X5: the counts of [get_database_stats] fit together: the total is the
    number of rows; the Basic and the Extended count together do not exceed
    it (what is missing are the rows of any other tier, such as Preferred);
    the in-stock count does not exceed it; no count is negative; and
    [has_parts] answers true exactly when the total is positive. *)
Theorem stats_counts_are_consistent (c : conn) :
  let s := get_database_stats c in
  total_parts s = Z.of_nat (length (components (visible c)))
  /\ 0 <= basic_parts s /\ 0 <= extended_parts s /\ 0 <= in_stock s
  /\ basic_parts s + extended_parts s <= total_parts s
  /\ in_stock s <= total_parts s
  /\ (has_parts c = true <-> 0 < total_parts s).
Proof.
  cbv zeta. unfold get_database_stats, count_where, has_parts.
  cbn [total_parts basic_parts extended_parts in_stock].
  set (rows := map snd (components (visible c))).
  rewrite filter_all.
  assert (Hlen : length rows = length (components (visible c)))
    by apply length_map.
  pose proof (disjoint_filters_length
                (fun p => String.eqb (library_type p) "Basic")
                (fun p => String.eqb (library_type p) "Extended") rows) as Hbe.
  pose proof (filter_length_le (fun p => 0 <? stock p) rows) as Hst.
  repeat split; try lia.
  - apply Nat2Z.inj_le in Hbe; [lia|]. intros x Hx.
    apply String.eqb_eq in Hx. rewrite Hx. reflexivity.
  - destruct (components (visible c)); [discriminate | cbn in *; lia].
  - destruct (components (visible c)); [cbn in *; lia | reflexivity].
Qed.

(** A text that contains a key contains every prefix of the key. *)
Lemma contains_shorter (short rest haystack : string) :
  contains (short +:+ rest) haystack = true -> contains short haystack = true.
Proof.
  induction haystack as [|c s IH]; cbn [contains]; intros H;
    apply orb_true_iff in H; apply orb_true_iff.
  - destruct H as [H | H]; [|discriminate]. left.
    apply prefix_append in H. destruct H as [tail Ht].
    rewrite append_assoc in Ht. rewrite Ht. apply prefix_of_append.
  - destruct H as [H | H]; [left | right; now apply IH].
    apply prefix_append in H. destruct H as [tail Ht].
    rewrite append_assoc in Ht. rewrite Ht. apply prefix_of_append.
Qed.

(** X6: the [SOT-23-5] and [SOT-23-6] entries of the footprint table are
    never used: the entries are tried in the order of the table and the key
    [SOT-23], which comes first, occurs in every package name in which one
    of the longer keys occurs.  So no package maps to the five-pin or the
    six-pin footprint, and the package named [SOT-23-5] gets the three-pin
    footprints. *)
Theorem sot23_variants_are_shadowed (package : string) :
  map_package_to_footprint package <> ["Package_TO_SOT_SMD:SOT-23-5"]
  /\ map_package_to_footprint package <> ["Package_TO_SOT_SMD:SOT-23-6"]
  /\ map_package_to_footprint "SOT-23-5"
     = ["Package_TO_SOT_SMD:SOT-23"; "Package_TO_SOT_SMD:SOT-23-3"]
  /\ map_package_to_footprint " sot-23-6 "
     = ["Package_TO_SOT_SMD:SOT-23"; "Package_TO_SOT_SMD:SOT-23-3"].
Proof.
  split; [|split; [|split; reflexivity]];
    unfold map_package_to_footprint, mappings;
    generalize (py_upper (strip package)); intros pn;
    cbn [first_mapping];
    repeat match goal with
           | |- context [py_upper (String ?a ?k)] =>
               let v := eval vm_compute in (py_upper (String a k)) in
               change (py_upper (String a k)) with v
           end;
    pose proof (contains_shorter "SOT-23" "-5" pn) as H5;
    pose proof (contains_shorter "SOT-23" "-6" pn) as H6;
    change ("SOT-23" +:+ "-5") with "SOT-23-5" in H5;
    change ("SOT-23" +:+ "-6") with "SOT-23-6" in H6;
    repeat match goal with
           | |- context [if contains ?k pn then _ else _] =>
               destruct (contains k pn) eqn:?; try discriminate
           end;
    try (specialize (H5 eq_refl)); try (specialize (H6 eq_refl)); congruence.
Qed.


(** X29: opening a database file with [_init_database] loses nothing
    and is idempotent: the rows, the metadata and the full-text index are
    those of the file, every index the file had is kept, the five secondary
    indexes exist afterwards, no transaction is left open, and opening the
    resulting file again gives the same state.  Opening a file that was
    never written to gives the empty catalog with its five indexes. *)
Theorem init_database_keeps_the_file (file : snapshot) :
  let c := _init_database file in
  in_tx c = None
  /\ components (committed c) = components file
  /\ metadata (committed c) = metadata file
  /\ fts (committed c) = fts file
  /\ indexes file ⊆ indexes (committed c)
  /\ list_to_set component_index_names ⊆ indexes (committed c)
  /\ _init_database (committed c) = c
  /\ committed (_init_database empty_file) = Scenarios.fresh_snapshot.
Proof.
  cbv zeta. unfold _init_database, commit, exec, visible.
  cbn [in_tx committed default _create_component_indexes set_indexes
       set_updated components metadata fts indexes updated_lcsc].
  repeat split.
  - apply union_subseteq_l.
  - apply union_subseteq_r.
  - assert (Hidem : forall X K : gset string, X ∪ K ∪ K = X ∪ K)
      by (intros X K; rewrite <- (assoc_L (∪)); now rewrite (idemp_L (∪))).
    unfold _create_component_indexes, set_indexes, set_updated.
    cbn [components indexes fts metadata updated_lcsc]. now rewrite Hidem.
Qed.

Lemma tuning_defaults_follow_the_memory_tier_witness :
  exists t,
    _auto_import_tuning (Some 8) (16 * GiB) ∅ None = Some t
    /\ batchSize t = 150000.
Proof.
  destruct (tuning_defaults_follow_the_memory_tier (Some 8) (16 * GiB) ∅ None
              (lookup_empty _) (lookup_empty _) (lookup_empty _)
              (lookup_empty _)) as (t & Hrun & Hbatch & _).
  exists t. split; [exact Hrun | exact Hbatch].
Defined.

Lemma memory_tier_is_monotone_witness :
  full_batch (memory_tier (8 * GiB)) <= full_batch (memory_tier (32 * GiB))
  /\ inc_batch (memory_tier (8 * GiB)) <= inc_batch (memory_tier (32 * GiB))
  /\ cache_kb (memory_tier (32 * GiB)) <= cache_kb (memory_tier (8 * GiB))
  /\ mmap_bytes (memory_tier (8 * GiB)) <= mmap_bytes (memory_tier (32 * GiB))
  /\ thread_cap (memory_tier (8 * GiB)) <= thread_cap (memory_tier (32 * GiB))
  /\ inc_batch (memory_tier (8 * GiB)) < full_batch (memory_tier (8 * GiB)).
Proof.
  apply (memory_tier_is_monotone (8 * GiB) (32 * GiB)). vm_compute. discriminate.
Defined.

End StoreFacts.

(** ** The import step of the snapshot sync *)

Module SyncFacts.
Import PyStr PyStrFacts Parts Store NumberFacts.

Lemma filter_none {A} (f : A -> bool) (l : list A) :
  (forall x, In x l -> f x = false) -> List.filter f l = [].
Proof.
  induction l as [|x l IH]; intros H; cbn [List.filter]; [reflexivity|].
  rewrite (H x (or_introl eq_refl)). apply IH. intros y Hy. apply H. now right.
Qed.

(** No row is newer than the newest row. *)
Lemma no_row_newer_than_max (src : source_db) (in_stock_only : bool) (m : Z) :
  source_max_last_update src = Some m ->
  List.filter (row_selected (has_last_col src) in_stock_only (Some m))
    (source_rows src) = [].
Proof.
  unfold source_max_last_update.
  destruct (has_last_col src); [|discriminate]. intros Hmax.
  pose proof (ImportFacts.fold_max_opt_spec (map src_last_update (source_rows src)))
    as Hspec.
  rewrite Hmax in Hspec. destruct Hspec as [_ Hle].
  apply filter_none. intros r Hr. unfold row_selected.
  destruct (src_last_update r) as [z|] eqn:Hz; [|apply andb_false_r].
  assert (z <= m) by (apply Hle; rewrite <- Hz; now apply in_map).
  replace (m <? z) with false by (symmetry; apply Z.ltb_ge; lia).
  apply andb_false_r.
Qed.

Lemma put_metadata_twice (key value : string) (s : snapshot) :
  put_metadata key value (put_metadata key value s) = put_metadata key value s.
Proof.
  unfold put_metadata. cbn [components indexes fts metadata updated_lcsc].
  now rewrite insert_insert_eq.
Qed.

Section Sync.
Variable now_ts : Z.
Variable batch_size : nat.
Variable write_fault : Z -> option nat.

(** The watermark a completed import body returns is the newest last
    update of the source. *)
Lemma import_body_watermark (c : conn) (src : source_db)
    (selected : list source_row) (incremental_since : option Z)
    (c' : conn) (r : import_result) :
  import_body now_ts batch_size write_fault c src selected incremental_since
  = (c', inr r) ->
  max_last_update r = source_max_last_update src.
Proof.
  unfold import_body. destruct (begin_immediate c) as [c0|]; [|discriminate].
  destruct (ingest _ _ _ _ _ _ _ _ _) as [s2 [e | [batch n]]]; [discriminate|].
  destruct batch as [|p batch].
  - intros H. injection H as _ <-. reflexivity.
  - destruct (write_batch _ _ _ _ _) as [s3 [e|]]; [discriminate|].
    intros H. injection H as _ <-. reflexivity.
Qed.

(** With the watermark an import returned, the same source has nothing
    newer, and the watermark is what an import that selects nothing
    returns again. *)
Lemma returned_watermark_is_stable (c : conn) (src : source_db)
    (incremental_since : option Z) (c' : conn) (r : import_result) (m : Z) :
  import_yaqwsx_cache now_ts batch_size write_fault c src false incremental_since
  = (c', inr r) ->
  max_last_update r = Some m ->
  List.filter (row_selected (has_last_col src) false (Some m)) (source_rows src)
  = []
  /\ or_int (source_max_last_update src) m = m.
Proof.
  unfold import_yaqwsx_cache.
  set (selected := List.filter _ _).
  assert (Hbody : forall done,
    match import_body now_ts batch_size write_fault c src selected
            incremental_since with
    | (c'', inl e) => (rollback (exec _create_component_indexes c''), inl e)
    | done' => done'
    end = done -> done = (c', inr r) -> max_last_update r = Some m ->
    List.filter (row_selected (has_last_col src) false (Some m)) (source_rows src)
    = []
    /\ or_int (source_max_last_update src) m = m).
  { intros done Hdone -> Hm.
    destruct (import_body _ _ _ _ _ _ _) as [c'' [e|r']] eqn:Hrun;
      [discriminate|].
    injection Hdone as -> ->.
    apply import_body_watermark in Hrun. rewrite Hm in Hrun. symmetry in Hrun.
    split; [now apply no_row_newer_than_max|].
    rewrite Hrun. unfold or_int. now destruct (m =? 0). }
  destruct incremental_since as [since|]; [|intros H; now apply (Hbody _ H)].
  destruct (Z.of_nat (length selected) =? 0) eqn:Hzero;
    [|intros H; now apply (Hbody _ H)].
  intros H Hm. injection H as _ <-. cbn [max_last_update] in Hm.
  injection Hm as Hm.
  assert (Hnone : selected = []).
  { apply Z.eqb_eq in Hzero. destruct selected; [reflexivity | cbn in Hzero; lia]. }
  destruct (source_max_last_update src) as [k|] eqn:Hmax; cbn [or_int] in *.
  - destruct (Z.eqb_spec k 0) as [-> | Hk].
    + subst m. split; [exact Hnone|]. reflexivity.
    + subst m. split; [now apply no_row_newer_than_max|].
      now destruct (Z.eqb_spec k 0).
  - subst m. split; [exact Hnone | reflexivity].
Qed.

(** X7: the import step of the snapshot sync is idempotent.  When a step
    has succeeded and the import returned a watermark, the same step run
    again on the same snapshot finds the stored watermark, selects no row,
    imports nothing, returns the same watermark, and leaves the connection
    as the first step left it. *)
Theorem second_sync_of_the_same_snapshot_is_a_no_op
    (c : conn) (src : source_db) (c1 : conn) (r : import_result) (m : Z) :
  import_snapshot_step now_ts batch_size write_fault c src = (c1, inr r) ->
  max_last_update r = Some m ->
  get_metadata c1 WATERMARK_KEY = Some (pretty m)
  /\ import_snapshot_step now_ts batch_size write_fault c1 src
     = (c1, inr {| imported := 0; total := 0; max_last_update := Some m |}).
Proof.
  unfold import_snapshot_step at 1.
  destruct (read_watermark c) as [since|]; [|discriminate].
  destruct (import_yaqwsx_cache _ _ _ _ _ _ _) as [c' [e|r']] eqn:Hrun;
    [discriminate|].
  intros Hstep Hm.
  assert (r' = r) as ->.
  { destruct (max_last_update r'); now injection Hstep as _ <-. }
  rewrite Hm in Hstep. injection Hstep as <-.
  destruct (returned_watermark_is_stable _ _ _ _ _ _ Hrun Hm) as [Hnone Hor].
  assert (Hget : get_metadata (set_metadata c' WATERMARK_KEY (pretty m))
                   WATERMARK_KEY = Some (pretty m)).
  { unfold get_metadata, set_metadata, commit, exec, visible.
    destruct (in_tx c'); cbn; apply lookup_insert_eq. }
  split; [exact Hget|].
  unfold import_snapshot_step, read_watermark. rewrite Hget.
  rewrite pretty_truthy, py_int_pretty. cbn [fmap option_fmap option_map].
  unfold import_yaqwsx_cache. rewrite Hnone. cbn [length Z.of_nat Z.eqb].
  rewrite Hor. cbn [max_last_update]. f_equal.
  unfold set_metadata, commit, exec, visible.
  destruct (in_tx c'); cbn [in_tx committed default id]; unfold id;
    now rewrite put_metadata_twice.
Qed.

End Sync.


(** The first sync of a fresh store from a snapshot whose newest row is of
    150, and the second. *)
Lemma second_sync_of_the_same_snapshot_is_a_no_op_witness :
  let first :=
    import_snapshot_step 1700000000 1000 Scenarios.no_fault Scenarios.test_conn
      Scenarios.fresh_source in
  get_metadata first.1 WATERMARK_KEY = Some "150"
  /\ import_snapshot_step 1700000000 1000 Scenarios.no_fault first.1
       Scenarios.fresh_source
     = (first.1, inr {| imported := 0; total := 0; max_last_update := Some 150 |}).
Proof.
  cbv zeta.
  apply (second_sync_of_the_same_snapshot_is_a_no_op 1700000000 1000
           Scenarios.no_fault Scenarios.test_conn Scenarios.fresh_source _
           {| imported := 2; total := 2; max_last_update := Some 150 |} 150).
  - vm_compute. reflexivity.
  - reflexivity.
Defined.

End SyncFacts.

(** ** The parts store: what an import leaves in the catalog *)

Module CatalogFacts.
Import PyStr PyStrFacts Parts Store Views SyncFacts.

Lemma filter_filter_absorb {A} (g h : A -> bool) (l : list A) :
  (forall x, g x = true -> h x = true) ->
  List.filter g (List.filter h l) = List.filter g l.
Proof.
  intros Hgh. induction l as [|x l IH]; cbn [List.filter]; [reflexivity|].
  destruct (h x) eqn:Hh; cbn [List.filter].
  - now rewrite IH.
  - destruct (g x) eqn:Hg; [|exact IH]. rewrite (Hgh x Hg) in Hh. discriminate.
Qed.

Lemma kept_lookup (rows : list (Z * part)) (p : part) (k : string) :
  List.filter (has_key k)
    (map snd (List.filter
                (fun r => negb (String.eqb (lcsc (snd r)) (lcsc p))) rows))
  = if has_key k p then [] else List.filter (has_key k) (map snd rows).
Proof.
  induction rows as [|r rows IH]; cbn [List.filter map].
  - now destruct (has_key k p).
  - unfold has_key in *.
    destruct (String.eqb_spec (lcsc (snd r)) (lcsc p)) as [Hrp | Hrp];
      cbn [negb List.filter map]; rewrite IH;
      destruct (String.eqb_spec (lcsc p) k) as [Hpk | Hpk];
      destruct (String.eqb_spec (lcsc (snd r)) k) as [Hrk | Hrk];
      try reflexivity; congruence.
Qed.

(** The rows with a given key after one upsert. *)
Lemma upsert_lookup (rows : list (Z * part)) (p : part) (k : string) :
  List.filter (has_key k) (map snd (upsert rows p))
  = if has_key k p then [p] else List.filter (has_key k) (map snd rows).
Proof.
  unfold upsert. rewrite map_app, List.filter_app, kept_lookup.
  cbn [map List.filter snd]. destruct (has_key k p); [reflexivity|].
  apply app_nil_r.
Qed.

(** The last row of a batch with a given key, if any. *)
Lemma last_filter_cons (k : string) (p : part) (parts : list part) :
  last (List.filter (has_key k) (p :: parts))
  = match last (List.filter (has_key k) parts) with
    | Some q => Some q
    | None => if has_key k p then Some p else None
    end.
Proof.
  cbn [List.filter]. destruct (has_key k p); [|now destruct (last _)].
  destruct (List.filter (has_key k) parts) as [|q l]; [reflexivity|].
  rewrite last_cons. now destruct (last (q :: l)) eqn:H.
Qed.

(** Upserting a batch: the rows with a given key are the last row of the
    batch with that key alone, or the rows that were there. *)
Lemma fold_upsert_lookup (parts : list part) (k : string) :
  forall rows,
    List.filter (has_key k) (map snd (fold_left upsert parts rows))
    = match last (List.filter (has_key k) parts) with
      | Some p => [p]
      | None => List.filter (has_key k) (map snd rows)
      end.
Proof.
  induction parts as [|p parts IH]; intros rows; [reflexivity|].
  cbn [fold_left]. rewrite IH, last_filter_cons, upsert_lookup.
  destruct (last (List.filter (has_key k) parts)); [reflexivity|].
  now destruct (has_key k p).
Qed.

Lemma key_in_map (parts : list part) (p : part) :
  In p parts -> key_in (map lcsc parts) (lcsc p) = true.
Proof.
  intros Hin. unfold key_in. apply existsb_exists. exists (lcsc p).
  split; [now apply in_map | apply String.eqb_refl].
Qed.

(** Upserting rows whose keys are all in [ks] leaves the rows with other
    keys as they are: same rowid, same content, same order. *)
Lemma fold_upsert_others (ks : list string) (parts : list part) :
  (forall p, In p parts -> key_in ks (lcsc p) = true) ->
  forall rows,
    List.filter (fun r => negb (key_in ks (row_key r)))
      (fold_left upsert parts rows)
    = List.filter (fun r => negb (key_in ks (row_key r))) rows.
Proof.
  induction parts as [|p parts IH]; intros Hks rows; [reflexivity|].
  cbn [fold_left]. rewrite IH by (intros q Hq; apply Hks; now right).
  unfold upsert. rewrite List.filter_app. cbn [List.filter].
  unfold row_key at 2. cbn [snd].
  rewrite (Hks p (or_introl eq_refl)). cbn [negb]. rewrite app_nil_r.
  apply filter_filter_absorb. intros r Hr.
  apply negb_true_iff in Hr. apply negb_true_iff.
  apply String.eqb_neq. intros Heq. unfold row_key in Hr.
  rewrite Heq, (Hks p (or_introl eq_refl)) in Hr. discriminate.
Qed.

Lemma rowids_below_next (rows : list (Z * part)) :
  Forall (fun r => fst r < next_rowid rows) rows.
Proof.
  unfold next_rowid.
  assert (H : forall l acc, acc <= fold_left Z.max l acc
                            /\ Forall (fun z => z <= fold_left Z.max l acc) l).
  { induction l as [|z l IH]; intros acc; cbn [fold_left].
    - split; [lia | constructor].
    - destruct (IH (Z.max acc z)) as [Hacc Hall]. split; [lia|].
      constructor; [lia | exact Hall]. }
  destruct (H (map fst rows) 0) as [_ Hall].
  rewrite List.Forall_forall in *. intros r Hr.
  specialize (Hall (fst r) (in_map fst _ _ Hr)). lia.
Qed.

Lemma sorted_filter_snoc (keep : Z * part -> bool) (rows : list (Z * part))
    (n : Z) :
  StronglySorted Z.lt (map fst rows) ->
  Forall (fun r => fst r < n) rows ->
  StronglySorted Z.lt (map fst (List.filter keep rows) ++ [n]).
Proof.
  induction rows as [|r rows IH]; cbn [List.filter map app]; intros Hids Hn.
  - repeat constructor.
  - apply StronglySorted_inv in Hids. destruct Hids as [Hids Hr].
    inversion Hn as [|? ? Hrn Hrest]; subst.
    destruct (keep r); cbn [map app]; [|now apply IH].
    constructor; [now apply IH|].
    apply List.Forall_app. split; [|repeat constructor; assumption].
    rewrite List.Forall_forall in *. intros z Hz. apply Hr.
    apply in_map_iff in Hz. destruct Hz as (x & <- & Hx).
    apply filter_In in Hx. now apply in_map.
Qed.

(** An upsert keeps the keys distinct and the rowids increasing. *)
Lemma upsert_keeps_table_shape (rows : list (Z * part)) (p : part) :
  NoDup (map row_key rows) -> StronglySorted Z.lt (map fst rows) ->
  NoDup (map row_key (upsert rows p))
  /\ StronglySorted Z.lt (map fst (upsert rows p)).
Proof.
  intros Hkeys Hids. unfold upsert.
  set (keep := fun r : Z * part => negb (String.eqb (lcsc (snd r)) (lcsc p))).
  rewrite !map_app. cbn [map fst]. split.
  - apply NoDup_app. split; [|split].
    + eapply sublist_NoDup; [exact Hkeys|].
      apply (fmap_sublist row_key), SearchFacts.filter_sublist.
    + intros k Hk Hk'. apply list_elem_of_In in Hk, Hk'.
      destruct Hk' as [<- | []]. apply in_map_iff in Hk.
      destruct Hk as (r & Hr & Hin). apply filter_In in Hin.
      destruct Hin as [_ Hkeep]. unfold keep, row_key in *.
      cbn [snd] in Hr. rewrite Hr, String.eqb_refl in Hkeep. discriminate.
    + apply NoDup_singleton.
  - apply sorted_filter_snoc; [exact Hids | apply rowids_below_next].
Qed.

Lemma fold_upsert_keeps_table_shape (parts : list part) :
  forall rows,
    NoDup (map row_key rows) -> StronglySorted Z.lt (map fst rows) ->
    NoDup (map row_key (fold_left upsert parts rows))
    /\ StronglySorted Z.lt (map fst (fold_left upsert parts rows)).
Proof.
  induction parts as [|p parts IH]; intros rows Hk Hs; [now split|].
  cbn [fold_left]. destruct (upsert_keeps_table_shape rows p Hk Hs).
  now apply IH.
Qed.

Lemma fold_upsert_In (parts : list part) (q : part) :
  forall rows,
    In q (map snd (fold_left upsert parts rows)) ->
    In q parts \/ In q (map snd rows).
Proof.
  induction parts as [|p parts IH]; intros rows Hq; [now right|].
  cbn [fold_left] in Hq. apply IH in Hq. destruct Hq as [Hq | Hq].
  - left. now right.
  - unfold upsert in Hq. rewrite map_app in Hq. apply in_app_or in Hq.
    destruct Hq as [Hq | [<- | []]]; [right | left; now left].
    apply in_map_iff in Hq. destruct Hq as (r & <- & Hr).
    apply filter_In in Hr. now apply in_map.
Qed.

Lemma convert_row_tier (now_ts : Z) (last_col : bool) (r : source_row)
    (p : part) :
  convert_row now_ts last_col r = Some p -> known_tier p.
Proof.
  unfold convert_row, known_tier. intros H.
  destruct (int_or_zero (src_basic r)) as [b|]; [|discriminate].
  destruct (int_or_zero (src_preferred r)) as [pr|]; [|discriminate].
  destruct (int_or_zero (src_joints r)); [|discriminate].
  destruct (int_or_zero (src_stock r)); [|discriminate].
  cbn in H. injection H as <-. cbn [library_type].
  destruct (pr =? 0), (b =? 0); cbn [negb]; auto.
Qed.

Lemma convert_all_tier (now_ts : Z) (last_col : bool) (rows : list source_row) :
  forall parts,
    convert_all now_ts last_col rows = Some parts -> Forall known_tier parts.
Proof.
  induction rows as [|r rows IH]; intros parts H; cbn [convert_all] in H.
  - injection H as <-. constructor.
  - destruct (convert_row now_ts last_col r) as [p|] eqn:Hp; [|discriminate].
    destruct (convert_all now_ts last_col rows) as [ps|]; [|discriminate].
    injection H as <-. constructor; [now apply convert_row_tier in Hp | now apply IH].
Qed.

Lemma three_tier_count (l : list part) :
  Forall known_tier l ->
  length l
  = (length (List.filter (fun p => String.eqb (library_type p) "Basic") l)
     + length (List.filter (fun p => String.eqb (library_type p) "Extended") l)
     + length (List.filter (fun p => String.eqb (library_type p) "Preferred") l))%nat.
Proof.
  induction 1 as [|p l Hp _ IH]; cbn [List.filter length]; [reflexivity|].
  destruct Hp as [-> | [-> | ->]]; cbn [String.eqb Ascii.eqb Bool.eqb length];
    lia.
Qed.

Section Importer.
Variable now_ts : Z.
Variable batch_size : nat.
Variable write_fault : Z -> option nat.

Lemma write_batch_frame (incremental : bool) (s : snapshot) (batch : list part)
    (n : Z) :
  metadata (write_batch write_fault incremental s batch n).1 = metadata s
  /\ fts (write_batch write_fault incremental s batch n).1 = fts s.
Proof.
  unfold write_batch. destruct (write_fault n); [now split|].
  now destruct incremental.
Qed.

(** The import loop writes rows only: the metadata table and the
    full-text index are as they were when it ends, however it ends. *)
Lemma ingest_frame (last_col incremental : bool) (rows : list source_row) :
  forall (s : snapshot) (batch : list part) (n : Z),
    metadata (ingest now_ts batch_size write_fault last_col incremental rows
                s batch n).1 = metadata s
    /\ fts (ingest now_ts batch_size write_fault last_col incremental rows
              s batch n).1 = fts s.
Proof.
  induction rows as [|row rows IH]; intros s batch n; cbn [ingest];
    [now split|].
  destruct (convert_row now_ts last_col row) as [p|]; [|now split].
  destruct (batch_size <=? length (batch ++ [p]))%nat; [|apply IH].
  pose proof (write_batch_frame incremental s (batch ++ [p]) n) as Hw.
  destruct (write_batch write_fault incremental s (batch ++ [p]) n)
    as [s' [e|]]; cbn [fst] in *; [exact Hw|].
  destruct (IH s' [] (n + Z.of_nat (length (batch ++ [p])))) as [Hm Hf].
  destruct Hw as [Hm' Hf']. split; congruence.
Qed.

(** What a completed import body leaves beside the rows. *)
Lemma import_body_frame (c : conn) (src : source_db)
    (selected : list source_row) (incremental_since : option Z)
    (c' : conn) (r : import_result) :
  in_tx c = None ->
  import_body now_ts batch_size write_fault c src selected incremental_since
  = (c', inr r) ->
  metadata (committed c') = metadata (committed c)
  /\ (incremental_since = None ->
      fts (committed c') = map entry_of (components (committed c'))).
Proof.
  intros Htx. unfold import_body, begin_immediate. rewrite Htx.
  cbn [visible in_tx committed default].
  set (incremental := match incremental_since with Some _ => true | None => false end).
  set (s1 := if incremental then _ else _).
  assert (Hs1 : metadata s1 = metadata (committed c)).
  { subst s1. now destruct incremental. }
  pose proof (ingest_frame (has_last_col src) incremental selected s1 [] 0)
    as [Hm _].
  destruct (ingest _ _ _ _ _ _ _ _ _) as [s2 [e | [batch n]]]; [discriminate|].
  cbn [fst] in Hm.
  assert (Hshape : forall s3,
    metadata s3 = metadata (committed c) ->
    metadata (committed (commit
      {| committed := committed c;
         in_tx := Some (if incremental then fts_refresh_updated s3
                        else _create_component_indexes (fts_rebuild s3)) |}))
    = metadata (committed c)
    /\ (incremental_since = None ->
        fts (committed (commit
          {| committed := committed c;
             in_tx := Some (if incremental then fts_refresh_updated s3
                            else _create_component_indexes (fts_rebuild s3)) |}))
        = map entry_of (components (committed (commit
          {| committed := committed c;
             in_tx := Some (if incremental then fts_refresh_updated s3
                            else _create_component_indexes (fts_rebuild s3)) |}))))).
  { intros s3 Hs3. unfold commit, visible. cbn [in_tx committed default].
    split.
    - destruct incremental; cbn; exact Hs3.
    - intros ->. reflexivity. }
  destruct batch as [|p batch].
  - intros H. injection H as <- _. apply Hshape. congruence.
  - pose proof (write_batch_frame incremental s2 (p :: batch) n) as [Hw _].
    destruct (write_batch _ _ _ _ _) as [s3 [e|]]; [discriminate|].
    intros H. injection H as <- _. apply Hshape. cbn [fst] in Hw. congruence.
Qed.

(** An import in which nothing raises. *)
Lemma import_ok (c : conn) (src : source_db) (in_stock_only : bool)
    (incremental_since : option Z) (parts : list part) :
  in_tx c = None ->
  (forall n, write_fault n = None) ->
  convert_all now_ts (has_last_col src)
    (List.filter (row_selected (has_last_col src) in_stock_only incremental_since)
       (source_rows src)) = Some parts ->
  exists c' r,
    import_yaqwsx_cache now_ts batch_size write_fault c src in_stock_only
      incremental_since = (c', inr r)
    /\ imported r = Z.of_nat (length parts)
    /\ in_tx c' = None
    /\ components (committed c')
       = fold_left upsert parts
           (match incremental_since with
            | Some _ => components (committed c)
            | None => []
            end)
    /\ metadata (committed c') = metadata (committed c)
    /\ (match incremental_since with
        | Some _ => indexes (committed c') = indexes (committed c)
        | None =>
            list_to_set component_index_names ⊆ indexes (committed c')
            /\ fts (committed c') = map entry_of (components (committed c'))
        end).
Proof.
  intros Htx Hok Hconv. unfold import_yaqwsx_cache.
  set (selected := List.filter _ _) in *.
  assert (Hbody : exists c' r,
    match import_body now_ts batch_size write_fault c src selected
            incremental_since with
    | (c'', inl e) => (rollback (exec _create_component_indexes c''), inl e)
    | done => done
    end = (c', inr r)
    /\ imported r = Z.of_nat (length parts)
    /\ in_tx c' = None
    /\ components (committed c')
       = fold_left upsert parts
           (match incremental_since with
            | Some _ => components (committed c)
            | None => []
            end)
    /\ metadata (committed c') = metadata (committed c)
    /\ (match incremental_since with
        | Some _ => indexes (committed c') = indexes (committed c)
        | None =>
            list_to_set component_index_names ⊆ indexes (committed c')
            /\ fts (committed c') = map entry_of (components (committed c'))
        end)).
  { destruct (ImportFacts.import_body_ok now_ts batch_size write_fault c src
                selected incremental_since parts Htx Hok Hconv)
      as (c' & Hrun & Htx' & Hrows & Hidx).
    destruct (import_body_frame _ _ _ _ _ _ Htx Hrun) as [Hmeta Hfts].
    exists c'. eexists. rewrite Hrun. split; [reflexivity|].
    cbn [imported]. repeat split; try assumption.
    destruct incremental_since; [exact Hidx | split; auto]. }
  destruct incremental_since as [since|]; [|exact Hbody].
  destruct (Z.eqb_spec (Z.of_nat (length selected)) 0) as [Hzero | _];
    [|exact Hbody].
  assert (selected = []) as Hnone
    by (destruct selected; [reflexivity | cbn in Hzero; lia]).
  rewrite Hnone in Hconv. cbn in Hconv. injection Hconv as <-.
  exists c. eexists. split; [reflexivity|]. cbn. repeat split. exact Htx.
Qed.

Lemma fold_upsert_length (parts : list part) :
  forall rows,
    (length (fold_left upsert parts rows) <= length rows + length parts)%nat.
Proof.
  induction parts as [|p parts IH]; intros rows; cbn [fold_left length]; [lia|].
  specialize (IH (upsert rows p)).
  assert (length (upsert rows p) <= length rows + 1)%nat.
  { unfold upsert. rewrite length_app. cbn [length].
    pose proof (StoreFacts.filter_length_le
                  (fun r : Z * part => negb (String.eqb (lcsc (snd r)) (lcsc p)))
                  rows).
    lia. }
  lia.
Qed.

(** X8: in an import in which nothing raises, the last selected source
    row with a given key is the one the catalog holds for that key
    afterwards, and it holds it once; a key that no selected row bears keeps
    the row it had in an incremental import and has none after a full one.
    [get_part_info] answers accordingly.  The count the import returns is
    the number of rows it wrote, so the catalog grows by at most that. *)
Theorem import_keeps_the_last_row_of_each_key
    (c : conn) (src : source_db) (in_stock_only : bool)
    (incremental_since : option Z) (parts : list part) :
  in_tx c = None ->
  (forall n, write_fault n = None) ->
  convert_all now_ts (has_last_col src)
    (List.filter (row_selected (has_last_col src) in_stock_only incremental_since)
       (source_rows src)) = Some parts ->
  exists c' r,
    import_yaqwsx_cache now_ts batch_size write_fault c src in_stock_only
      incremental_since = (c', inr r)
    /\ imported r = Z.of_nat (length parts)
    /\ (forall k,
          List.filter (has_key k) (map snd (components (visible c')))
          = match last (List.filter (has_key k) parts) with
            | Some p => [p]
            | None =>
                match incremental_since with
                | Some _ =>
                    List.filter (has_key k) (map snd (components (visible c)))
                | None => []
                end
            end)
    /\ (forall k,
          get_part_info c' k
          = match last (List.filter (has_key k) parts) with
            | Some p => Some p
            | None =>
                match incremental_since with
                | Some _ => get_part_info c k
                | None => None
                end
            end)
    /\ total_parts (get_database_stats c')
       <= (match incremental_since with
           | Some _ => total_parts (get_database_stats c)
           | None => 0
           end) + imported r.
Proof.
  intros Htx Hok Hconv.
  destruct (import_ok c src in_stock_only incremental_since parts Htx Hok Hconv)
    as (c' & r & Hrun & Himp & Htx' & Hrows & _).
  exists c', r. split; [exact Hrun|]. split; [exact Himp|].
  assert (Hvis' : visible c' = committed c') by (unfold visible; now rewrite Htx').
  assert (Hvis : visible c = committed c) by (unfold visible; now rewrite Htx).
  assert (Hlook : forall k,
    List.filter (has_key k) (map snd (components (visible c')))
    = match last (List.filter (has_key k) parts) with
      | Some p => [p]
      | None =>
          match incremental_since with
          | Some _ => List.filter (has_key k) (map snd (components (visible c)))
          | None => []
          end
      end).
  { intros k. rewrite Hvis', Hvis, Hrows, fold_upsert_lookup.
    destruct (last _); [reflexivity|]. now destruct incremental_since. }
  split; [exact Hlook|]. split.
  - intros k. unfold get_part_info.
    change (fun p : part => String.eqb (lcsc p) k) with (has_key k).
    rewrite Hlook. destruct (last _); [reflexivity|].
    now destruct incremental_since.
  - unfold get_database_stats, count_where. cbn [total_parts].
    rewrite !StoreFacts.filter_all, !length_map, Hvis', Hvis, Hrows, Himp.
    pose proof (fold_upsert_length parts
                  (match incremental_since with
                   | Some _ => components (committed c)
                   | None => []
                   end)) as Hlen.
    destruct incremental_since; cbn [length] in *; lia.
Qed.

(** X9: an incremental import in which nothing raises leaves every row
    whose key is not among the imported keys as it was, with its rowid and
    in its place; it leaves the metadata table and the secondary indexes as
    they were; and if the keys of the catalog were distinct and its rowids
    increasing before, they are so after. *)
Theorem incremental_import_leaves_other_rows
    (c : conn) (src : source_db) (in_stock_only : bool) (since : Z)
    (parts : list part) :
  in_tx c = None ->
  (forall n, write_fault n = None) ->
  convert_all now_ts (has_last_col src)
    (List.filter (row_selected (has_last_col src) in_stock_only (Some since))
       (source_rows src)) = Some parts ->
  exists c' r,
    import_yaqwsx_cache now_ts batch_size write_fault c src in_stock_only
      (Some since) = (c', inr r)
    /\ List.filter (fun row => negb (key_in (map lcsc parts) (row_key row)))
         (components (committed c'))
       = List.filter (fun row => negb (key_in (map lcsc parts) (row_key row)))
           (components (committed c))
    /\ metadata (committed c') = metadata (committed c)
    /\ indexes (committed c') = indexes (committed c)
    /\ (NoDup (map row_key (components (committed c))) ->
        StronglySorted Z.lt (map fst (components (committed c))) ->
        NoDup (map row_key (components (committed c')))
        /\ StronglySorted Z.lt (map fst (components (committed c')))).
Proof.
  intros Htx Hok Hconv.
  destruct (import_ok c src in_stock_only (Some since) parts Htx Hok Hconv)
    as (c' & r & Hrun & _ & _ & Hrows & Hmeta & Hidx).
  exists c', r. rewrite Hrows. repeat split; try assumption.
  - apply fold_upsert_others. intros p Hp. now apply key_in_map.
  - now apply fold_upsert_keeps_table_shape.
  - now apply fold_upsert_keeps_table_shape.
Qed.

(** X10: a full import in which nothing raises replaces the catalog: the
    rows afterwards are the upsert of the converted rows into an empty
    table, whatever the catalog held before; their keys are distinct and
    their rowids increasing; the full-text index holds one entry for each
    row; the five secondary indexes exist; the metadata table is as it was;
    and every row is Basic, Extended or Preferred, so that the total of the
    statistics is the Basic count plus the Extended count plus the number of
    Preferred rows. *)
Theorem full_import_replaces_the_catalog
    (c : conn) (src : source_db) (in_stock_only : bool) (parts : list part) :
  in_tx c = None ->
  (forall n, write_fault n = None) ->
  convert_all now_ts (has_last_col src)
    (List.filter (row_selected (has_last_col src) in_stock_only None)
       (source_rows src)) = Some parts ->
  exists c' r,
    import_yaqwsx_cache now_ts batch_size write_fault c src in_stock_only None
    = (c', inr r)
    /\ components (committed c') = fold_left upsert parts []
    /\ NoDup (map row_key (components (committed c')))
    /\ StronglySorted Z.lt (map fst (components (committed c')))
    /\ fts (committed c') = map entry_of (components (committed c'))
    /\ list_to_set component_index_names ⊆ indexes (committed c')
    /\ metadata (committed c') = metadata (committed c)
    /\ Forall known_tier (map snd (components (committed c')))
    /\ total_parts (get_database_stats c')
       = basic_parts (get_database_stats c')
         + extended_parts (get_database_stats c')
         + count_where (fun p => String.eqb (library_type p) "Preferred") c'.
Proof.
  intros Htx Hok Hconv.
  destruct (import_ok c src in_stock_only None parts Htx Hok Hconv)
    as (c' & r & Hrun & _ & Htx' & Hrows & Hmeta & Hidx & Hfts).
  assert (Hshape := fold_upsert_keeps_table_shape parts []
                      (NoDup_nil_2 : NoDup (map row_key []))
                      (SSorted_nil Z.lt : StronglySorted Z.lt (map fst []))).
  assert (Htier : Forall known_tier (map snd (components (committed c')))).
  { rewrite Hrows. apply List.Forall_forall. intros q Hq.
    apply fold_upsert_In in Hq. destruct Hq as [Hq | []].
    pose proof (convert_all_tier _ _ _ _ Hconv) as Hall.
    rewrite List.Forall_forall in Hall. now apply Hall. }
  exists c', r. rewrite <- Hrows in Hshape.
  repeat split; try assumption; try apply Hshape.
  unfold get_database_stats, count_where.
  cbn [total_parts basic_parts extended_parts].
  unfold visible. rewrite Htx'. cbn [default].
  rewrite StoreFacts.filter_all, (three_tier_count _ Htier). lia.
Qed.


End Importer.

Lemma import_keeps_the_last_row_of_each_key_witness :
  exists c' r,
    import_yaqwsx_cache 1700000000 1000 Scenarios.no_fault Scenarios.test_conn
      Scenarios.fresh_source false (Some 100) = (c', inr r)
    /\ imported r = 1
    /\ get_part_info c' "C_BAS" = Some Scenarios.C_BAS
    /\ lcsc <$> get_part_info c' "C7" = Some "C7".
Proof.
  destruct (import_keeps_the_last_row_of_each_key 1700000000 1000
              Scenarios.no_fault Scenarios.test_conn Scenarios.fresh_source
              false (Some 100) _ eq_refl (fun _ => eq_refl) eq_refl)
    as (c' & r & Hrun & Himp & _ & Hget & _).
  exists c', r. split; [exact Hrun|]. split; [exact Himp|].
  rewrite !Hget. split; reflexivity.
Defined.

Lemma incremental_import_leaves_other_rows_witness :
  exists c' r,
    import_yaqwsx_cache 1700000000 1000 Scenarios.no_fault Scenarios.test_conn
      Scenarios.fresh_source false (Some 100) = (c', inr r)
    /\ List.filter (fun row => negb (key_in ["C7"] (row_key row)))
         (components (committed c'))
       = components (committed Scenarios.test_conn).
Proof.
  destruct (incremental_import_leaves_other_rows 1700000000 1000
              Scenarios.no_fault Scenarios.test_conn Scenarios.fresh_source
              false 100 _ eq_refl (fun _ => eq_refl) eq_refl)
    as (c' & r & Hrun & Hrows & _).
  exists c', r. split; [exact Hrun|]. exact Hrows.
Defined.

Lemma full_import_replaces_the_catalog_witness :
  exists c' r,
    import_yaqwsx_cache 1700000000 1000 Scenarios.no_fault Scenarios.test_conn
      Scenarios.fresh_source false None = (c', inr r)
    /\ map row_key (components (committed c')) = ["C7"; "C8"]
    /\ total_parts (get_database_stats c') = 2.
Proof.
  destruct (full_import_replaces_the_catalog 1700000000 1000
              Scenarios.no_fault Scenarios.test_conn Scenarios.fresh_source
              false _ eq_refl (fun _ => eq_refl) eq_refl)
    as (c' & r & Hrun & Hrows & _ & _ & _ & _ & _ & _ & Hstats).
  exists c', r. split; [exact Hrun|]. split.
  - rewrite Hrows. reflexivity.
  - rewrite Hstats. unfold get_database_stats, count_where, visible.
    cbn [basic_parts extended_parts].
    assert (Htx : in_tx c' = None).
    { apply (f_equal fst) in Hrun. cbn [fst] in Hrun. rewrite <- Hrun.
      vm_compute. reflexivity. }
    rewrite Htx. cbn [default]. rewrite Hrows. reflexivity.
Defined.


End CatalogFacts.

(** ** The parts store: what a search returns *)

Module FilterFacts.
Import PyStr PyStrFacts Parts Store Views.






Lemma sql_limit_length {A} (n : Z) (l : list A) :
  0 <= n -> Z.of_nat (length (sql_limit n l)) <= n.
Proof.
  intros Hn. unfold sql_limit. destruct (Z.ltb_spec n 0); [lia|].
  rewrite length_take. lia.
Qed.

Section Engine.
Variable fts_query : Type.
Variable fts_parse : string -> option fts_query.
Variable fts_eval : fts_query -> fts_entry -> bool.

(** A row kept by the conjunction is kept by each condition. *)
Lemma prepare_all_In (s : snapshot) (cs : list condition)
    (keep : part -> bool) (c : condition) :
  prepare_all fts_query fts_parse fts_eval s cs = inr keep ->
  In c cs ->
  exists f, prepare fts_query fts_parse fts_eval s c = inr f
            /\ forall p, keep p = true -> f p = true.
Proof.
  revert keep. induction cs as [|c0 cs IH]; intros keep Hall Hin; [destruct Hin|].
  cbn [prepare_all] in Hall.
  destruct (prepare fts_query fts_parse fts_eval s c0) as [e|f0] eqn:H0;
    [discriminate|].
  destruct (prepare_all fts_query fts_parse fts_eval s cs) as [e|g]; [discriminate|].
  injection Hall as <-. destruct Hin as [<- | Hin].
  - exists f0. split; [exact H0|]. intros p Hp.
    now apply andb_true_iff in Hp.
  - destruct (IH g eq_refl Hin) as (f & Hf & Himp). exists f.
    split; [exact Hf|]. intros p Hp. apply andb_true_iff in Hp. now apply Himp.
Qed.

(** X11: every row [search_parts] returns is a row of the table that
    satisfies each filter that was given: its key is one the full-text index
    matched for the free-text query, its category, package and manufacturer
    match the [LIKE] patterns made of the texts, its tier is the one asked
    for, and its stock is positive when only parts in stock were asked for;
    and the number of rows is at most the limit, when the limit is not
    negative. *)
Theorem search_results_satisfy_every_filter (c : conn)
    (query cat pkg tier mfr : option string) (in_stock : bool) (lim : Z) :
  let rows :=
    (search_parts fts_query fts_parse fts_eval c query cat pkg tier mfr
       in_stock lim).2 in
  (forall p, In p rows ->
     In p (map snd (components (visible c)))
     /\ (forall q, given query = Some q ->
           exists parsed,
             fts_parse q = Some parsed
             /\ In (lcsc p)
                  (fts_matching_keys fts_query fts_eval (visible c) parsed))
     /\ (forall x, given cat = Some x ->
           like ("%" +:+ x +:+ "%") (category p) = true)
     /\ (forall x, given pkg = Some x ->
           like ("%" +:+ x +:+ "%") (package p) = true)
     /\ (forall t, given tier = Some t -> library_type p = t)
     /\ (forall x, given mfr = Some x ->
           like ("%" +:+ x +:+ "%") (manufacturer p) = true)
     /\ (in_stock = true -> 0 < stock p))
  /\ (0 <= lim -> Z.of_nat (length rows) <= lim).
Proof.
  cbv zeta. rewrite SearchFacts.search_parts_cases. cbn [snd].
  destruct (sqlite_int lim); [|split; [intros p [] | cbn; lia]].
  unfold execute.
  destruct (prepare_all _ _ _ _ _) as [e|keep] eqn:Hall.
  { split; [intros p [] | cbn; lia]. }
  cbn [limit build_search] in *. split; [|apply sql_limit_length].
  intros p Hp. apply SearchFacts.sql_limit_In, filter_In in Hp.
  destruct Hp as [Htable Hkeep]. split; [exact Htable|].
  assert (Hcond : forall cnd,
    In cnd (conditions (build_search query cat pkg tier mfr in_stock lim)) ->
    exists f, prepare fts_query fts_parse fts_eval (visible c) cnd = inr f
              /\ f p = true).
  { intros cnd Hin. destruct (prepare_all_In _ _ _ _ Hall Hin) as (f & Hf & Himp).
    exists f. split; [exact Hf | now apply Himp]. }
  cbn [conditions build_search] in Hcond.
  repeat split.
  - intros q Hq. destruct (Hcond (FtsMatch q)) as (f & Hf & Hfp).
    { rewrite Hq. now left. }
    cbn [prepare] in Hf. destruct (fts_parse q) as [parsed|]; [|discriminate].
    injection Hf as <-. exists parsed. split; [reflexivity|].
    apply existsb_exists in Hfp. destruct Hfp as (k & Hk & Heq).
    apply String.eqb_eq in Heq. now rewrite Heq.
  - intros x Hx. destruct (Hcond (Like ColCategory ("%" +:+ x +:+ "%")))
      as (f & Hf & Hfp).
    { rewrite Hx. apply in_or_app. right. now left. }
    injection Hf as <-. exact Hfp.
  - intros x Hx. destruct (Hcond (Like ColPackage ("%" +:+ x +:+ "%")))
      as (f & Hf & Hfp).
    { rewrite Hx. do 2 (apply in_or_app; right). now left. }
    injection Hf as <-. exact Hfp.
  - intros t Ht. destruct (Hcond (Equals ColLibraryType t)) as (f & Hf & Hfp).
    { rewrite Ht. do 3 (apply in_or_app; right). now left. }
    injection Hf as <-. now apply String.eqb_eq in Hfp.
  - intros x Hx. destruct (Hcond (Like ColManufacturer ("%" +:+ x +:+ "%")))
      as (f & Hf & Hfp).
    { rewrite Hx. do 4 (apply in_or_app; right). now left. }
    injection Hf as <-. exact Hfp.
  - intros ->. destruct (Hcond StockPositive) as (f & Hf & Hfp).
    { do 5 (apply in_or_app; right). now left. }
    injection Hf as <-. now apply Z.ltb_lt in Hfp.
Qed.


End Engine.



End FilterFacts.

(** ** The planner: how the archive parts are split *)

Module ReuseFacts.
Import PyStr PyStrFacts Planner.

Lemma filter_split_perm {A} (f : A -> bool) (l : list A) :
  Permutation (List.filter f l ++ List.filter (fun x => negb (f x)) l) l.
Proof.
  induction l as [|x l IH]; cbn [List.filter]; [constructor|].
  destruct (f x); cbn [negb app].
  - now constructor.
  - symmetry. apply Permutation_cons_app. now symmetry.
Qed.

Lemma plan_lengths (target_dir : string) (disk : gmap string string)
    (archive_parts : list string) (remote_meta : gmap string remote_file)
    (previous_files : gmap string manifest_file) :
  let p := _plan_incremental_download target_dir disk archive_parts
             remote_meta previous_files in
  (length (partsToDownload p) + length (reusedParts p)
   = length archive_parts)%nat.
Proof.
  cbv zeta.
  destruct (PlannerFacts.plan_partition target_dir disk remote_meta
              previous_files archive_parts) as (Hd & Hr & _).
  cbv zeta in Hd, Hr. rewrite Hd, Hr.
  rewrite <- length_app. apply Permutation_length, filter_split_perm.
Qed.

(** X13: the planner splits the archive parts in two: the parts to
    download followed by the reused parts are a rearrangement of the archive
    parts, each list keeps the order of the archive parts, no part is in
    both, and the two lengths add up.  A part is reused only if its file is
    in the cache directory, and a part whose file is not there is
    downloaded. *)
Theorem plan_splits_the_archive_parts
    (target_dir : string) (disk : gmap string string)
    (archive_parts : list string) (remote_meta : gmap string remote_file)
    (previous_files : gmap string manifest_file) :
  let p := _plan_incremental_download target_dir disk archive_parts
             remote_meta previous_files in
  Permutation (partsToDownload p ++ reusedParts p) archive_parts
  /\ sublist (partsToDownload p) archive_parts
  /\ sublist (reusedParts p) archive_parts
  /\ (forall f, ~ (In f (partsToDownload p) /\ In f (reusedParts p)))
  /\ (length (partsToDownload p) + length (reusedParts p)
      = length archive_parts)%nat
  /\ (forall f, In f (reusedParts p) ->
        path_exists disk (path_join target_dir f) = true)
  /\ (forall f, In f archive_parts ->
        path_exists disk (path_join target_dir f) = false ->
        In f (partsToDownload p)).
Proof.
  cbv zeta.
  destruct (PlannerFacts.plan_partition target_dir disk remote_meta
              previous_files archive_parts) as (Hd & Hr & _).
  cbv zeta in Hd, Hr. rewrite Hd, Hr.
  assert (Hmiss : forall f,
    path_exists disk (path_join target_dir f) = false ->
    decide_part target_dir disk remote_meta previous_files f = true).
  { intros f Hf. unfold decide_part, should_redownload, signals.
    cbn [local_exists]. now rewrite Hf. }
  repeat split.
  - apply filter_split_perm.
  - apply SearchFacts.filter_sublist.
  - apply SearchFacts.filter_sublist.
  - intros f [H1 H2]. apply filter_In in H1, H2.
    destruct H1 as [_ H1], H2 as [_ H2]. rewrite H1 in H2. discriminate.
  - rewrite <- Hd, <- Hr. apply plan_lengths.
  - intros f Hf. apply filter_In in Hf. destruct Hf as [_ Hf].
    destruct (path_exists disk (path_join target_dir f)) eqn:He; [reflexivity|].
    rewrite (Hmiss f He) in Hf. discriminate.
  - intros f Hin He. apply filter_In. split; [exact Hin | now apply Hmiss].
Qed.

(** X14: the decision chain of the planner in closed form.  A part is
    downloaded when its file is missing, or when neither the change-tags nor
    the last-modified values match and either the size differs, or both
    sides have a change-tag, or both sides have a last-modified value.  So a
    file of unchanged size is reused without any matching validator only
    when no validator can be compared; and a part whose change-tag differs
    from the recorded one is downloaded even if its size is unchanged,
    unless the last-modified values match. *)
Theorem reuse_decision_in_closed_form
    (target_dir : string) (disk : gmap string string)
    (remote_meta : gmap string remote_file)
    (previous_files : gmap string manifest_file) (f : string) :
  let s := signals_of target_dir disk remote_meta previous_files f in
  decide_part target_dir disk remote_meta previous_files f
  = negb (local_exists s)
    || negb (same_etag s || same_last_modified s)
       && (negb (same_size s)
           || truthy (remote_etag s) && truthy (prev_etag s)
           || truthy (remote_last_modified s) && truthy (prev_last_modified s))
  /\ (local_exists s = true ->
      prev_etag s <> "" -> remote_etag s <> "" ->
      prev_etag s <> remote_etag s ->
      same_last_modified s = false ->
      decide_part target_dir disk remote_meta previous_files f = true).
Proof.
  cbv zeta.
  assert (Hclosed : forall s : file_signals,
    should_redownload s
    = negb (local_exists s)
      || negb (same_etag s || same_last_modified s)
         && (negb (same_size s)
             || truthy (remote_etag s) && truthy (prev_etag s)
             || truthy (remote_last_modified s)
                && truthy (prev_last_modified s))).
  { intros s. unfold should_redownload.
    destruct (local_exists s), (same_etag s), (same_last_modified s),
      (same_size s), (truthy (remote_etag s)), (truthy (prev_etag s)),
      (truthy (remote_last_modified s)), (truthy (prev_last_modified s));
      reflexivity. }
  unfold decide_part. fold (signals_of target_dir disk remote_meta previous_files f).
  split; [apply Hclosed|].
  intros Hex Hp Hr Hne Hlm. rewrite Hclosed, Hex, Hlm.
  apply truthy_true in Hp, Hr. rewrite Hp, Hr.
  assert (Hse : same_etag (signals_of target_dir disk remote_meta
                             previous_files f) = false).
  { unfold signals_of, signals in *. cbn in *.
    apply String.eqb_neq in Hne. rewrite Hne. apply andb_false_r. }
  rewrite Hse.
  destruct (same_size _), (truthy (remote_last_modified _)),
    (truthy (prev_last_modified _)); reflexivity.
Qed.

End ReuseFacts.

(** ** The download executor: what a run writes *)

Module TransferFacts.
Import PyStr PyStrFacts Planner Download Views.

Lemma append_empty_r (s : string) : s +:+ "" = s.
Proof.
  induction s as [|c s IH]; [reflexivity|].
  change (String c (s +:+ "") = String c s). now f_equal.
Qed.

Lemma prefix_refl (s : string) : String.prefix s s = true.
Proof.
  induction s as [|c s IH]; cbn [String.prefix]; [reflexivity|].
  destruct (ascii_dec c c); [exact IH | congruence].
Qed.

Lemma prefix_substring (n : nat) (s : string) :
  String.prefix (String.substring 0 n s) s = true.
Proof.
  revert n. induction s as [|c s IH]; intros [|n]; cbn [String.substring String.prefix];
    try reflexivity.
  destruct (ascii_dec c c); [apply IH | congruence].
Qed.

(** The chunk loop leaves in the file a leading part of what was there
    followed by the chunks handed to it, and all of it when it ends well;
    the byte counter has then grown by the length of the chunks. *)
Lemma write_stream_file (path : string) (events : list stream_event) :
  forall (disk : gmap string string) (n : Z) (cur : string),
    disk !! path = Some cur ->
    exists text,
      (write_stream path events disk n).1 = <[path := text]> disk
      /\ String.prefix text (cur +:+ handed_text events) = true
      /\ (forall m, (write_stream path events disk n).2 = inr m ->
            text = cur +:+ handed_text events
            /\ m = n + Z.of_nat (String.length (handed_text events))).
Proof.
  assert (Hleave : forall disk cur d u e,
    disk !! path = Some cur ->
    exists text,
      (leave path disk d u e).1 = <[path := text]> disk
      /\ String.prefix text (cur +:+ d) = true
      /\ (forall m : Z, (leave path disk d u e).2 = inr m ->
            text = cur +:+ d /\ m = 0)).
  { intros disk cur d u e Hcur. unfold leave. rewrite Hcur. cbn [default fst snd].
    eexists. split; [reflexivity|]. split; [apply prefix_substring|].
    intros m Hm. discriminate. }
  induction events as [|e events IH]; intros disk n cur Hcur.
  - exists cur. cbn [write_stream handed_text fst snd]. rewrite append_empty_r.
    split; [symmetry; now apply insert_id|]. split; [apply prefix_refl|].
    intros m Hm. injection Hm as <-. cbn. split; [reflexivity | lia].
  - destruct e as [d|d u|d u|u|k]; cbn [write_stream handed_text].
    + destruct (truthy d) eqn:Hd; cbn [negb].
      * destruct (IH (apply_op disk (OpAppend path d))
                    (n + Z.of_nat (String.length d)) (cur +:+ d))
          as (text & Hdisk & Hpre & Hok).
        { cbn [apply_op]. rewrite lookup_insert_eq, Hcur. reflexivity. }
        exists text. split; [|split].
        -- rewrite Hdisk. cbn [apply_op]. now rewrite insert_insert_eq.
        -- now rewrite append_assoc in Hpre.
        -- intros m Hm. destruct (Hok m Hm) as [-> ->].
           rewrite append_assoc, length_append. split; [reflexivity | lia].
      * apply truthy_false in Hd. subst d. now apply IH.
    + destruct (truthy d); cbn [negb]; [|now apply IH].
      destruct (Hleave disk cur d u NoSpaceWhileDownloading Hcur)
        as (text & H1 & H2 & _).
      exists text. repeat split; try assumption; discriminate.
    + destruct (truthy d); cbn [negb]; [|now apply IH].
      destruct (Hleave disk cur d u (WriteFailed path) Hcur)
        as (text & H1 & H2 & _).
      exists text. repeat split; try assumption; discriminate.
    + destruct (Hleave disk cur "" u (StreamFailed path) Hcur)
        as (text & H1 & H2 & _).
      exists text. repeat split; try assumption; discriminate.
    + destruct (Hleave disk cur "" {| reached := k; close_raises := true |}
                  (CloseFailed path) Hcur) as (text & H1 & H2 & _).
      exists text. repeat split; try assumption; discriminate.
Qed.

Section Env.
Variable json_dump : manifest -> string.
Variable json_load : string -> option manifest.
Variable network : string -> option response.
Variable disk_free : string -> Z.
Variable now : Z.

(** [_save_manifest] as one step: the new text at the manifest path, and
    nothing at the temporary path. *)
Lemma save_manifest_eq (path : string) (data : manifest)
    (disk : gmap string string) :
  _save_manifest json_dump path data disk
  = <[path := json_dump data]> (delete (path +:+ ".tmp") disk).
Proof.
  unfold _save_manifest, _save_manifest_ops, run_ops.
  cbn [fold_left apply_op]. rewrite !lookup_insert_eq. cbn [default].
  now rewrite !delete_insert_eq.
Qed.

(** In the steps up to the call of the extractor, a file that is not the
    file of a part planned for download, and is neither the manifest nor the
    manifest's temporary file, is left as it was. *)
Lemma steps_write_only_planned_parts_and_manifest
    (target_dir : string) (extract_dir : option string) (est : estimate)
    (remote_meta : gmap string remote_file) (disk : gmap string string)
    (p : string) :
  let manifest_path := path_join target_dir "cache_manifest.json" in
  let plan :=
    _plan_incremental_download target_dir disk (archiveParts est) remote_meta
      (previous_files_of (_load_manifest json_load disk manifest_path)) in
  (forall f, In f (partsToDownload plan) -> p <> path_join target_dir f) ->
  p <> manifest_path ->
  p <> manifest_path +:+ ".tmp" ->
  (download_yaqwsx_cache json_dump json_load network disk_free now
     target_dir extract_dir est remote_meta disk).1 !! p
  = disk !! p.
Proof.
  cbv zeta. intros Hparts Hm Htmp. unfold download_yaqwsx_cache.
  destruct (no_update est); [reflexivity|].
  destruct (_ <? _); [reflexivity|]. destruct (_ <? _); [reflexivity|].
  pose proof (DownloadFacts.fetch_parts_other network target_dir remote_meta
                _ disk 0 p Hparts) as Hother.
  destruct (fetch_parts _ _ _ _ _ _) as [disk1 [e|n]]; cbn [fst] in *;
    [exact Hother|].
  assert (Hsaved : _save_manifest json_dump
                     (path_join target_dir "cache_manifest.json")
                     (final_manifest now est remote_meta) disk1 !! p
                   = disk !! p).
  { rewrite save_manifest_eq, lookup_insert_ne, lookup_delete_ne by congruence.
    exact Hother. }
  destruct (negb _); [exact Hsaved|].
  destruct (List.filter _ _); exact Hsaved.
Qed.

Lemma filter_nil_all {A} (f : A -> bool) (l : list A) :
  List.filter (fun x => negb (f x)) l = [] -> Forall (fun x => f x = true) l.
Proof.
  induction l as [|x l IH]; cbn [List.filter]; intros H; [constructor|].
  destruct (f x) eqn:Hf; cbn [negb] in H; [|discriminate].
  constructor; [exact Hf | now apply IH].
Qed.

(** X16: a run hands over to the extractor only with everything in
    place: the file of every archive part and [cache.zip] are in the cache
    directory, the manifest file holds the text of the new manifest and its
    temporary file is gone, both disk-space checks have passed, and the
    lists it reports are the planner's. *)
Theorem handover_only_with_every_part_on_disk
    (target_dir : string) (extract_dir : option string) (est : estimate)
    (remote_meta : gmap string remote_file) (disk : gmap string string)
    (r : fetched) :
  let manifest_path := path_join target_dir "cache_manifest.json" in
  let plan :=
    _plan_incremental_download target_dir disk (archiveParts est) remote_meta
      (previous_files_of (_load_manifest json_load disk manifest_path)) in
  let run :=
    download_yaqwsx_cache json_dump json_load network disk_free now
      target_dir extract_dir est remote_meta disk in
  run.2 = ReadyToExtract r ->
  path_exists run.1 (path_join target_dir "cache.zip") = true
  /\ Forall (fun part => path_exists run.1 (path_join target_dir part) = true)
       (archiveParts est)
  /\ run.1 !! manifest_path = Some (json_dump (final_manifest now est remote_meta))
  /\ run.1 !! (manifest_path +:+ ".tmp") = None
  /\ no_update est = false
  /\ totalDownloadBytes plan <= disk_free target_dir
  /\ mb_to_bytes (estimatedDatabaseSizeMB est)
     <= disk_free (extraction_target target_dir extract_dir)
  /\ updatedParts r = partsToDownload plan
  /\ f_reusedParts r = reusedParts plan
  /\ f_totalDownloadBytes r = totalDownloadBytes plan.
Proof.
  cbv zeta. unfold download_yaqwsx_cache.
  destruct (no_update est); [discriminate|].
  destruct (Z.ltb_spec (disk_free target_dir)
              (totalDownloadBytes
                 (_plan_incremental_download target_dir disk (archiveParts est)
                    remote_meta
                    (previous_files_of
                       (_load_manifest json_load disk
                          (path_join target_dir "cache_manifest.json"))))));
    [discriminate|].
  destruct (Z.ltb_spec (disk_free (extraction_target target_dir extract_dir))
              (mb_to_bytes (estimatedDatabaseSizeMB est))); [discriminate|].
  destruct (fetch_parts _ _ _ _ _ _) as [disk1 [e|n]]; [discriminate|].
  destruct (path_exists _ (path_join target_dir "cache.zip")) eqn:Hzip;
    cbn [negb]; [|discriminate].
  destruct (List.filter _ (archiveParts est)) eqn:Hmissing; [|discriminate].
  cbn [fst snd]. intros Hr. injection Hr as <-.
  cbn [updatedParts f_reusedParts f_totalDownloadBytes].
  repeat split; try assumption; try lia.
  - now apply filter_nil_all in Hmissing.
  - apply DownloadFacts.save_manifest_lookup.
  - rewrite save_manifest_eq, lookup_insert_ne, lookup_delete_eq;
      [reflexivity | apply not_eq_sym, DownloadFacts.tmp_path_fresh].
Qed.

(** X17: once the server has answered the request for a part with a
    success status, the part's file holds nothing of what it held before: it
    holds a leading part of the bytes of the chunks handed to it before the
    transfer ended, and all of them when the transfer ended well, the byte
    counter having then grown by the length of the file; the transfer ends
    well exactly when no event of the stream raises; and no other file has
    changed.  When the request itself fails, the disk is as it was. *)
Theorem transfer_replaces_the_file_with_the_received_bytes
    (target_dir : string) (remote_meta : gmap string remote_file) (f : string)
    (disk : gmap string string) (n : Z) :
  let run := fetch_part network target_dir remote_meta f disk n in
  (forall resp,
     network (part_url remote_meta f) = Some resp -> status_ok resp = true ->
     (exists text,
        run.1 = <[path_join target_dir f := text]> disk
        /\ String.prefix text (handed_text (body resp)) = true
        /\ (forall m, run.2 = inr m ->
              text = handed_text (body resp)
              /\ m = n + Z.of_nat (String.length text)
              /\ getsize run.1 (path_join target_dir f) = m - n))
     /\ (events_ok (body resp) = true -> exists m, run.2 = inr m)
     /\ (events_ok (body resp) = false -> exists e, run.2 = inl e))
  /\ ((network (part_url remote_meta f) = None
       \/ exists resp, network (part_url remote_meta f) = Some resp
                       /\ status_ok resp = false) ->
      run = (disk, inl (RequestFailed (part_url remote_meta f)))).
Proof.
  cbv zeta. unfold fetch_part. split.
  - intros resp -> ->. cbn [negb].
    destruct (write_stream_file (path_join target_dir f) (body resp)
                (apply_op disk (OpTruncate (path_join target_dir f))) n "")
      as (text & Hdisk & Hpre & Hok).
    { cbn [apply_op]. apply lookup_insert_eq. }
    cbn [apply_op] in Hdisk. rewrite insert_insert_eq in Hdisk.
    split; [|split].
    + exists text. split; [exact Hdisk|]. split; [exact Hpre|].
      intros m Hm. destruct (Hok m Hm) as [Htext Hcount].
      change ("" +:+ handed_text (body resp)) with (handed_text (body resp))
        in Htext.
      split; [exact Htext|]. rewrite Htext. split; [exact Hcount|].
      cbn [apply_op]. rewrite Hdisk. unfold getsize.
      rewrite lookup_insert_eq, Htext. lia.
    + intros Hgood.
      pose proof (DownloadFacts.write_stream_result (path_join target_dir f)
                    (body resp)
                    (apply_op disk (OpTruncate (path_join target_dir f))) n) as H.
      now rewrite Hgood in H.
    + intros Hbad.
      pose proof (DownloadFacts.write_stream_result (path_join target_dir f)
                    (body resp)
                    (apply_op disk (OpTruncate (path_join target_dir f))) n) as H.
      now rewrite Hbad in H.
  - intros [-> | (resp & -> & ->)]; reflexivity.
Qed.

(** X18: a part file cut short by a failed transfer is taken for
    complete by the next plan when the manifest records the change-tag the
    server reports: after the request for the part was answered, however the
    transfer ended, the file is there, with a leading part of the bytes
    handed to it, and the planner run on the resulting disk decides to reuse
    the part. *)
Theorem partial_file_is_reused_when_the_tag_matches
    (target_dir : string) (remote_meta : gmap string remote_file)
    (previous_files : gmap string manifest_file) (f : string)
    (disk : gmap string string) (n : Z) (resp : response) :
  let s := signals_of target_dir disk remote_meta previous_files f in
  let disk' := (fetch_part network target_dir remote_meta f disk n).1 in
  network (part_url remote_meta f) = Some resp ->
  status_ok resp = true ->
  prev_etag s <> "" ->
  prev_etag s = remote_etag s ->
  (exists text,
     disk' !! path_join target_dir f = Some text
     /\ String.prefix text (handed_text (body resp)) = true)
  /\ decide_part target_dir disk' remote_meta previous_files f = false.
Proof.
  cbv zeta. intros Hnet Hok Hne Heq.
  assert (Hfile : exists text,
            (fetch_part network target_dir remote_meta f disk n).1
              !! path_join target_dir f = Some text
            /\ String.prefix text (handed_text (body resp)) = true).
  { unfold fetch_part. rewrite Hnet, Hok. cbn [negb].
    destruct (write_stream_file (path_join target_dir f) (body resp)
                (apply_op disk (OpTruncate (path_join target_dir f))) n "")
      as (text & Hdisk & Hpre & _).
    { cbn [apply_op]. apply lookup_insert_eq. }
    exists text. rewrite Hdisk. split; [apply lookup_insert_eq | exact Hpre]. }
  split; [exact Hfile|]. destruct Hfile as (text & Hfile & _).
  unfold decide_part, should_redownload, signals. cbn [local_exists same_etag].
  unfold path_exists. rewrite Hfile. cbn [negb].
  unfold signals_of, signals in Hne, Heq. cbn [prev_etag remote_etag] in Hne, Heq.
  rewrite <- Heq, String.eqb_refl. apply truthy_true in Hne. rewrite Hne.
  reflexivity.
Qed.

(** X19: a manifest that is saved is the manifest that is loaded
    afterwards, provided the serialiser's output is read back by the
    parser; the temporary file is gone; and no other file has changed. *)
Theorem saved_manifest_loads_back (path : string) (data : manifest)
    (disk : gmap string string) :
  json_load (json_dump data) = Some data ->
  let disk' := _save_manifest json_dump path data disk in
  _load_manifest json_load disk' path = Some data
  /\ disk' !! (path +:+ ".tmp") = None
  /\ (forall p, p <> path -> p <> path +:+ ".tmp" -> disk' !! p = disk !! p).
Proof.
  intros Hround. cbv zeta. rewrite save_manifest_eq. unfold _load_manifest.
  rewrite lookup_insert_eq. split; [exact Hround|]. split.
  - rewrite lookup_insert_ne by (apply not_eq_sym, DownloadFacts.tmp_path_fresh).
    apply lookup_delete_eq.
  - intros p Hp Htmp. now rewrite lookup_insert_ne, lookup_delete_ne by congruence.
Qed.

(** The disk a run leaves when it reaches the handover. *)
Lemma ready_disk
    (target_dir : string) (extract_dir : option string) (est : estimate)
    (remote_meta : gmap string remote_file) (disk : gmap string string)
    (r : fetched) :
  let run :=
    download_yaqwsx_cache json_dump json_load network disk_free now
      target_dir extract_dir est remote_meta disk in
  run.2 = ReadyToExtract r ->
  Forall (fun part => path_exists run.1 (path_join target_dir part) = true)
    (archiveParts est)
  /\ run.1 !! path_join target_dir "cache_manifest.json"
     = Some (json_dump (final_manifest now est remote_meta)).
Proof.
  cbv zeta. unfold download_yaqwsx_cache.
  destruct (no_update est); [discriminate|].
  destruct (_ <? _); [discriminate|]. destruct (_ <? _); [discriminate|].
  destruct (fetch_parts _ _ _ _ _ _) as [disk1 [e|n]]; [discriminate|].
  destruct (negb _); [discriminate|].
  destruct (List.filter _ (archiveParts est)) eqn:Hmissing; [|discriminate].
  cbn [fst snd]. intros _. split.
  - now apply filter_nil_all in Hmissing.
  - apply DownloadFacts.save_manifest_lookup.
Qed.

(** The directory handed to the extractor. *)
Lemma handover_directory
    (target_dir : string) (extract_dir : option string) (est : estimate)
    (remote_meta : gmap string remote_file) (disk : gmap string string)
    (r : fetched) :
  (download_yaqwsx_cache json_dump json_load network disk_free now
     target_dir extract_dir est remote_meta disk).2 = ReadyToExtract r ->
  extraction_target target_dir extract_dir = extractionDir r.
Proof.
  unfold download_yaqwsx_cache.
  destruct (no_update est); [discriminate|].
  destruct (_ <? _); [discriminate|]. destruct (_ <? _); [discriminate|].
  destruct (fetch_parts _ _ _ _ _ _) as [disk1 [e|n]]; [discriminate|].
  destruct (negb _); [discriminate|].
  destruct (List.filter _ (archiveParts est)); [|discriminate].
  cbn [snd]. intros H. injection H as <-. reflexivity.
Qed.

(** X20: after a run that reached the handover, a plan made again with
    the same remote metadata, from the disk and the manifest the run left,
    reuses every archive part for which the server reported a change-tag or
    a last-modified value (the serialiser's output being read back by the
    parser); if that is every part, nothing is planned for download. *)
Theorem replan_after_success_reuses_validated_parts
    (target_dir : string) (extract_dir : option string) (est : estimate)
    (remote_meta : gmap string remote_file) (disk : gmap string string)
    (r : fetched) :
  let manifest_path := path_join target_dir "cache_manifest.json" in
  let run :=
    download_yaqwsx_cache json_dump json_load network disk_free now
      target_dir extract_dir est remote_meta disk in
  let validated (f : string) :=
    truthy (_normalize_etag (r_etag (lookup_remote remote_meta f)))
    || truthy (strip (or_empty (r_lastModified (lookup_remote remote_meta f)))) in
  let replan :=
    _plan_incremental_download target_dir run.1 (archiveParts est) remote_meta
      (previous_files_of (_load_manifest json_load run.1 manifest_path)) in
  json_load (json_dump (final_manifest now est remote_meta))
  = Some (final_manifest now est remote_meta) ->
  run.2 = ReadyToExtract r ->
  (forall f, In f (archiveParts est) -> validated f = true ->
     In f (reusedParts replan))
  /\ (forallb validated (archiveParts est) = true ->
      partsToDownload replan = [] /\ totalDownloadBytes replan = 0).
Proof.
  cbv zeta. intros Hround Hready.
  destruct (ready_disk target_dir extract_dir est remote_meta disk r Hready)
    as (Hall & Hman).
  set (run := download_yaqwsx_cache _ _ _ _ _ _ _ _ _ _) in *.
  assert (Hload : _load_manifest json_load run.1
                    (path_join target_dir "cache_manifest.json")
                  = Some (final_manifest now est remote_meta)).
  { unfold _load_manifest. now rewrite Hman. }
  rewrite Hload. cbn [previous_files_of final_manifest files].
  assert (Hreuse : forall f, In f (archiveParts est) ->
    truthy (_normalize_etag (r_etag (lookup_remote remote_meta f)))
    || truthy (strip (or_empty (r_lastModified (lookup_remote remote_meta f))))
    = true ->
    decide_part target_dir run.1 remote_meta
      (final_files remote_meta (archiveParts est)) f = false).
  { intros f Hin Hval. rewrite List.Forall_forall in Hall.
    unfold decide_part, should_redownload, signals.
    cbn [local_exists same_etag same_last_modified].
    rewrite (Hall f Hin). cbn [negb].
    unfold lookup_previous. rewrite DownloadFacts.final_files_lookup.
    rewrite bool_decide_eq_true_2 by now apply list_elem_of_In.
    cbn [default m_etag m_lastModified]. rewrite !String.eqb_refl, !andb_true_r.
    rewrite !andb_diag. now rewrite Hval. }
  split.
  - intros f Hin Hval. apply PlannerFacts.reused_iff. auto.
  - intros Hevery.
    destruct (PlannerFacts.plan_partition target_dir run.1 remote_meta
                (final_files remote_meta (archiveParts est)) (archiveParts est))
      as (Hd & _ & Ht).
    cbv zeta in Hd, Ht. rewrite Ht, Hd.
    rewrite (SyncFacts.filter_none _ (archiveParts est)); [split; reflexivity|].
    intros f Hin. apply Hreuse; [exact Hin|].
    rewrite forallb_forall in Hevery. now apply Hevery.
Qed.

End Env.


Lemma handover_only_with_every_part_on_disk_witness :
  let run :=
    download_yaqwsx_cache Scenarios.toy_dump Scenarios.toy_load
      Scenarios.toy_network (fun _ => 2000000000) 1700000000
      "/cache" (Some "/extract") Scenarios.changed_estimate
      Scenarios.two_parts_remote Scenarios.old_manifest_disk in
  path_exists run.1 "/cache/cache.zip" = true
  /\ run.1 !! "/cache/cache_manifest.json.tmp" = None.
Proof.
  cbv zeta.
  destruct (handover_only_with_every_part_on_disk Scenarios.toy_dump
              Scenarios.toy_load Scenarios.toy_network (fun _ => 2000000000)
              1700000000 "/cache" (Some "/extract") Scenarios.changed_estimate
              Scenarios.two_parts_remote Scenarios.old_manifest_disk
              {| downloadedBytes := 8; f_totalDownloadBytes := 8;
                 remoteTotalBytes := 8;
                 updatedParts := ["cache.z01"; "cache.zip"];
                 f_reusedParts := [];
                 manifestPath := "/cache/cache_manifest.json";
                 extractionDir := "/extract" |})
    as (Hzip & _ & _ & Htmp & _).
  - vm_compute. reflexivity.
  - split; [exact Hzip | exact Htmp].
Defined.

(** A transfer cut in its second chunk, of a part whose recorded tag is
    the server's: five of the seven bytes are the file, ten being expected,
    and the next plan reuses it. *)
Lemma partial_file_is_reused_when_the_tag_matches_witness :
  let disk' :=
    (fetch_part cut_network "/cache" Scenarios.tagged_remote "cache.z01"
       ∅ 0).1 in
  disk' !! "/cache/cache.z01" = Some "abcde"
  /\ decide_part "/cache" disk' Scenarios.tagged_remote
       Scenarios.tagged_previous "cache.z01" = false.
Proof.
  cbv zeta. split; [reflexivity|].
  apply (partial_file_is_reused_when_the_tag_matches cut_network "/cache"
           Scenarios.tagged_remote Scenarios.tagged_previous "cache.z01" ∅ 0
           {| status_ok := true; body := cut_body |}).
  - reflexivity.
  - reflexivity.
  - vm_compute. discriminate.
  - reflexivity.
Defined.

Lemma saved_manifest_loads_back_witness :
  let m := final_manifest 1700000000 Scenarios.changed_estimate
             Scenarios.two_parts_remote in
  _load_manifest (echo_load m)
    (_save_manifest Scenarios.toy_dump "/cache/cache_manifest.json" m
       Scenarios.old_manifest_disk)
    "/cache/cache_manifest.json"
  = Some m.
Proof.
  cbv zeta.
  apply (saved_manifest_loads_back Scenarios.toy_dump
           (echo_load (final_manifest 1700000000 Scenarios.changed_estimate
                         Scenarios.two_parts_remote))
           "/cache/cache_manifest.json"
           (final_manifest 1700000000 Scenarios.changed_estimate
              Scenarios.two_parts_remote)
           Scenarios.old_manifest_disk).
  unfold echo_load. now rewrite String.eqb_refl.
Defined.

Lemma replan_after_success_reuses_validated_parts_witness :
  let m := final_manifest 1700000000 Scenarios.changed_estimate
             Scenarios.two_parts_remote in
  let run :=
    download_yaqwsx_cache Scenarios.toy_dump (echo_load m)
      Scenarios.toy_network (fun _ => 2000000000) 1700000000
      "/cache" (Some "/extract") Scenarios.changed_estimate
      Scenarios.two_parts_remote Scenarios.old_manifest_disk in
  partsToDownload
    (_plan_incremental_download "/cache" run.1 ["cache.z01"; "cache.zip"]
       Scenarios.two_parts_remote
       (previous_files_of
          (_load_manifest (echo_load m) run.1 "/cache/cache_manifest.json")))
  = [].
Proof.
  cbv zeta.
  destruct (replan_after_success_reuses_validated_parts Scenarios.toy_dump
              (echo_load (final_manifest 1700000000 Scenarios.changed_estimate
                            Scenarios.two_parts_remote))
              Scenarios.toy_network (fun _ => 2000000000) 1700000000
              "/cache" (Some "/extract") Scenarios.changed_estimate
              Scenarios.two_parts_remote Scenarios.old_manifest_disk
              {| downloadedBytes := 8; f_totalDownloadBytes := 8;
                 remoteTotalBytes := 8;
                 updatedParts := ["cache.z01"; "cache.zip"];
                 f_reusedParts := [];
                 manifestPath := "/cache/cache_manifest.json";
                 extractionDir := "/extract" |})
    as [_ Hnone].
  - unfold echo_load. now rewrite String.eqb_refl.
  - vm_compute. reflexivity.
  - apply Hnone. reflexivity.
Defined.

End TransferFacts.

(** ** Discovery of the archive parts *)

Module DiscoveryFacts.
Import PyStr PyStrFacts Planner Download.

Lemma canonical_names_distinct :
  NoDup (map part_name (seqZ 1 YAQWSX_MAX_PARTS) ++ ["cache.zip"]).
Proof. apply (bool_decide_unpack (NoDup _)). vm_compute. exact I. Qed.

(** The loop appends to [parts] names taken in order from the names of
    the indices it goes through, and its miss counter is never negative. *)
Lemma discover_loop_sublist (probe : string -> bool) (indices : list Z) :
  forall parts misses,
    exists found,
      discover_loop probe indices parts misses = parts ++ found
      /\ sublist found (map part_name indices).
Proof.
  induction indices as [|idx rest IH]; intros parts misses; cbn [discover_loop map].
  - exists []. split; [now rewrite app_nil_r | constructor].
  - destruct (probe _) eqn:Hp.
    + destruct (_ && _).
      * exists [part_name idx]. split; [reflexivity|].
        apply sublist_skip, sublist_nil_l.
      * destruct (IH (parts ++ [part_name idx]) 0) as (found & -> & Hsub).
        exists (part_name idx :: found). split; [now rewrite <- app_assoc|].
        now apply sublist_skip.
    + destruct (_ && _).
      * exists []. split; [now rewrite app_nil_r | apply sublist_nil_l].
      * destruct (IH parts (misses + 1)) as (found & -> & Hsub).
        exists found. split; [reflexivity | now apply sublist_cons].
Qed.

(** X21: whatever the server answers, the discovered list is names of
    the form [cache.zNN], in increasing order of their number and each at
    most once, followed by [cache.zip]: at most 61 names, none twice. *)
Theorem discovered_parts_are_canonical (probe : string -> bool) :
  exists found,
    _discover_yaqwsx_archive_parts probe = found ++ ["cache.zip"]
    /\ sublist found (map part_name (seqZ 1 YAQWSX_MAX_PARTS))
    /\ NoDup (_discover_yaqwsx_archive_parts probe)
    /\ (length (_discover_yaqwsx_archive_parts probe) <= 61)%nat
    /\ last (_discover_yaqwsx_archive_parts probe) = Some "cache.zip".
Proof.
  unfold _discover_yaqwsx_archive_parts.
  destruct (discover_loop_sublist probe (seqZ 1 YAQWSX_MAX_PARTS) [] 0)
    as (found & -> & Hsub).
  cbn [app]. exists found. split; [reflexivity|]. split; [exact Hsub|].
  assert (Hall : sublist (found ++ ["cache.zip"])
                   (map part_name (seqZ 1 YAQWSX_MAX_PARTS) ++ ["cache.zip"]))
    by now apply sublist_app.
  split; [|split].
  - eapply sublist_NoDup; [apply canonical_names_distinct | exact Hall].
  - apply sublist_length in Hall. rewrite Hall.
    vm_compute. lia.
  - apply last_snoc.
Qed.

(** The loop, run through a first stretch of indices, has either stopped
    in it or goes on with what it found there. *)
Lemma discover_loop_app (probe : string -> bool) (pre rest : list Z) :
  forall parts misses,
    0 <= misses ->
    exists found,
      sublist found (map part_name pre)
      /\ (discover_loop probe (pre ++ rest) parts misses = parts ++ found
          \/ exists misses',
               0 <= misses'
               /\ discover_loop probe (pre ++ rest) parts misses
                  = discover_loop probe rest (parts ++ found) misses').
Proof.
  induction pre as [|idx pre IH]; intros parts misses Hm; cbn [app map].
  - exists []. split; [constructor|]. right. exists misses.
    split; [exact Hm | now rewrite app_nil_r].
  - cbn [discover_loop]. destruct (probe _) eqn:Hp.
    + destruct (_ && _).
      * exists [part_name idx]. split; [apply sublist_skip, sublist_nil_l|].
        now left.
      * destruct (IH (parts ++ [part_name idx]) 0 ltac:(lia))
          as (found & Hsub & Hres).
        exists (part_name idx :: found). split; [now apply sublist_skip|].
        rewrite <- !app_assoc in Hres. exact Hres.
    + destruct (_ && _).
      * exists []. split; [apply sublist_nil_l|]. left. now rewrite app_nil_r.
      * destruct (IH parts (misses + 1) ltac:(lia)) as (found & Hsub & Hres).
        exists found. split; [now apply sublist_cons | exact Hres].
Qed.

Lemma three_misses_stop (probe : string -> bool) (a b c : Z) (post : list Z)
    (parts : list string) (misses : Z) :
  0 <= misses -> 8 < c ->
  probe (YAQWSX_BASE_URL +:+ "/" +:+ part_name a) = false ->
  probe (YAQWSX_BASE_URL +:+ "/" +:+ part_name b) = false ->
  probe (YAQWSX_BASE_URL +:+ "/" +:+ part_name c) = false ->
  discover_loop probe (a :: b :: c :: post) parts misses = parts.
Proof.
  intros Hm Hc Ha Hb Hcc. cbn [discover_loop]. rewrite Ha, Hb, Hcc.
  destruct (_ && _); [reflexivity|]. destruct (_ && _); [reflexivity|].
  replace (3 <=? misses + 1 + 1 + 1) with true by (symmetry; apply Z.leb_le; lia).
  replace (8 <? c) with true by (symmetry; apply Z.ltb_lt; lia).
  reflexivity.
Qed.

Lemma nothing_found (probe : string -> bool) (indices : list Z) :
  (forall url, probe url = false) ->
  forall parts misses, discover_loop probe indices parts misses = parts.
Proof.
  intros Hnone. induction indices as [|idx rest IH]; intros parts misses;
    cbn [discover_loop]; [reflexivity|].
  rewrite Hnone. destruct (_ && _); [reflexivity | apply IH].
Qed.

(** X22: the discovery gives up at the first run of three misses that
    ends after index 8.  If the probes of three successive indices, the last
    of them [i] with [9 <= i], all miss, no part with a number above [i] is
    in the list, whether the server has it or not; and if every probe misses
    the list is [cache.zip] alone. *)
Theorem discovery_stops_after_three_misses (probe : string -> bool) :
  (forall i j,
     9 <= i -> i < j <= YAQWSX_MAX_PARTS ->
     probe (YAQWSX_BASE_URL +:+ "/" +:+ part_name (i - 2)) = false ->
     probe (YAQWSX_BASE_URL +:+ "/" +:+ part_name (i - 1)) = false ->
     probe (YAQWSX_BASE_URL +:+ "/" +:+ part_name i) = false ->
     ~ In (part_name j) (_discover_yaqwsx_archive_parts probe))
  /\ ((forall url, probe url = false) ->
      _discover_yaqwsx_archive_parts probe = ["cache.zip"]).
Proof.
  split.
  - intros i j Hi Hj H2 H1 H0. unfold _discover_yaqwsx_archive_parts in *.
    unfold YAQWSX_MAX_PARTS in *.
    assert (Hsplit : seqZ 1 60
                     = seqZ 1 (i - 3) ++ (i - 2 :: i - 1 :: i :: seqZ (i + 1) (60 - i))).
    { replace 60 with ((i - 3) + (3 + (60 - i))) at 1 by lia.
      rewrite seqZ_app by lia. f_equal.
      rewrite seqZ_app by lia. replace (1 + (i - 3)) with (i - 2) by lia.
      replace (i - 2 + 3) with (i + 1) by lia.
      rewrite (seqZ_cons (i - 2) 3) by lia.
      replace (Z.succ (i - 2)) with (i - 1) by lia.
      rewrite (seqZ_cons (i - 1)) by lia.
      replace (Z.succ (i - 1)) with i by lia.
      rewrite (seqZ_cons i) by lia. cbn [Z.pred]. reflexivity. }
    pose proof canonical_names_distinct as Hdistinct.
    unfold YAQWSX_MAX_PARTS in Hdistinct.
    apply NoDup_app in Hdistinct. destruct Hdistinct as (Hnames & Hzip & _).
    assert (Hj' : In (part_name j) (map part_name (seqZ (i + 1) (60 - i)))).
    { apply in_map, list_elem_of_In, elem_of_seqZ. lia. }
    rewrite Hsplit in *.
    destruct (discover_loop_app probe (seqZ 1 (i - 3))
                (i - 2 :: i - 1 :: i :: seqZ (i + 1) (60 - i)) [] 0 ltac:(lia))
      as (found & Hsub & Hres).
    assert (Hloop : discover_loop probe
                      (seqZ 1 (i - 3)
                       ++ (i - 2 :: i - 1 :: i :: seqZ (i + 1) (60 - i))) [] 0
                    = found).
    { destruct Hres as [-> | (m & Hm & ->)]; [reflexivity|].
      apply (three_misses_stop probe); (lia || assumption). }
    rewrite Hloop. intros Hin.
    apply in_app_or in Hin. destruct Hin as [Hin | [Hin | []]].
    + rewrite map_app in Hnames. apply NoDup_app in Hnames.
      destruct Hnames as (_ & Hapart & _). apply (Hapart (part_name j)).
      * apply list_elem_of_In in Hin.
        exact (sublist_subseteq _ _ Hsub _ Hin).
      * apply list_elem_of_In. cbn [map]. do 3 right. exact Hj'.
    + apply (Hzip (part_name j)).
      * apply list_elem_of_In. rewrite map_app. apply in_or_app. right.
        cbn [map]. do 3 right. exact Hj'.
      * rewrite <- Hin. apply list_elem_of_here.
  - intros Hnone. unfold _discover_yaqwsx_archive_parts.
    now rewrite nothing_found.
Qed.

End DiscoveryFacts.

(** ** Remote metadata and the no-update guard *)

Module RemoteFacts.
Import PyStr PyStrFacts Planner Download Parts Remote.

Section Server.
Variable head : string -> option head_response.

(** What the metadata loop adds to the map it is given. *)
Lemma metadata_loop_spec (archive_parts : list string) :
  forall remote meta,
    metadata_loop head archive_parts remote = inr meta ->
    (forall f, In f archive_parts ->
       exists response size,
         head (YAQWSX_BASE_URL +:+ "/" +:+ f) = Some response
         /\ head_ok response = true
         /\ header_size (content_length response) = Some size
         /\ meta !! f
            = Some {| r_size := size; r_etag := etag response;
                      r_lastModified := last_modified response;
                      r_url := Some (YAQWSX_BASE_URL +:+ "/" +:+ f) |})
    /\ (forall f, ~ In f archive_parts -> meta !! f = remote !! f).
Proof.
  induction archive_parts as [|g rest IH]; intros remote meta Hrun;
    cbn [metadata_loop] in Hrun.
  - injection Hrun as <-. split; [intros f [] | reflexivity].
  - destruct (head (YAQWSX_BASE_URL +:+ "/" +:+ g)) as [response|] eqn:Hhead;
      [|discriminate].
    destruct (head_ok response) eqn:Hok; cbn [negb] in Hrun; [|discriminate].
    destruct (header_size (content_length response)) as [size|] eqn:Hsize;
      [|discriminate].
    destruct (IH _ _ Hrun) as [Hin Hout]. split.
    + intros f [<- | Hf].
      * destruct (in_dec string_dec g rest) as [Hg | Hg].
        -- destruct (Hin g Hg) as (r2 & s2 & Hh2 & Hok2 & Hs2 & Hm2).
           exists r2, s2. auto.
        -- exists response, size. rewrite (Hout g Hg), lookup_insert_eq. auto.
      * now apply Hin.
    + intros f Hf. rewrite Hout by (intros H; apply Hf; now right).
      apply lookup_insert_ne. intros ->. apply Hf. now left.
Qed.

(** X23: when [_get_remote_archive_metadata] returns, the server has
    answered the probe of every archive part with a success status and a
    usable length; the map has an entry for each archive part, made of the
    size, change-tag and last-modified value of that answer, and for nothing
    else; and the URL recorded for a part is the URL the probe went to, so
    that the download of a part, which prefers the recorded URL, goes to
    [YAQWSX_BASE_URL/<name>] for every name. *)
Theorem remote_metadata_covers_the_archive_parts
    (archive_parts : list string) (meta : gmap string remote_file) :
  _get_remote_archive_metadata head archive_parts = inr meta ->
  (forall f, In f archive_parts ->
     exists response size,
       head (YAQWSX_BASE_URL +:+ "/" +:+ f) = Some response
       /\ head_ok response = true
       /\ header_size (content_length response) = Some size
       /\ meta !! f
          = Some {| r_size := size; r_etag := etag response;
                    r_lastModified := last_modified response;
                    r_url := Some (YAQWSX_BASE_URL +:+ "/" +:+ f) |})
  /\ (forall f, ~ In f archive_parts -> meta !! f = None)
  /\ (forall f, part_url meta f = YAQWSX_BASE_URL +:+ "/" +:+ f).
Proof.
  unfold _get_remote_archive_metadata. intros Hrun.
  destruct (metadata_loop_spec _ _ _ Hrun) as [Hin Hout].
  split; [exact Hin|]. split.
  - intros f Hf. rewrite (Hout f Hf). apply lookup_empty.
  - intros f. unfold part_url, lookup_remote.
    destruct (in_dec string_dec f archive_parts) as [Hf | Hf].
    + destruct (Hin f Hf) as (response & size & _ & _ & _ & ->). reflexivity.
    + rewrite (Hout f Hf), lookup_empty. reflexivity.
Qed.

End Server.

Section Env.
Variable json_dump : manifest -> string.
Variable json_load : string -> option manifest.
Variable network : string -> option response.
Variable disk_free : string -> Z.
Variable now : Z.

(** X24: the no-update guard of a run is the test that the plan is
    empty.  For an estimate whose update fields were set from the plan of
    the same cache directory, manifest and remote metadata, the guard holds
    exactly when no part is planned for download; the run then returns its
    no-update result and leaves the disk as it was; and when a part is
    planned the guard does not hold, whatever size the server reported for
    it. *)
Theorem no_update_guard_is_the_empty_plan
    (target_dir : string) (extract_dir : option string)
    (base_estimate : estimate) (remote_meta : gmap string remote_file)
    (disk : gmap string string) :
  let manifest_path := path_join target_dir "cache_manifest.json" in
  let plan :=
    _plan_incremental_download target_dir disk (archiveParts base_estimate)
      remote_meta
      (previous_files_of (_load_manifest json_load disk manifest_path)) in
  let est := estimate_update_fields base_estimate plan in
  let run :=
    download_yaqwsx_cache json_dump json_load network disk_free now
      target_dir extract_dir est remote_meta disk in
  (no_update est = true <-> partsToDownload plan = [])
  /\ (partsToDownload plan = [] ->
      run = (disk, NoUpdate (downloadSizeBytes base_estimate)
                     (Z.of_nat (length (archiveParts base_estimate)))))
  /\ (partsToDownload plan <> [] ->
      forall total reused, run.2 <> NoUpdate total reused).
Proof.
  cbv zeta.
  set (plan := _plan_incremental_download _ _ _ _ _).
  assert (Hguard : no_update (estimate_update_fields base_estimate plan) = true
                  <-> partsToDownload plan = []).
  { unfold no_update, estimate_update_fields.
    cbn [changedArchiveParts estimatedUpdateDownloadMB default].
    destruct (PlannerFacts.plan_partition target_dir disk remote_meta
                (previous_files_of
                   (_load_manifest json_load disk
                      (path_join target_dir "cache_manifest.json")))
                (archiveParts base_estimate)) as (_ & _ & Ht).
    cbv zeta in Ht. fold plan in Ht. rewrite Ht.
    destruct (partsToDownload plan) as [|f l]; cbn [length].
    - split; reflexivity.
    - split; [|discriminate]. intros H. apply andb_true_iff in H.
      destruct H as [H _]. apply Z.eqb_eq in H. unfold id in H. exfalso. lia. }
  split; [exact Hguard|]. split.
  - intros Hnone. unfold download_yaqwsx_cache.
    rewrite (proj2 Hguard Hnone).
    cbn [archiveParts downloadSizeBytes reusedArchiveParts
           estimate_update_fields default].
    do 3 f_equal.
    pose proof (ReuseFacts.plan_lengths target_dir disk
                  (archiveParts base_estimate) remote_meta
                  (previous_files_of
                     (_load_manifest json_load disk
                        (path_join target_dir "cache_manifest.json")))) as Hlen.
    cbv zeta in Hlen. fold plan in Hlen.
    rewrite Hnone in Hlen. cbn [length] in Hlen. unfold id. lia.
  - intros Hsome total reused. unfold download_yaqwsx_cache.
    destruct (no_update _) eqn:Hno;
      [exfalso; apply Hsome, Hguard; reflexivity|].
    cbn [archiveParts estimate_update_fields].
    fold plan.
    destruct (_ <? _); [discriminate|]. destruct (_ <? _); [discriminate|].
    destruct (fetch_parts _ _ _ _ _ _) as [disk1 [e|n]]; [discriminate|].
    destruct (negb _); [discriminate|].
    destruct (List.filter _ _); discriminate.
Qed.

End Env.


Lemma remote_metadata_covers_the_archive_parts_witness :
  exists meta,
    _get_remote_archive_metadata sized_head ["cache.z01"; "cache.zip"] = inr meta
    /\ part_url meta "cache.z01"
       = "https://yaqwsx.github.io/jlcparts/data/cache.z01".
Proof.
  eexists. split; [reflexivity|].
  apply (remote_metadata_covers_the_archive_parts sized_head
           ["cache.z01"; "cache.zip"]).
  reflexivity.
Defined.

End RemoteFacts.

(** ** The official API: paging, and the tier of a part *)

Module ApiFacts.
Import PyStr PyStrFacts Signing Parts Store Views Api.

(** X27: the tier the official-API import gives a part is Basic,
    Extended or Preferred.  It is Preferred only when the assembly type
    mentions [Prefer] and neither [Basic] nor [Extended], and the library
    type is not [base]: Basic wins over Preferred.  The snapshot import
    decides the other way round: a row flagged both basic and preferred is
    stored as Preferred. *)
Theorem api_tier_prefers_basic (assembly_type : string)
    (library_type : option string) :
  let tier := _determine_library_type assembly_type library_type in
  (tier = "Basic" \/ tier = "Extended" \/ tier = "Preferred")
  /\ (tier = "Preferred" <->
      contains "Prefer" assembly_type = true
      /\ contains "Basic" assembly_type = false
      /\ contains "Extended" assembly_type = false
      /\ library_type <> Some "base")
  /\ (contains "Basic" assembly_type = true -> tier = "Basic")
  /\ (forall now_ts last_col r p,
        src_basic r = SInt 1 -> src_preferred r = SInt 1 ->
        convert_row now_ts last_col r = Some p ->
        Parts.library_type p = "Preferred").
Proof.
  cbv zeta. unfold _determine_library_type.
  assert (Hbase : match library_type with
                  | Some t => String.eqb t "base"
                  | None => false
                  end = true <-> library_type = Some "base").
  { destruct library_type as [t|]; [|split; discriminate].
    rewrite String.eqb_eq. split; congruence. }
  destruct (contains "Basic" assembly_type),
    (match library_type with Some t => String.eqb t "base" | None => false end)
    eqn:Hlib, (contains "Extended" assembly_type),
    (contains "Prefer" assembly_type); cbn [orb];
    (split; [auto|]); (split; [|split]);
    try (split; [discriminate | intros (? & ? & ? & ?); try discriminate]);
    try (intros _; reflexivity); try discriminate;
    try (exfalso; match goal with H : _ <> _ |- _ => apply H end;
         now apply Hbase);
    try (split; [intros _; repeat split; try reflexivity;
                 intros Heq; apply Hbase in Heq; discriminate
                | reflexivity]);
    try (intros now_ts last_col r p Hb Hp Hconv; unfold convert_row in Hconv;
         rewrite Hb, Hp in Hconv; cbn [int_or_zero mbind option_bind] in Hconv;
         destruct (int_or_zero (src_joints r)); [|discriminate];
         destruct (int_or_zero (src_stock r)); [|discriminate];
         cbn in Hconv; injection Hconv as <-; reflexivity).
Qed.

Section Client.
Variable component : Type.
Variable server : nat -> request -> api_reply component.
Variable nonce_at : nat -> string.
Variable time_at : nat -> Z.
Variable dumps : option string -> string.

Local Abbreviation fetch := (fetch_parts_page component server nonce_at time_at dumps).
Local Abbreviation loop := (download_loop component server nonce_at time_at dumps).

(** A page request makes one request, or none when the credentials are
    not set. *)
Lemma fetch_counts (self : client) (calls : nat) (last_key : option string) :
  (missing (app_id self) || missing (access_key self)
   || missing (secret_key self) = true
   /\ fetch self calls last_key = (calls, inl CredentialsMissing))
  \/ (missing (app_id self) || missing (access_key self)
      || missing (secret_key self) = false
      /\ (fetch self calls last_key).1 = S calls
      /\ (fetch self calls last_key).2 <> inl CredentialsMissing).
Proof.
  unfold fetch_parts_page, _get_auth_header.
  destruct (missing (app_id self) || missing (access_key self)
            || missing (secret_key self)); [left; now split | right].
  split; [reflexivity|].
  destruct (server _ _) as [| |code data]; cbn [fst snd]; try now split.
  destruct (negb _); [now split|]. destruct data; now split.
Qed.

(** Once a page has brought parts, the loop does not raise. *)
Lemma loop_with_parts_returns (self : client) (fuel : nat) :
  forall calls all_parts last_key calls' e,
    all_parts <> [] ->
    loop self fuel calls all_parts last_key <> Some (calls', inl e).
Proof.
  induction fuel as [|fuel IH]; intros calls all_parts last_key calls' e Hne;
    cbn [download_loop]; [discriminate|].
  assert (Herr : forall n x, on_error component n x all_parts
                             <> (calls', inl e)).
  { intros n x. unfold on_error. destruct all_parts; [congruence|].
    cbn. discriminate. }
  destruct (fetch self calls last_key) as [n [x | [data|]]].
  - intros H. injection H as H. now apply Herr in H.
  - destruct (_ || _); [discriminate|]. apply IH.
    intros H. apply app_eq_nil in H. now destruct H.
  - intros H. injection H as H. now apply Herr in H.
Qed.

(** X25: [download_full_database] raises only when its first page
    request fails, or brings no usable page: the exception it raises is the
    one of that first request, and at most one request has been made, none
    when the credentials are not set.  A failure on any later page is
    swallowed: the parts of the pages before it are returned as the result.
    In particular, without credentials the call raises, for any server,
    without a request. *)
Theorem full_download_raises_only_on_the_first_page
    (self : client) (fuel : nat) :
  let run := download_full_database component server nonce_at time_at dumps
               self fuel in
  (forall calls e,
     run = Some (calls, inl e) ->
     (calls <= 1)%nat
     /\ ((fetch self 0%nat None).2 = inl e
         \/ (fetch self 0%nat None).2 = inr None /\ e = BadPage))
  /\ (missing (app_id self) || missing (access_key self)
      || missing (secret_key self) = true ->
      (0 < fuel)%nat ->
      run = Some (0%nat, inl CredentialsMissing))
  /\ (forall calls first rest key calls2 e,
        fetch self 0%nat None
        = (calls, inr (Some {| componentInfos := Some (first :: rest);
                               lastKey := Some key |})) ->
        key <> "" ->
        fetch self calls (Some key) = (calls2, inl e) ->
        (2 <= fuel)%nat ->
        run = Some (calls2, inr (first :: rest))).
Proof.
  cbv zeta. unfold download_full_database. split; [|split].
  - intros calls e Hrun. destruct fuel as [|fuel]; [discriminate|].
    cbn [download_loop] in Hrun.
    pose proof (fetch_counts self 0 None) as Hcount.
    destruct (fetch self 0%nat None) as [n [x | [data|]]] eqn:Hfetch;
      cbn [fst snd] in *.
    + unfold on_error in Hrun. cbn in Hrun. injection Hrun as <- <-.
      split; [|now left].
      destruct Hcount as [[_ H] | (_ & H & _)]; [injection H as <-|]; lia.
    + destruct (_ || _) eqn:Hcond; [discriminate|].
      cbn [app] in Hrun. apply orb_false_iff in Hcond.
      destruct Hcond as [_ Hcond].
      destruct (default [] (componentInfos data)) as [|c0 l] eqn:Hparts;
        [discriminate|].
      now apply loop_with_parts_returns in Hrun.
    + unfold on_error in Hrun. cbn in Hrun. injection Hrun as <- <-.
      split; [|now right].
      destruct Hcount as [[_ H] | (_ & H & _)]; [discriminate | lia].
  - intros Hmiss Hfuel. destruct fuel as [|fuel]; [lia|].
    cbn [download_loop].
    destruct (fetch_counts self 0 None) as [[_ ->] | [H _]]; [reflexivity|].
    rewrite Hmiss in H. discriminate.
  - intros calls first rest key calls2 e Hfetch Hkey Hnext Hfuel.
    destruct fuel as [|[|fuel]]; [lia | lia |].
    cbn [download_loop]. rewrite Hfetch.
    cbn [componentInfos lastKey default app given length Nat.eqb].
    apply truthy_true in Hkey. rewrite Hkey. cbn [negb orb].
    rewrite Hnext. reflexivity.
Qed.

(** X26: the paging loop has no page limit of its own.  Against a server
    that answers every request with code 200, a page that is not empty and a
    key that is not empty, a client with its credentials set never gets out
    of the loop: no number of iterations ends the call. *)
Theorem full_download_has_no_page_limit (self : client) :
  missing (app_id self) || missing (access_key self)
  || missing (secret_key self) = false ->
  (forall n req, exists c cs key,
     key <> ""
     /\ server n req
        = Reply (Some 200)
            (DataPage {| componentInfos := Some (c :: cs);
                         lastKey := Some key |})) ->
  forall fuel,
    download_full_database component server nonce_at time_at dumps self fuel
    = None.
Proof.
  intros Hcred Hserver fuel. unfold download_full_database.
  generalize 0%nat at 1. generalize (@nil component). generalize (@None string).
  induction fuel as [|fuel IH]; intros last_key all_parts calls;
    cbn [download_loop]; [reflexivity|].
  unfold fetch_parts_page, _get_auth_header. rewrite Hcred.
  destruct (Hserver calls
              {| authorization :=
                   "JOP appid=" +:+ DQ +:+ str_opt (app_id self) +:+ DQ
                   +:+ ",accesskey=" +:+ DQ +:+ str_opt (access_key self) +:+ DQ
                   +:+ ",nonce=" +:+ DQ +:+ nonce_at calls +:+ DQ
                   +:+ ",timestamp=" +:+ DQ +:+ pretty (time_at calls) +:+ DQ
                   +:+ ",signature=" +:+ DQ
                   +:+ _sign self
                         (_build_signature_string "POST"
                            "/component/getComponentInfos" (time_at calls)
                            (nonce_at calls) (dumps (given last_key)))
                   +:+ DQ;
                 payload_lastKey := given last_key |})
    as (c & cs & key & Hkey & ->).
  rewrite bool_decide_eq_true_2 by reflexivity.
  cbn [negb componentInfos lastKey default given length Nat.eqb].
  apply truthy_true in Hkey. rewrite Hkey. cbn [negb orb].
  apply IH.
Qed.

End Client.


(** A server that fails on the second request: the first page is the
    result. *)
Lemma full_download_raises_only_on_the_first_page_witness :
  download_full_database nat one_page_server (fun _ => "n") (fun _ => 0)
    (fun _ => "{}") keyed_client 5
  = Some (2%nat, inr [0%nat]).
Proof.
  pose proof (full_download_raises_only_on_the_first_page nat one_page_server
                (fun _ => "n") (fun _ => 0) (fun _ => "{}") keyed_client 5)
    as H.
  cbv zeta in H. destruct H as (_ & _ & H).
  apply (H 1%nat 0%nat [] "next" 2%nat RequestError);
    [reflexivity | discriminate | reflexivity | lia].
Defined.

Lemma full_download_has_no_page_limit_witness :
  download_full_database nat endless_server (fun _ => "n") (fun _ => 0)
    (fun _ => "{}") keyed_client 1000
  = None.
Proof.
  apply (full_download_has_no_page_limit nat endless_server (fun _ => "n")
           (fun _ => 0) (fun _ => "{}") keyed_client).
  - reflexivity.
  - intros n req. exists n, [], "next". split; [discriminate | reflexivity].
Defined.

End ApiFacts.

(** ** The whole download run *)

Module RunFacts.
Import PyStr PyStrFacts Planner Download Remote Run.

Section Env.
Variable json_dump : manifest -> string.
Variable json_load : string -> option manifest.
Variable network : string -> option response.
Variable disk_free : string -> Z.
Variable now : Z.
Variable head : string -> option head_response.
Variable estimate_yaqwsx_update :
  string -> gmap string string -> option estimate.
Variable seven_zip : option string.
Variable cpu_count : option Z.
Variable env_threads : option string.
Variable run_7z :
  string -> Z -> string -> string -> gmap string string -> option extraction.
Variable count_rows : string -> option (option Z).

Let run :=
  Run.download_yaqwsx_cache json_dump json_load network disk_free now head
    estimate_yaqwsx_update seven_zip cpu_count env_threads run_7z count_rows.

(** The extraction either leaves the files as they are or leaves those the
    extractor left. *)
Lemma extract_and_count_files (target_dir : string) (r : fetched)
    (disk : gmap string string) :
  let ending :=
    extract_and_count seven_zip cpu_count env_threads run_7z count_rows
      target_dir r disk in
  ending.1 = disk
  \/ exists program threads extract,
       seven_zip = Some program
       /\ extract_threads env_threads cpu_count = Some threads
       /\ run_7z program threads (path_join target_dir "cache.zip")
            (extractionDir r) disk = Some extract
       /\ ending.1 = files_after extract.
Proof.
  cbv zeta. unfold extract_and_count.
  destruct seven_zip as [program|]; [|now left].
  destruct (truthy program); cbn [negb]; [|now left].
  destruct (extract_threads env_threads cpu_count) as [threads|]; [|now left].
  destruct (run_7z program threads _ _ disk) as [extract|] eqn:Hrun; [|now left].
  right. exists program, threads, extract. repeat split; try assumption.
  destruct (negb (returncode extract =? 0)).
  - now destruct (_ || _).
  - destruct (negb (path_exists _ _)); [reflexivity|].
    now destruct (_get_cache_total_parts _ _ _).
Qed.

(** C6 (amended): in a run whose update estimate and whose probe of the
    remote metadata both succeed, and which is not ended by the no-update
    return, when the download directory has fewer free bytes than the
    planned download, or the extraction directory has fewer than the
    estimated size of the expanded catalog, the run raises the disk-space
    error that carries the required and the available megabytes, and the
    disk is as it was: no byte of a planned part has been written.  The runs
    left out end before the disk is looked at, and leave it as it was too:
    with the error of the estimate, with the no-update result, or with the
    error of the probe. *)
Theorem C6_preflight_aborts_before_any_write
    (target_dir : string) (extract_dir : option string)
    (disk : gmap string string) :
  (forall est remote_meta,
     let manifest_path := path_join target_dir "cache_manifest.json" in
     let plan :=
       _plan_incremental_download target_dir disk (archiveParts est) remote_meta
         (previous_files_of (_load_manifest json_load disk manifest_path)) in
     let required_download := totalDownloadBytes plan in
     let required_extraction := mb_to_bytes (estimatedDatabaseSizeMB est) in
     let free_download := disk_free target_dir in
     let free_extraction :=
       disk_free (extraction_target target_dir extract_dir) in
     estimate_yaqwsx_update target_dir disk = Some est ->
     no_update est = false ->
     _get_remote_archive_metadata head (archiveParts est) = inr remote_meta ->
     free_download < required_download
     \/ free_extraction < required_extraction ->
     run target_dir extract_dir disk
     = (disk,
        RunRaised
          (StepFailed
             (if free_download <? required_download
              then InsufficientDownloadSpace (mb_round1 required_download)
                     (mb_round1 free_download)
              else InsufficientExtractionSpace (mb_round1 required_extraction)
                     (mb_round1 free_extraction)))))
  /\ (estimate_yaqwsx_update target_dir disk = None ->
      run target_dir extract_dir disk = (disk, RunRaised EstimateFailed))
  /\ (forall est,
        estimate_yaqwsx_update target_dir disk = Some est ->
        no_update est = true ->
        run target_dir extract_dir disk
        = (disk,
           RunNoUpdate (downloadSizeBytes est)
             (default (Z.of_nat (length (archiveParts est)))
                (reusedArchiveParts est))))
  /\ (forall est e,
        estimate_yaqwsx_update target_dir disk = Some est ->
        no_update est = false ->
        _get_remote_archive_metadata head (archiveParts est) = inl e ->
        run target_dir extract_dir disk = (disk, RunRaised (ProbeFailed e))).
Proof.
  unfold run, Run.download_yaqwsx_cache. repeat split.
  - cbv zeta. intros est remote_meta Hest Hguard Hprobe Hshort.
    rewrite Hest, Hguard, Hprobe. unfold Download.download_yaqwsx_cache.
    rewrite Hguard.
    destruct (disk_free target_dir <? _) eqn:Hdl; [reflexivity|].
    apply Z.ltb_ge in Hdl.
    destruct Hshort as [Hlt | Hlt]; [lia|].
    apply Z.ltb_lt in Hlt. rewrite Hlt. reflexivity.
  - now intros ->.
  - intros est -> ->. reflexivity.
  - intros est e -> -> ->. reflexivity.
Qed.

(** X15: a file that is not the file of a part planned for download, and
    is neither the manifest nor the manifest's temporary file, is written by
    nothing in a run but the extractor.  Either the run ends with that file
    as it was before the run, or the extractor was called, on files among
    which that file was as before the run, and the run ends with the files
    the extractor left.  So if the extractor leaves that file alone, it is
    the same after the run as before it, however the run ends. *)
Theorem run_writes_only_planned_parts_and_manifest
    (target_dir : string) (extract_dir : option string)
    (disk : gmap string string) (p : string) :
  let manifest_path := path_join target_dir "cache_manifest.json" in
  let ending := run target_dir extract_dir disk in
  (forall est remote_meta f,
     estimate_yaqwsx_update target_dir disk = Some est ->
     _get_remote_archive_metadata head (archiveParts est) = inr remote_meta ->
     In f (partsToDownload
             (_plan_incremental_download target_dir disk (archiveParts est)
                remote_meta
                (previous_files_of (_load_manifest json_load disk manifest_path)))) ->
     p <> path_join target_dir f) ->
  p <> manifest_path ->
  p <> manifest_path +:+ ".tmp" ->
  (exists before_extraction,
     before_extraction !! p = disk !! p
     /\ (ending.1 = before_extraction
         \/ exists program threads extract,
              seven_zip = Some program
              /\ extract_threads env_threads cpu_count = Some threads
              /\ run_7z program threads (path_join target_dir "cache.zip")
                   (extraction_target target_dir extract_dir)
                   before_extraction = Some extract
              /\ ending.1 = files_after extract))
  /\ ((forall program threads files extract,
         run_7z program threads (path_join target_dir "cache.zip")
           (extraction_target target_dir extract_dir) files = Some extract ->
         files_after extract !! p = files !! p) ->
      ending.1 !! p = disk !! p).
Proof.
  cbv zeta. intros Hparts Hm Htmp.
  assert (Hmain : exists before_extraction,
     before_extraction !! p = disk !! p
     /\ ((run target_dir extract_dir disk).1 = before_extraction
         \/ exists program threads extract,
              seven_zip = Some program
              /\ extract_threads env_threads cpu_count = Some threads
              /\ run_7z program threads (path_join target_dir "cache.zip")
                   (extraction_target target_dir extract_dir)
                   before_extraction = Some extract
              /\ (run target_dir extract_dir disk).1 = files_after extract)).
  { unfold run, Run.download_yaqwsx_cache.
    destruct (estimate_yaqwsx_update target_dir disk) as [est|] eqn:Hest;
      [|exists disk; split; [reflexivity | now left]].
    destruct (no_update est); [exists disk; split; [reflexivity | now left]|].
    destruct (_get_remote_archive_metadata head (archiveParts est))
      as [e|remote_meta] eqn:Hprobe;
      [exists disk; split; [reflexivity | now left]|].
    pose proof (TransferFacts.steps_write_only_planned_parts_and_manifest
                  json_dump json_load network disk_free now target_dir
                  extract_dir est remote_meta disk p
                  (fun f => Hparts est remote_meta f eq_refl Hprobe) Hm Htmp)
      as Hsteps.
    pose proof (TransferFacts.handover_directory json_dump json_load network
                  disk_free now target_dir extract_dir est remote_meta disk)
      as Hdir.
    destruct (Download.download_yaqwsx_cache _ _ _ _ _ _ _ _ _ _)
      as [disk1 [a b | e | r]]; cbn [fst snd] in Hsteps, Hdir; exists disk1;
      (split; [exact Hsteps|]); try (now left).
    destruct (extract_and_count_files target_dir r disk1) as [H | H];
      [now left|].
    right. rewrite (Hdir r eq_refl). exact H. }
  split; [exact Hmain|].
  intros Halone. destruct Hmain as (before & Hbefore & [-> | Hex]);
    [exact Hbefore|].
  destruct Hex as (program & threads & extract & _ & _ & Hrun & ->).
  rewrite (Halone _ _ _ _ Hrun). exact Hbefore.
Qed.

End Env.

(** C6, as stated, fails on two counts.  The estimate reports no changed
    archive part, the extraction directory has no free byte while the
    expanded catalog is estimated at 1782 MB, and the run returns its
    no-update result instead of raising a disk-space error.  And with an
    estimate that reports changed parts and the same directory, the run in
    which the server answers no probe of the metadata raises the error of
    the probe. *)
Lemma C6_counterexample :
  (fun _ : string => 0) (extraction_target "/cache" (Some "/extract"))
  < mb_to_bytes (estimatedDatabaseSizeMB Scenarios.unchanged_estimate)
  /\ Run.download_yaqwsx_cache Scenarios.toy_dump Scenarios.toy_load
       Scenarios.toy_network (fun _ => 0) 1700000000 sized_head
       unchanged_update (Some "/usr/bin/7z") (Some 4) None toy_7z toy_count
       "/cache" (Some "/extract") Scenarios.synced_disk
     = (Scenarios.synced_disk, RunNoUpdate 1038090240 2)
  /\ (fun _ : string => 0) (extraction_target "/cache" (Some "/extract"))
     < mb_to_bytes (estimatedDatabaseSizeMB Scenarios.changed_estimate)
  /\ Run.download_yaqwsx_cache Scenarios.toy_dump Scenarios.toy_load
       Scenarios.toy_network (fun _ => 0) 1700000000 silent_head
       changed_update (Some "/usr/bin/7z") (Some 4) None toy_7z toy_count
       "/cache" (Some "/extract") Scenarios.synced_disk
     = (Scenarios.synced_disk,
        RunRaised
          (ProbeFailed
             (HeadFailed "https://yaqwsx.github.io/jlcparts/data/cache.z01"))).
Proof. repeat split; vm_compute; reflexivity. Qed.

Lemma C6_preflight_aborts_before_any_write_witness :
  Run.download_yaqwsx_cache Scenarios.toy_dump Scenarios.toy_load
    Scenarios.toy_network (fun _ => 7) 1700000000 sized_head changed_update
    (Some "/usr/bin/7z") (Some 4) None toy_7z toy_count
    "/cache" (Some "/extract") Scenarios.old_manifest_disk
  = (Scenarios.old_manifest_disk,
     RunRaised (StepFailed (InsufficientDownloadSpace 0 0))).
Proof.
  destruct (C6_preflight_aborts_before_any_write Scenarios.toy_dump
              Scenarios.toy_load Scenarios.toy_network (fun _ => 7) 1700000000
              sized_head changed_update (Some "/usr/bin/7z") (Some 4) None
              toy_7z toy_count "/cache" (Some "/extract")
              Scenarios.old_manifest_disk) as [H _].
  refine (H Scenarios.changed_estimate _ eq_refl eq_refl eq_refl _).
  left. vm_compute. reflexivity.
Defined.

(** A run that goes through: the extractor writes the database into the
    extraction directory, and a file of the cache directory that is no part
    of the archive is as it was. *)
Lemma run_writes_only_planned_parts_and_manifest_witness :
  let ending :=
    Run.download_yaqwsx_cache Scenarios.toy_dump Scenarios.toy_load
      Scenarios.toy_network (fun _ => 2000000000) 1700000000 sized_head
      changed_update (Some "/usr/bin/7z") (Some 4) None toy_7z toy_count
      "/cache" (Some "/extract") Scenarios.old_manifest_disk in
  ending.1 !! "/cache/notes.txt" = Scenarios.old_manifest_disk !! "/cache/notes.txt"
  /\ ending.1 !! "/extract/cache.sqlite3" = Some "rows"
  /\ exists r, ending.2 = Done r /\ expectedTotalParts r = Some 4.
Proof.
  cbv zeta. split; [|split; [reflexivity | eexists; split; reflexivity]].
  apply (run_writes_only_planned_parts_and_manifest Scenarios.toy_dump
           Scenarios.toy_load Scenarios.toy_network (fun _ => 2000000000)
           1700000000 sized_head changed_update (Some "/usr/bin/7z") (Some 4)
           None toy_7z toy_count "/cache" (Some "/extract")
           Scenarios.old_manifest_disk "/cache/notes.txt").
  - intros est remote_meta f Hest Hprobe Hf.
    injection Hest as <-. vm_compute in Hprobe. injection Hprobe as <-.
    vm_compute in Hf. destruct Hf as [<- | [<- | []]]; discriminate.
  - discriminate.
  - discriminate.
  - intros program threads files extract Hrun.
    injection Hrun as <-. cbn [files_after].
    apply lookup_insert_ne. discriminate.
Defined.

End RunFacts.
